(** * Cube Builder AWS: a shallow embedding of [maestro.py] and
      [utils/scene_parser.py], and the properties of its pipeline.

    Conventions of the embedding.
    - Python [str] is [string]; a character is a code point below 256.
    - Python [dict] used as a record or table is a [gmap]; a [dict] whose
      iteration order matters is an association list.
    - Python [float] is an IEEE 754 binary64, in the specification of
      [SpecFloat]: every conversion and operation rounds to the nearest
      value, a tie to the even one; NaN, the infinities and the signed zero
      are values.  A float an activity holds is given by its exact value.
    - A numpy array of one window is the list of its pixels in row-major
      (ravelled) order, each pixel a [Z] with the wrap-around of its dtype
      written out where the code can reach it.
    - A function that can raise returns a [result]; the services object is an
      explicit state that every operation threads. *)

From Stdlib Require Import ZArith QArith Qround Lqa Ascii String DecimalString List
  Permutation Sorted OrdersEx Lia SpecFloat.
From stdpp Require Import base option list gmap strings.

Local Open Scope string_scope.
Local Open Scope list_scope.
Local Open Scope Z_scope.

(** ** Exceptions and results *)

Inductive exn : Type :=
| AttributeError (msg : string)
| KeyError (key : string)
| TypeError (msg : string)
| ValueError (msg : string)
| IndexError (msg : string)
| UnboundLocalError (name : string)
| ZeroDivisionError
| OverflowError (msg : string)
| IOError (msg : string).

Inductive result (A : Type) : Type :=
| Ok (a : A)
| Raise (e : exn).
Arguments Ok {A} a.
Arguments Raise {A} e.

(** [str(e)] *)
Definition exn_message (e : exn) : string :=
  match e with
  | AttributeError msg | TypeError msg | ValueError msg | IndexError msg
  | OverflowError msg | IOError msg => msg
  | KeyError key => "'" +:+ key +:+ "'"
  | UnboundLocalError name =>
      "local variable '" +:+ name +:+ "' referenced before assignment"
  | ZeroDivisionError => "float division by zero"
  end.

#[global] Instance exn_eq_dec : EqDecision exn.
Proof. solve_decision. Defined.
#[global] Instance result_eq_dec `{EqDecision A} : EqDecision (result A).
Proof. solve_decision. Defined.

#[global] Instance result_ret : MRet result := fun A a => Ok a.
#[global] Instance result_bind : MBind result := fun A B f m =>
  match m with
  | Ok a => f a
  | Raise e => Raise e
  end.

#[global] Instance result_fmap : FMap result := fun A B f m =>
  match m with
  | Ok a => Ok (f a)
  | Raise e => Raise e
  end.

Definition of_option {A} (o : option A) (e : exn) : result A :=
  match o with
  | Some a => Ok a
  | None => Raise e
  end.

(** ** [utils/scene_parser.py] *)

Module SceneParser.

(** The character classes of [re] on [str] patterns, on code points below
    256: [[0-9]] is ASCII only, [\w] is [str.isalnum] or the underscore. *)
Definition in_range (lo hi : nat) (c : ascii) : bool :=
  let n := nat_of_ascii c in (lo <=? n)%nat && (n <=? hi)%nat.

Definition is_digit (c : ascii) : bool := in_range 48 57 c.

Definition is_word (c : ascii) : bool :=
  in_range 48 57 c || in_range 65 90 c || in_range 97 122 c
  || in_range 95 95 c
  || in_range 170 170 c || in_range 178 179 c || in_range 181 181 c
  || in_range 185 186 c || in_range 188 190 c
  || in_range 192 214 c || in_range 216 246 c || in_range 248 255 c.

(** [re.IGNORECASE] on an ASCII literal of the pattern. *)
Definition ascii_lower (c : ascii) : ascii :=
  if in_range 65 90 c then ascii_of_nat (nat_of_ascii c + 32) else c.

Definition lit_matches (p c : ascii) : bool :=
  bool_decide (ascii_lower p = ascii_lower c).

Inductive cls : Type := Word | Digit.

Definition cls_matches (k : cls) (c : ascii) : bool :=
  match k with
  | Word => is_word c
  | Digit => is_digit c
  end.

(** The pieces the two patterns are made of: anchors, literals, and named
    groups of a class repeated a fixed number of times. *)
Inductive item : Type :=
| Bol
| Eol
| Lit (c : ascii)
| Group (name : string) (k : cls) (n : nat).

Fixpoint take_cls (k : cls) (n : nat) (s : string) : option (string * string) :=
  match n with
  | O => Some (EmptyString, s)
  | S n' =>
      match s with
      | EmptyString => None
      | String c s' =>
          if cls_matches k c
          then '(g, rest) ← take_cls k n' s'; Some (String c g, rest)
          else None
      end
  end.

Definition newline : ascii := ascii_of_nat 10.

(** [$] without [re.MULTILINE]: the end of the string, or just before a
    newline that is its last character. *)
Definition at_eol (s : string) : bool :=
  match s with
  | EmptyString => true
  | String c EmptyString => bool_decide (c = newline)
  | _ => false
  end.

(** [re.match(pattern, s, re.IGNORECASE).groupdict()]: no piece of these
    patterns has a choice, so matching is a single left-to-right pass. *)
Fixpoint match_items (p : list item) (start : bool) (s : string)
    (groups : gmap string string) : option (gmap string string) :=
  match p with
  | [] => Some groups
  | Bol :: p' => if start then match_items p' start s groups else None
  | Eol :: p' => if at_eol s then match_items p' start s groups else None
  | Lit c :: p' =>
      match s with
      | String d s' =>
          if lit_matches c d then match_items p' false s' groups else None
      | EmptyString => None
      end
  | Group name k n :: p' =>
      '(g, rest) ← take_cls k n s;
      match_items p' (match n with O => start | _ => false end) rest
                  (<[name := g]> groups)
  end.

Definition re_match (p : list item) (s : string) : option (gmap string string) :=
  match_items p true s ∅.

Definition landsat_pattern : list item :=
  [ Bol; Lit "L";
    Group "sensor" Word 1;
    Group "satellite" Word 2;
    Lit "_";
    Group "processingCorrectionLevel" Word 4;
    Lit "_";
    Group "path" Digit 3;
    Group "row" Digit 3;
    Lit "_";
    Group "acquisitionYear" Digit 4;
    Group "acquisitionMonth" Digit 2;
    Group "acquisitionDay" Digit 2;
    Lit "_";
    Group "processingYear" Digit 4;
    Group "processingMonth" Digit 2;
    Group "processingDay" Digit 2;
    Lit "_";
    Group "collectionNumber" Word 2;
    Lit "_";
    Group "collectionCategory" Word 2;
    Eol ].

Definition instruments : gmap string string :=
  <["05" := "tm"]> (<["07" := "etm"]> (<["08" := "oli-tirs"]> ∅)).

(** [dict(scene_id=scene_id, **meta, **args)]: a keyword given twice is a
    [TypeError]. *)
Definition kwargs_distinct (meta args : gmap string string) : Prop :=
  meta !! "scene_id" = None ∧
  (dom args : gset string) ## ({[ "scene_id" ]} ∪ dom meta).

#[global] Instance kwargs_distinct_dec meta args :
  Decision (kwargs_distinct meta args).
Proof. unfold kwargs_distinct. apply _. Defined.

Definition dict_kwargs (scene_id : string) (meta args : gmap string string)
    : result (gmap string string) :=
  if bool_decide (kwargs_distinct meta args)
  then Ok (<["scene_id" := scene_id]> meta ∪ args)
  else Raise (TypeError "dict() got multiple values for keyword argument").

Definition landsat (scene_id : string) (args : gmap string string)
    : result (gmap string string) :=
  meta ← of_option (re_match landsat_pattern scene_id)
            (AttributeError "'NoneType' object has no attribute 'groupdict'");
  satellite ← of_option (meta !! "satellite") (KeyError "satellite");
  instrument ← of_option (instruments !! satellite) (KeyError satellite);
  dict_kwargs scene_id (<["instrument" := instrument]> meta) args.

(** The keys of the record [landsat] builds before [args] is merged in. *)
Definition landsat_keys : gset string :=
  list_to_set
    [ "scene_id"; "sensor"; "satellite"; "processingCorrectionLevel";
      "path"; "row"; "acquisitionYear"; "acquisitionMonth"; "acquisitionDay";
      "processingYear"; "processingMonth"; "processingDay";
      "collectionNumber"; "collectionCategory"; "instrument" ].

End SceneParser.


(** ** Python values

    An activity is a [dict] from field names to values of mixed type.  Nested
    dictionaries keep their insertion order, which [for key in d] follows. *)

Inductive pyval : Type :=
| VNone
| VBool (b : bool)
| VInt (n : Z)
| VFloat (q : Q)
| VStr (s : string)
| VList (l : list pyval)
| VDict (d : list (string * pyval))
| VObj (name : string).

Abbreviation activity := (gmap string pyval).

Module Py.

(** [d[k]] *)
Definition getitem (d : activity) (k : string) : result pyval :=
  of_option (d !! k) (KeyError k).

Definition as_str (v : pyval) : result string :=
  match v with
  | VStr s => Ok s
  | _ => Raise (TypeError "expected str")
  end.

Definition as_int (v : pyval) : result Z :=
  match v with
  | VInt n => Ok n
  | VBool b => Ok (if b then 1 else 0)
  | _ => Raise (TypeError "expected int")
  end.

Definition get_str (d : activity) (k : string) : result string :=
  getitem d k ≫= as_str.

Definition get_int (d : activity) (k : string) : result Z :=
  getitem d k ≫= as_int.

(** [v == 'literal']: only a [str] equals a [str]. *)
Definition eq_str (v : pyval) (s : string) : bool :=
  match v with
  | VStr t => String.eqb t s
  | _ => false
  end.

(** [a == b] on scalars; the fields compared this way hold no containers. *)
Definition eq_scalar (a b : pyval) : bool :=
  match a, b with
  | VNone, VNone => true
  | VBool x, VBool y => Bool.eqb x y
  | VInt x, VInt y => x =? y
  | VFloat x, VFloat y => Qeq_bool x y
  | VInt x, VFloat y | VFloat y, VInt x => Qeq_bool (inject_Z x) y
  | VStr x, VStr y => String.eqb x y
  | VObj x, VObj y => String.eqb x y
  | _, _ => false
  end.

(** [bool(v)] *)
Definition truthy (v : pyval) : bool :=
  match v with
  | VNone => false
  | VBool b => b
  | VInt n => negb (n =? 0)
  | VFloat q => negb (Qeq_bool q 0)
  | VStr s => negb (String.eqb s "")
  | VList l => match l with [] => false | _ => true end
  | VDict d => match d with [] => false | _ => true end
  | VObj _ => true
  end.

(** Ordered dictionaries. *)
Fixpoint dict_get {A} (d : list (string * A)) (k : string) : option A :=
  match d with
  | [] => None
  | (k', v) :: d' => if String.eqb k' k then Some v else dict_get d' k
  end.

Fixpoint dict_set {A} (d : list (string * A)) (k : string) (v : A)
    : list (string * A) :=
  match d with
  | [] => [(k, v)]
  | (k', v') :: d' =>
      if String.eqb k' k then (k', v) :: d' else (k', v') :: dict_set d' k v
  end.

Definition dict_del {A} (d : list (string * A)) (k : string)
    : list (string * A) :=
  List.filter (fun kv => negb (String.eqb (fst kv) k)) d.

Definition dict_keys {A} (d : list (string * A)) : list string := d.*1.

(** [old in s] and [s.startswith(old)] *)
Fixpoint startswith (s old : string) : bool :=
  match old, s with
  | EmptyString, _ => true
  | String a old', String b s' => Ascii.eqb a b && startswith s' old'
  | String _ _, EmptyString => false
  end.

Fixpoint contains (s old : string) : bool :=
  startswith s old ||
  match s with
  | EmptyString => false
  | String _ s' => contains s' old
  end.

(** [s.replace(old, new)]: the occurrences are taken left to right and do
    not overlap; [skip] counts the characters of an occurrence still to be
    dropped.  An empty [old] puts [new] around every character. *)
Fixpoint replace_from (old new s : string) (skip : nat) : string :=
  match s with
  | EmptyString => EmptyString
  | String c s' =>
      match skip with
      | S k => replace_from old new s' k
      | O =>
          if startswith s old
          then new +:+ replace_from old new s' (String.length old - 1)
          else String c (replace_from old new s' 0)
      end
  end.

Fixpoint intersperse (new s : string) : string :=
  match s with
  | EmptyString => new
  | String c s' => new +:+ String c (intersperse new s')
  end.

Definition replace (s old new : string) : string :=
  match old with
  | EmptyString => intersperse new s
  | _ => replace_from old new s 0
  end.

(** [s.split(sep)] for a one-character separator, [sep.join(l)] and
    [l[:-1]]. *)
Fixpoint split (sep : ascii) (s : string) : list string :=
  match s with
  | EmptyString => [EmptyString]
  | String c s' =>
      if Ascii.eqb c sep then EmptyString :: split sep s'
      else match split sep s' with
           | [] => [String c EmptyString]
           | w :: ws => String c w :: ws
           end
  end.

Fixpoint join (sep : string) (l : list string) : string :=
  match l with
  | [] => EmptyString
  | [w] => w
  | w :: ws => w +:+ sep +:+ join sep ws
  end.

Definition but_last {A} (l : list A) : list A := removelast l.

(** ** Floats

    A Python [float] is an IEEE 754 binary64, as [SpecFloat] specifies it:
    53 bits of precision, every operation rounded to the nearest value, a
    tie to the even one. *)
Definition prec : Z := 53.
Definition emax : Z := 1024.

(** The float nearest an integer: [float(n)] without its overflow. *)
Definition float_of_Z (n : Z) : spec_float :=
  binary_normalize prec emax n 0 false.

(** The float nearest the ratio of two positive integers. *)
Definition float_of_ratio (negative : bool) (m n : positive) : spec_float :=
  let '(q, e, l) := SFdiv_core_binary prec emax (Zpos m) 0 (Zpos n) 0 in
  binary_round_aux prec emax negative q e l.

(** The float nearest [m * 10 ^ e], for the digits [m] of a decimal
    literal. *)
Definition float_of_decimal (negative : bool) (m e : Z) : spec_float :=
  match m with
  | Zpos p =>
      if 0 <=? e
      then binary_round prec emax negative (p * Z.to_pos (10 ^ e)) 0
      else float_of_ratio negative p (Z.to_pos (10 ^ (- e)))
  | _ => S754_zero negative
  end.

Definition digit_val (c : ascii) : option Z :=
  let n := nat_of_ascii c in
  if (48 <=? n)%nat && (n <=? 57)%nat then Some (Z.of_nat n - 48) else None.

Definition is_ascii_digit (c : ascii) : bool :=
  match digit_val c with Some _ => true | None => false end.

(** The longest prefix of digits: its value, its length, and the rest. *)
Fixpoint take_digits (s : string) (acc : Z) (len : nat) : Z * nat * string :=
  match s with
  | String c s' =>
      match digit_val c with
      | Some d => take_digits s' (10 * acc + d) (S len)
      | None => (acc, len, s)
      end
  | EmptyString => (acc, len, s)
  end.

Definition take_sign (s : string) : bool * string :=
  match s with
  | String "-" s' => (true, s')
  | String "+" s' => (false, s')
  | _ => (false, s)
  end.

(** The white space [float] strips from both ends of a [str]: the ASCII
    one, and the two spaces among the code points from 128 to 255. *)
Definition is_space (c : ascii) : bool :=
  let n := nat_of_ascii c in
  ((9 <=? n) && (n <=? 13) || (n =? 32) || (n =? 133) || (n =? 160))%nat.

Fixpoint lstrip (s : string) : string :=
  match s with
  | String c s' => if is_space c then lstrip s' else s
  | EmptyString => EmptyString
  end.

Fixpoint rstrip (s : string) : string :=
  match s with
  | EmptyString => EmptyString
  | String c s' =>
      match rstrip s' with
      | EmptyString => if is_space c then EmptyString else String c EmptyString
      | t => String c t
      end
  end.

(** An underscore may stand between two digits, and is dropped. *)
Fixpoint without_underscores (prev : ascii) (s : string) : option string :=
  match s with
  | EmptyString => if Ascii.eqb prev "_" then None else Some EmptyString
  | String c s' =>
      if Ascii.eqb c "_"
      then if is_ascii_digit prev then without_underscores c s' else None
      else if Ascii.eqb prev "_" && negb (is_ascii_digit c) then None
      else String c <$> without_underscores c s'
  end.

Definition lower (c : ascii) : ascii :=
  let n := nat_of_ascii c in
  if (65 <=? n)%nat && (n <=? 90)%nat then ascii_of_nat (n + 32) else c.

Fixpoint lower_string (s : string) : string :=
  match s with
  | EmptyString => EmptyString
  | String c s' => String (lower c) (lower_string s')
  end.

(** [inf], [infinity] and [nan], signed, in any case of the letters. *)
Definition parse_inf_or_nan (s : string) : option spec_float :=
  let '(negative, s1) := take_sign s in
  let t := lower_string s1 in
  if String.eqb t "inf" || String.eqb t "infinity"
  then Some (S754_infinity negative)
  else if String.eqb t "nan" then Some S754_nan
  else None.

Definition parse_exponent (s : string) : option Z :=
  match s with
  | EmptyString => Some 0
  | String c s' =>
      if Ascii.eqb c "e" || Ascii.eqb c "E"
      then
        let '(neg, s1) := take_sign s' in
        let '(e, len, rest) := take_digits s1 0 0 in
        match len, rest with
        | S _, EmptyString => Some (if neg then - e else e)
        | _, _ => None
        end
      else None
  end.

(** A decimal literal: an optional sign, digits with an optional point
    among them, an optional exponent.  The answer is the sign, the digits
    as one integer, and the power of ten they are scaled by. *)
Definition parse_decimal (s : string) : option (bool * Z * Z) :=
  let '(negative, s1) := take_sign s in
  let '(ip, ilen, s2) := take_digits s1 0 0 in
  let '(digits, flen, s3) :=
    match s2 with
    | String "." s2' => take_digits s2' ip 0
    | _ => (ip, O, s2)
    end in
  match (ilen + flen)%nat, parse_exponent s3 with
  | S _, Some e => Some (negative, digits, e - Z.of_nat flen)
  | _, _ => None
  end.

(** [float(s)] on a [str]: the white space is stripped, the underscores
    are checked and dropped, and the rest is [inf], [nan] or a decimal
    literal, read to the nearest float. *)
Definition float_of_string (s : string) : result spec_float :=
  let bad := ValueError "could not convert string to float" in
  t ← of_option (without_underscores "000" (rstrip (lstrip s))) bad;
  match parse_inf_or_nan t with
  | Some x => Ok x
  | None =>
      '(negative, digits, e) ← of_option (parse_decimal t) bad;
      Ok (float_of_decimal negative digits e)
  end.

(** [float(n)] on an [int], and the same conversion where an [int] meets a
    [float] in an operation. *)
Definition float_of_int (n : Z) : result spec_float :=
  match float_of_Z n with
  | S754_infinity _ => Raise (OverflowError "int too large to convert to float")
  | x => Ok x
  end.

(** The float nearest the exact value an activity gives for a float. *)
Definition float_of_Q (q : Q) : spec_float :=
  match Qnum q with
  | Z0 => S754_zero false
  | Zpos m => float_of_ratio false m (Qden q)
  | Zneg m => float_of_ratio true m (Qden q)
  end.

Definition float (v : pyval) : result spec_float :=
  match v with
  | VFloat q => Ok (float_of_Q q)
  | VInt n => float_of_int n
  | VBool b => Ok (float_of_Z (if b then 1 else 0))
  | VStr s => float_of_string s
  | _ => Raise (TypeError "float() argument must be a string or a number")
  end.


(** [int(v)] on numbers. *)
Definition int (v : pyval) : result Z :=
  match v with
  | VInt n => Ok n
  | VBool b => Ok (if b then 1 else 0)
  | VFloat q => Ok (Z.quot (Qnum q) (Zpos (Qden q)))
  | _ => Raise (TypeError "int() argument must be a number")
  end.

(** [round(x)] on a float: the nearest integer to its exact value, a tie to
    the even one; NaN and the infinities have none. *)
Definition round (x : spec_float) : result Z :=
  match x with
  | S754_nan => Raise (ValueError "cannot convert float NaN to integer")
  | S754_infinity _ =>
      Raise (OverflowError "cannot convert float infinity to integer")
  | S754_zero _ => Ok 0
  | S754_finite negative m e =>
      let n :=
        if 0 <=? e then Zpos m * 2 ^ e
        else
          let d := 2 ^ (- e) in
          let q := Zpos m / d in
          match 2 * (Zpos m mod d) ?= d with
          | Lt => q
          | Gt => q + 1
          | Eq => if Z.even q then q else q + 1
          end in
      Ok (if negative then - n else n)
  end.

(** [a / b] on floats. *)
Definition truediv (a b : spec_float) : result spec_float :=
  match b with
  | S754_zero _ => Raise ZeroDivisionError
  | _ => Ok (SFdiv prec emax a b)
  end.

(** [str(n)] on an [int]. *)
Definition str_int (n : Z) : string :=
  DecimalString.NilZero.string_of_int (Z.to_int n).

End Py.

(** ** The services object

    [maestro.py] reaches the counter table, the activity table, object storage
    and the queues only through [services]. *)

Record counter : Type := Counter {
  mycount : Z;
  total_to_be_done : Z;
  end_date : string;
  errors : Z
}.

(** A written cloud-optimized GeoTIFF: what [create_cog_in_s3] received. *)
Record cog : Type := Cog {
  cog_profile_nodata : option Z;
  cog_dtype : string;
  cog_data : list Z;
  cog_nodata : option Z
}.

(** The stage preparers [next_step] can call; a value records that the
    preparer was entered, and with which activity. *)
Inductive call : Type :=
| NextBlend (a : activity)
| NextPosblend (a : activity)
| NextPublish (a : activity).

Record services : Type := Services {
  bucket_name : string;
  control_table : gmap string counter;
  activities_table : gmap (string * string) activity;
  s3 : gmap string cog;
  kinesis : list activity;
  sqs : list activity;
  calls : list call;
  now : string
}.

Module Services.

Definition with_control (f : gmap string counter → gmap string counter)
    (svc : services) : services :=
  Services (bucket_name svc) (f (control_table svc)) (activities_table svc)
           (s3 svc) (kinesis svc) (sqs svc) (calls svc) (now svc).

Definition with_activities
    (f : gmap (string * string) activity → gmap (string * string) activity)
    (svc : services) : services :=
  Services (bucket_name svc) (control_table svc) (f (activities_table svc))
           (s3 svc) (kinesis svc) (sqs svc) (calls svc) (now svc).

Definition with_s3 (f : gmap string cog → gmap string cog)
    (svc : services) : services :=
  Services (bucket_name svc) (control_table svc) (activities_table svc)
           (f (s3 svc)) (kinesis svc) (sqs svc) (calls svc) (now svc).

Definition with_kinesis (f : list activity → list activity)
    (svc : services) : services :=
  Services (bucket_name svc) (control_table svc) (activities_table svc)
           (s3 svc) (f (kinesis svc)) (sqs svc) (calls svc) (now svc).

Definition with_sqs (f : list activity → list activity)
    (svc : services) : services :=
  Services (bucket_name svc) (control_table svc) (activities_table svc)
           (s3 svc) (kinesis svc) (f (sqs svc)) (calls svc) (now svc).

Definition with_calls (f : list call → list call)
    (svc : services) : services :=
  Services (bucket_name svc) (control_table svc) (activities_table svc)
           (s3 svc) (kinesis svc) (sqs svc) (f (calls svc)) (now svc).

(** Modelled from the spec: [services.update_control_table], the counter
    table's [update(id, delta, setFields) → attrs], an atomic add-and-return
    on [mycount] that also sets [end_date].  The answer is the new
    [mycount]; a missing row answers without attributes. *)
Definition update_control_table (svc : services) (id : string) (increment : Z)
    (date : string) : services * option Z :=
  match control_table svc !! id with
  | Some row =>
      let row' := Counter (mycount row + increment) (total_to_be_done row)
                          date (errors row) in
      (with_control <[id := row']> svc, Some (mycount row'))
  | None => (svc, None)
  end.

(** Modelled from the spec: the counter table's [incrementErrors(id)], as
    [solo] spells it ([ADD #errors :increment], which also creates the
    row). *)
Definition increment_errors (svc : services) (id : string) : services :=
  let row := default (Counter 0 0 "" 0) (control_table svc !! id) in
  with_control
    <[id := Counter (mycount row) (total_to_be_done row) (end_date row)
                    (errors row + 1)]> svc.

(** Modelled from the spec: [services.put_control_table], the counter
    table's [put(id, count, total, date)]. *)
Definition put_control_table (svc : services) (id : string) (count total : Z)
    (date : string) : services :=
  with_control <[id := Counter count total date 0]> svc.

(** Modelled from the spec: [services.remove_control_by_key], the counter
    table's [deleteByKey(id)]. *)
Definition remove_control_by_key (svc : services) (id : string) : services :=
  with_control (delete id) svc.

(** Modelled from the spec: the activity table's [put(id, sk, json_blob)],
    reached by [services.put_activity] and [services.put_item_kinesis]; the
    stored item is the activity as it is at the call.  The second also
    leaves the activity on the stream. *)
Definition put_activity (svc : services) (a : activity) : result services :=
  id ← Py.get_str a "dynamoKey";
  sk ← Py.get_str a "sk";
  Ok (with_activities <[(id, sk) := a]> svc).

Definition put_item_kinesis (svc : services) (a : activity) : result services :=
  svc ← put_activity svc a;
  Ok (with_kinesis (λ log, log ++ [a]) svc).

(** Modelled from the spec: the activity table's [get(id, sk) → item?],
    [queryAll(id) → items[]] and [remove(id, sk)]. *)
Definition get_activity_item (svc : services) (id sk : string)
    : option activity :=
  activities_table svc !! (id, sk).

Definition get_activities_by_key (svc : services) (id : string)
    : list activity :=
  List.filter (λ a, match a !! "dynamoKey" with
                    | Some (VStr k) => String.eqb k id
                    | _ => false
                    end)
              (map_to_list (activities_table svc)).*2.

Definition remove_activity_by_key (svc : services) (id sk : string)
    : services :=
  with_activities (delete (id, sk)) svc.

(** Modelled from the spec: the message queue's [send(activity)]. *)
Definition send_to_sqs (svc : services) (a : activity) : services :=
  with_sqs (λ q, q ++ [a]) svc.

(** Modelled from the spec: object storage's [head(bucket, key) → exists?]
    and [delete(bucket, key)]. *)
Definition s3_file_exists (svc : services) (key : string) : bool :=
  bool_decide (is_Some (s3 svc !! key)).

Definition delete_file_S3 (svc : services) (key : string) : services :=
  with_s3 (delete key) svc.

(** Modelled from the spec: [encode_key], the concatenation of the named
    fields that makes a [dynamoKey]. *)
Fixpoint encode_key (a : activity) (keys : list string) : result string :=
  match keys with
  | [] => Ok EmptyString
  | k :: keys' =>
      v ← Py.get_str a k;
      rest ← encode_key a keys';
      Ok (v +:+ rest)
  end.

End Services.

(** ** [maestro.py]: the counter and the stage transitions *)

Module Maestro.
Import Py Services.

Definition get_key_to_controltable (a : activity) : result string :=
  key ← get_str a "dynamoKey";
  action ← getitem a "action";
  key ← (if negb (eq_str action "publish")
         then band ← get_str a "band"; Ok (replace key band "")
         else Ok key);
  if eq_str action "merge"
  then
    date ← get_str a "date";
    start ← get_str a "start";
    end_ ← get_str a "end";
    Ok (replace key date (start +:+ end_))
  else Ok key.

(** [activity.get('bands_expressions') and
     len(activity['bands_expressions'].keys()) > 0] *)
Definition has_bands_expressions (a : activity) : bool :=
  match a !! "bands_expressions" with
  | Some (VDict d) =>
      truthy (VDict d) && (0 <? Z.of_nat (length (dict_keys d)))
  | _ => false
  end.

(** The counter is bumped first; the stage preparer is called when the
    answered [mycount] has reached the activity's own
    [totalInstancesToBeDone].  The function is followed up to that call:
    the state it answers is the state in which the preparer is entered,
    and the call is recorded in [calls] with its argument.  What the
    preparer then does to the services is not part of this function; of
    the three preparers [next_blend] is followed below, in [NextBlend]. *)
Definition next_step (svc : services) (a : activity) : result services :=
  key ← get_key_to_controltable a;
  let '(svc, response) := update_control_table svc key 1 (now svc) in
  match response with
  | Some mycount =>
      total ← get_int a "totalInstancesToBeDone";
      if total <=? mycount
      then
        action ← getitem a "action";
        if eq_str action "merge"
        then Ok (with_calls (λ l, l ++ [NextBlend a]) svc)
        else if eq_str action "blend"
        then
          if has_bands_expressions a
          then Ok (with_calls (λ l, l ++ [NextPosblend a]) svc)
          else Ok (with_calls (λ l, l ++ [NextPublish a]) svc)
        else if eq_str action "posblend"
        then Ok (with_calls (λ l, l ++ [NextPublish a]) svc)
        else Ok svc
      else Ok svc
  | None => Ok svc
  end.

(** [solo]: the finished activities are stored one after the other; a DONE
    one moves its stage's counter, an ERROR one only the error count. *)
Definition solo_one (svc : services) (a : activity) : result services :=
  svc ← put_activity svc a;
  key ← get_key_to_controltable a;
  status ← getitem a "mystatus";
  if eq_str status "DONE" then next_step svc a
  else if eq_str status "ERROR" then Ok (increment_errors svc key)
  else Ok svc.


End Maestro.

(** ** [maestro.py]: the preparation of BLEND *)

Module Blend.
Import Py Services.

(** [from geoalchemy2 import func]: the module-level name [func] is the SQL
    function generator, an object that is no string. *)
Definition func : pyval := VObj "geoalchemy2.func".

Definition as_dict (v : pyval) : result (list (string * pyval)) :=
  match v with
  | VDict d => Ok d
  | _ => Raise (TypeError "expected dict")
  end.

Definition as_list (v : pyval) : result (list pyval) :=
  match v with
  | VList l => Ok l
  | _ => Raise (TypeError "expected list")
  end.

Definition dict_getitem (d : list (string * pyval)) (k : string)
    : result pyval :=
  of_option (dict_get d k) (KeyError k).

(** [os.path.basename] *)
Definition basename (p : string) : string :=
  List.last (split "/" p) EmptyString.

(** ['{0}/{5}/{1}/{2}_{3}/{0}_{5}_{1}_{2}_{3}_{4}.tif'.format(cube_id, tileid,
    start, end, band, cube_version)] *)
Definition composite_file (cube_id tileid start end_ band cube_version : string)
    : string :=
  cube_id +:+ "/" +:+ cube_version +:+ "/" +:+ tileid +:+ "/"
  +:+ start +:+ "_" +:+ end_ +:+ "/"
  +:+ cube_id +:+ "_" +:+ cube_version +:+ "_" +:+ tileid +:+ "_"
  +:+ start +:+ "_" +:+ end_ +:+ "_" +:+ band +:+ ".tif".

(** ['{}_{}'.format('_'.join(blendactivity['datacube'].split('_')[:-1]),
    function)] *)
Definition cube_id_of (datacube function : string) : string :=
  join "_" (but_last (split "_" datacube)) +:+ "_" +:+ function.

Definition set_composite_file (blendactivity : activity)
    (function band cube_version : string) : result activity :=
  datacube ← get_str blendactivity "datacube";
  tileid ← get_str blendactivity "tileid";
  start ← get_str blendactivity "start";
  end_ ← get_str blendactivity "end";
  Ok (<[function +:+ "file" :=
          VStr (composite_file (cube_id_of datacube function) tileid start end_
                               band cube_version)]> blendactivity).

(** The first loop of [fill_blend]: the merge records of every date. *)
Fixpoint query_merges (svc : services) (mergeactivity blendactivity : activity)
    (internal_band : pyval) (list_dates : list pyval) (items : list activity)
    : result (activity * activity * option (list activity)) :=
  match list_dates with
  | [] => Ok (mergeactivity, blendactivity, Some items)
  | date :: rest =>
      let mergeactivity := <["date_formated" := date]> mergeactivity in
      let blendactivity :=
        if truthy internal_band
        then <["internal_band" := internal_band]> blendactivity
        else blendactivity in
      dynamoKey ← encode_key mergeactivity
        ["action"; "irregular_datacube"; "tileid"; "date_formated"; "band"];
      let response := get_activities_by_key svc dynamoKey in
      match response with
      | [] => Ok (mergeactivity, blendactivity, None)
      | _ => query_merges svc mergeactivity blendactivity internal_band rest
                          (items ++ response)
      end
  end.

(** The second loop: one scene entry per date, with the band's file. *)
Definition add_scene (blendactivity : activity) (band : string)
    (item : activity) : result activity :=
  date_ref ← get_str item "sk";
  scenes ← getitem blendactivity "scenes" ≫= as_dict;
  scenes ←
    match dict_get scenes date_ref with
    | Some _ => Ok scenes
    | None =>
        efficacy ← getitem item "efficacy";
        date ← getitem item "date";
        dataset ← getitem item "dataset";
        satellite ← getitem item "satellite";
        cloudratio ← getitem item "cloudratio";
        Ok (dict_set scenes date_ref
              (VDict [("efficacy", efficacy); ("date", date);
                      ("dataset", dataset); ("satellite", satellite);
                      ("cloudratio", cloudratio)]))
    end;
  scene ← dict_getitem scenes date_ref ≫= as_dict;
  let scene :=
    match dict_get scene "ARDfiles" with
    | Some _ => scene
    | None => dict_set scene "ARDfiles" (VDict [])
    end in
  ardfile ← get_str item "ARDfile";
  ardfiles ← dict_getitem scene "ARDfiles" ≫= as_dict;
  let ardfiles := dict_set ardfiles band (VStr (basename ardfile)) in
  let scene := dict_set scene "ARDfiles" (VDict ardfiles) in
  Ok (<["scenes" := VDict (dict_set scenes date_ref (VDict scene))]>
        blendactivity).

Fixpoint add_scenes (blendactivity : activity) (band : string)
    (items : list activity) : result (activity * bool) :=
  match items with
  | [] => Ok (blendactivity, true)
  | item :: rest =>
      status ← getitem item "mystatus";
      if negb (eq_str status "DONE") then Ok (blendactivity, false)
      else
        blendactivity ← add_scene blendactivity band item;
        add_scenes blendactivity band rest
  end.

(** The loop over the composite functions.  Its guard reads the module-level
    [func], not the loop variable [function]. *)
Fixpoint fill_functions (blendactivity : activity) (band cube_version : string)
    (functions : list pyval) : result activity :=
  match functions with
  | [] => Ok blendactivity
  | function :: rest =>
      if eq_str func "IDT"
      then fill_functions blendactivity band cube_version rest
      else
        function ← as_str function;
        blendactivity ←
          set_composite_file blendactivity function band cube_version;
        fill_functions blendactivity band cube_version rest
  end.

(** [fill_blend] changes both activities in place and answers whether all
    merges were found DONE. *)
Definition fill_blend (svc : services) (mergeactivity blendactivity : activity)
    (internal_band : pyval) : result (activity * activity * bool) :=
  band ← get_str blendactivity "band";
  let blendactivity := <["instancesToBeDone" := VInt 0]> blendactivity in
  cube_version ← get_str blendactivity "version";
  list_dates ← getitem mergeactivity "list_dates" ≫= as_list;
  '(mergeactivity, blendactivity, items) ←
    query_merges svc mergeactivity blendactivity internal_band list_dates [];
  match items with
  | None => Ok (mergeactivity, blendactivity, false)
  | Some items =>
      '(blendactivity, found) ← add_scenes blendactivity band items;
      if negb found then Ok (mergeactivity, blendactivity, false)
      else
        n ← get_int blendactivity "instancesToBeDone";
        let blendactivity :=
          <["instancesToBeDone" := VInt (n + Z.of_nat (length items))]>
            blendactivity in
        quality_band ← getitem blendactivity "quality_band";
        if negb (eq_str quality_band band)
        then
          functions ← getitem blendactivity "functions" ≫= as_list;
          blendactivity ←
            fill_functions blendactivity band cube_version functions;
          Ok (mergeactivity, blendactivity, true)
        else
          blendactivity ←
            set_composite_file blendactivity "STK" band cube_version;
          Ok (mergeactivity, blendactivity, true)
  end.

End Blend.

(** ** [maestro.py]: the BLEND worker, the order of the scenes *)

Module BlendOrder.
Import Py Blend.

(** [mask_tuples]: one pair of score and date key per scene, in the order
    of the dictionary.  The score is [100. * efficacy / resolution] in
    floats, the product rounded before the quotient. *)
Fixpoint mask_tuples (scenes : list (string * pyval))
    : result (list (spec_float * string)) :=
  match scenes with
  | [] => Ok []
  | (key, scene) :: rest =>
      scene ← as_dict scene;
      efficacy ← dict_getitem scene "efficacy" ≫= float;
      let resolution := float_of_Z 10 in
      tuples ← mask_tuples rest;
      Ok ((SFdiv prec emax (SFmul prec emax (float_of_Z 100) efficacy)
                 resolution, key) :: tuples)
  end.

(** [a < b] on tuples of a float and a string: the first components decide
    unless they are equal as floats; a NaN is neither equal to nor below
    anything. *)
Definition tuple_ltb (a b : spec_float * string) : bool :=
  if SFeqb a.1 b.1 then String.ltb a.2 b.2 else SFltb a.1 b.1.

(** [sorted(l, reverse=True)]: descending, and stable: equal elements keep
    the order they had in [l].  The sort uses [<] alone.  Where [<] orders
    the elements, that is on tuples without NaN, the result is the one
    arrangement with these two properties, which the insertion below
    gives; with a NaN among the scores the result of Python depends on the
    steps of its sort and is not followed here. *)
Fixpoint insert_desc (x : spec_float * string)
    (l : list (spec_float * string)) : list (spec_float * string) :=
  match l with
  | [] => [x]
  | y :: l' => if tuple_ltb x y then y :: insert_desc x l' else x :: y :: l'
  end.

Fixpoint sorted_reverse (l : list (spec_float * string))
    : list (spec_float * string) :=
  match l with
  | [] => []
  | x :: l' => insert_desc x (sorted_reverse l')
  end.

(** The keys of the scenes in the order [blend] opens and blends them. *)
Definition blend_order (scenes : list (string * pyval))
    : result (list (spec_float * string)) :=
  tuples ← mask_tuples scenes;
  Ok (sorted_reverse tuples).

End BlendOrder.

(** ** [maestro.py]: the MERGE worker *)

(** What [rasterio.open] gives for a raster file: its profile, band 1 read
    whole, and band 1 read window by window over [block_windows()], each
    window in row-major order. *)
Record source : Type := Source {
  src_nodata : option Z;
  src_dtype : string;
  src_band : list Z;
  src_width : Z;
  src_height : Z;
  src_windows : list (list Z)
}.

(** The profile of an output file. *)
Record profile : Type := Profile {
  prof_driver : string;
  prof_dtype : string;
  prof_nodata : option Z;
  prof_width : Z;
  prof_height : Z
}.

(** The raster library and the helpers of [utils.processing] that the
    workers call: opening an asset, warping it onto the tile grid, the
    quality statistics, and the printing of a float. *)
Record world : Type := World {
  rasterio_open : string → result source;
  reproject : source → Z → Z → string → Z → Z → result (list Z);
  getMask : list Z → pyval → result (list Z * spec_float * spec_float);
  qa_statistics : list Z → pyval → result (spec_float * spec_float);
  get_s3_prefix : string → string;
  str_float : spec_float → string
}.

Module Merge.
Import Py Services Blend.

Definition wrap16 (z : Z) : Z := z mod 65536.

(** [numpy.full((numlin, numcol), fill_value=v)] *)
Definition full (numlin numcol v : Z) : result (list Z) :=
  if (numlin <? 0) || (numcol <? 0)
  then Raise (ValueError "negative dimensions are not allowed")
  else Ok (replicate (Z.to_nat (numlin * numcol)) v).

(** [raster_merge[raster != nodata] = raster[raster != nodata]] *)
Definition overwrite_valid (nodata : Z) (raster_merge raster : list Z)
    : result (list Z) :=
  if bool_decide (length raster = length raster_merge)
  then Ok (zip_with (λ m r, if r =? nodata then m else r) raster_merge raster)
  else Raise (IndexError "boolean index did not match indexed array").

(** [factor = raster * raster_mask; raster_merge = raster_merge + factor;
    raster_mask[raster != nodata] = 0], on [uint16] arrays. *)
Definition accumulate (nodata : Z) (raster_merge raster_mask raster : list Z)
    : result (list Z * list Z) :=
  if bool_decide (length raster = length raster_merge
                  ∧ length raster_mask = length raster_merge)
  then
    let factor := zip_with (λ r k, wrap16 (r * k)) raster raster_mask in
    let raster_merge :=
      zip_with (λ m f, wrap16 (m + f)) raster_merge factor in
    let raster_mask :=
      zip_with (λ k r, if r =? nodata then k else 0) raster_mask raster in
    Ok (raster_merge, raster_mask)
  else Raise (ValueError "operands could not be broadcast together").

(** The per-scene composition: the branch is chosen by the band and by
    [is_sentinel_landsat_quality_fmask]. *)
Definition compose (overwrite : bool) (nodata : Z)
    (raster_merge raster_mask raster : list Z) : result (list Z * list Z) :=
  if overwrite
  then
    raster_merge ← overwrite_valid nodata raster_merge raster;
    Ok (raster_merge, raster_mask)
  else accumulate nodata raster_merge raster_mask raster.

(** [v != 0] *)
Definition ne_zero (v : pyval) : bool :=
  match v with
  | VInt n => negb (n =? 0)
  | VFloat q => negb (Qeq_bool q 0)
  | VBool b => b
  | _ => true
  end.

Definition mask_nodata (activity_mask : pyval) : result pyval :=
  match activity_mask with
  | VDict d => dict_getitem d "nodata"
  | _ => Raise (TypeError "object is not subscriptable")
  end.

(** [('LANDSAT' in satellite or satellite == 'SENTINEL-2') and
     (band == activity['quality_band'] and activity_mask['nodata'] != 0)] *)
Definition is_sentinel_landsat_quality_fmask (satellite : pyval) (band : string)
    (quality_band activity_mask : pyval) : result bool :=
  satellite ← as_str satellite;
  if contains satellite "LANDSAT" || String.eqb satellite "SENTINEL-2"
  then
    if eq_str quality_band band
    then nd ← mask_nodata activity_mask; Ok (ne_zero nd)
    else Ok false
  else Ok false.

(** The choice of [source_nodata] for one opened asset. *)
Definition choose_source_nodata (a : activity) (satellite : string)
    (is_quality : bool) (nodata : Z) (src : source) (source_nodata : Z)
    : result Z :=
  match src_nodata src with
  | Some v => Ok v
  | None =>
      match a !! "source_nodata" with
      | Some v => as_int v
      | None =>
          if contains satellite "LANDSAT" && negb is_quality
          then Ok (if String.eqb (src_dtype src) "int16" then nodata else 0)
          else if contains satellite "CBERS" && negb is_quality
          then Ok nodata
          else Ok source_nodata
      end
  end.

(** The state of the loop over [activity['links']]. *)
Record merging : Type := Merging {
  m_source_nodata : Z;
  m_raster_merge : list Z;
  m_raster_mask : list Z;
  m_template : option profile
}.

Definition merge_link (w : world) (a : activity) (satellite : string)
    (is_quality overwrite : bool) (shape : bool) (nodata : Z)
    (resampling : string) (numlin numcol : Z) (st : merging) (url : pyval)
    : result merging :=
  url ← as_str url;
  src ← rasterio_open w url;
  source_nodata ← choose_source_nodata a satellite is_quality nodata src
                     (m_source_nodata st);
  raster ← (if shape then Ok (src_band src)
            else reproject w src source_nodata nodata resampling
                           numlin numcol);
  '(raster_merge, raster_mask) ←
    compose overwrite nodata (m_raster_merge st) (m_raster_mask st) raster;
  let template :=
    match m_template st with
    | Some t => Some t
    | None =>
        Some (if is_quality
              then Profile "GTiff" (src_dtype src) (Some source_nodata)
                           numcol numlin
              else Profile "GTiff" "int16" (Some nodata) numcol numlin)
    end in
  Ok (Merging source_nodata raster_merge raster_mask template).

Fixpoint merge_links (w : world) (a : activity) (satellite : string)
    (is_quality overwrite : bool) (shape : bool) (nodata : Z)
    (resampling : string) (numlin numcol : Z) (st : merging)
    (links : list pyval) : result merging :=
  match links with
  | [] => Ok st
  | url :: rest =>
      st ← merge_link w a satellite is_quality overwrite shape nodata
             resampling numlin numcol st url;
      merge_links w a satellite is_quality overwrite shape nodata resampling
                  numlin numcol st rest
  end.

(** Modelled from the spec: [create_cog_in_s3], the COG writer, which writes
    the raster under the key with the given profile and the optional explicit
    [nodata]. *)
Definition create_cog_in_s3 (svc : services) (template : option profile)
    (key : string) (raster : list Z) (nodata : option Z) : result services :=
  match template with
  | Some t =>
      Ok (with_s3 <[key := Cog (prof_nodata t) (prof_dtype t) raster nodata]>
                  svc)
  | None => Raise (TypeError "argument after ** must be a mapping")
  end.

(** The target grid: the shape when one is given, else the tile extent
    divided by the resolution, which also gives the new resolutions. *)
Definition target_grid (a : activity)
    : result (Z * Z * option (spec_float * spec_float)) :=
  resx ← getitem a "resx" ≫= float;
  resy ← getitem a "resy" ≫= float;
  _ ← getitem a "xmin" ≫= float;
  _ ← getitem a "ymax" ≫= float;
  dist_x ← getitem a "dist_x" ≫= float;
  dist_y ← getitem a "dist_y" ≫= float;
  let shape := default VNone (a !! "shape") in
  if truthy shape
  then
    shape ← as_list shape;
    num_pixel_x ← of_option (shape !! 0%nat) (IndexError "list index out of range")
                    ≫= as_int;
    num_pixel_y ← of_option (shape !! 1%nat) (IndexError "list index out of range")
                    ≫= as_int;
    Ok (num_pixel_x, num_pixel_y, None)
  else
    num_pixel_x ← truediv dist_x resx ≫= round;
    num_pixel_y ← truediv dist_y resy ≫= round;
    new_res_x ← float_of_int num_pixel_x ≫= truediv dist_x;
    new_res_y ← float_of_int num_pixel_y ≫= truediv dist_y;
    Ok (num_pixel_x, num_pixel_y, Some (new_res_x, new_res_y)).

(** The worker's own state is the services object and the activity it
    changes in place; both keep what was done to them when an exception is
    raised. *)
Definition run (A : Type) : Type :=
  services * activity → result A * (services * activity).

#[global] Instance run_ret : MRet run := λ A a st, (Ok a, st).
#[global] Instance run_bind : MBind run := λ A B f m st,
  match m st with
  | (Ok a, st') => f a st'
  | (Raise e, st') => (Raise e, st')
  end.

Definition lift {A} (r : result A) : run A := λ st, (r, st).

Definition the_activity : run activity := λ st, (Ok st.2, st).

Definition the_services : run services := λ st, (Ok st.1, st).

(** [activity[k] = v] *)
Definition setitem (k : string) (v : pyval) : run unit :=
  λ st, (Ok (), (st.1, <[k := v]> st.2)).

Definition on_services (f : services → result services) : run unit :=
  λ st, match f st.1 with
        | Ok svc => (Ok (), (svc, st.2))
        | Raise e => (Raise e, st)
        end.

(** [try: body except Exception as e: handler] *)
Definition try_except {A} (body : run A) (handler : exn → run A) : run A :=
  λ st, match body st with
        | (Raise e, st') => handler e st'
        | done => done
        end.

(** [services.put_item_kinesis(activity)] *)
Definition put_item : run unit :=
  a ← the_activity; on_services (λ svc, put_item_kinesis svc a).

(** The resampling, the nodata and the arrays of the pass: the quality band
    takes the mask's nodata and fills with it, the other bands fill with the
    cube's. *)
Definition allocate (is_quality : bool) (activity_mask : pyval)
    (nodata numlin numcol : Z) : result (string * Z * merging) :=
  if is_quality
  then
    nodata ← mask_nodata activity_mask ≫= as_int;
    raster_merge ← full numlin numcol nodata;
    raster_mask ← full numlin numcol 1;
    Ok ("nearest", nodata, Merging nodata raster_merge raster_mask None)
  else
    raster_merge ← full numlin numcol nodata;
    Ok ("bilinear", nodata, Merging 0 raster_merge [] None).

(** The statistics of the quality band and the writing of the merged
    raster; the answer is the efficacy and the cloud ratio, printed. *)
Definition write_merged (w : world) (key : string) (is_quality : bool)
    (activity_mask : pyval) (st : merging) : run (string * string) :=
  if is_quality
  then
    '(raster_merge, efficacy, cloudratio) ←
      lift (getMask w (m_raster_merge st) activity_mask);
    template ← lift (of_option (m_template st)
      (AttributeError "'NoneType' object has no attribute 'update'"));
    let template :=
      Profile (prof_driver template) "uint8" (prof_nodata template)
              (prof_width template) (prof_height template) in
    nodata ← lift (mask_nodata activity_mask ≫= as_int);
    on_services (λ svc, create_cog_in_s3 svc (Some template) key
                          raster_merge (Some nodata));;
    mret (str_float w efficacy, str_float w cloudratio)
  else
    on_services (λ svc, create_cog_in_s3 svc (m_template st) key
                          (m_raster_merge st) None);;
    mret (str_int 0, str_int 100).

(** The warp and merge of the [try] block, after the cache test. *)
Definition warp_and_merge (w : world) (key : string) : run unit :=
  a ← the_activity;
  '(num_pixel_x, num_pixel_y, new_res) ← lift (target_grid a);
  nodata ← lift (getitem a "nodata" ≫= int);
  band ← lift (get_str a "band");
  let shape := truthy (default VNone (a !! "shape")) in
  let numcol := num_pixel_x in
  let numlin := num_pixel_y in
  let satellite := default VNone (a !! "satellite") in
  activity_mask ← lift (getitem a "mask");
  quality_band ← lift (getitem a "quality_band");
  fmask ← lift (is_sentinel_landsat_quality_fmask satellite band quality_band
                  activity_mask);
  satellite ← lift (as_str satellite);
  let is_quality := eq_str quality_band band in
  '(resampling, nodata, st) ←
    lift (allocate is_quality activity_mask nodata numlin numcol);
  links ← lift (getitem a "links" ≫= as_list);
  st ← lift (merge_links w a satellite is_quality (negb is_quality || fmask)
               shape nodata resampling numlin numcol st links);
  '(efficacy, cloudratio) ← write_merged w key is_quality activity_mask st;
  svc ← the_services;
  setitem "myend" (VStr (now svc));;
  setitem "efficacy" (VStr efficacy);;
  setitem "cloudratio" (VStr cloudratio);;
  '(new_res_x, _) ← lift (of_option new_res (UnboundLocalError "new_res_x"));
  setitem "new_resolution_x" (VStr (str_float w new_res_x));;
  '(_, new_res_y) ← lift (of_option new_res (UnboundLocalError "new_res_y"));
  setitem "new_resolution_y" (VStr (str_float w new_res_y));;
  put_item.

(** The cached path: the target exists and the merge is not forced. *)
Definition reuse_merged (w : world) (prefix key : string)
    (activity_mask : pyval) : run unit :=
  src ← lift (rasterio_open w (prefix +:+ key));
  let values := src_band src in
  a ← the_activity;
  band ← lift (getitem a "band");
  quality_band ← lift (getitem a "quality_band");
  '(efficacy, cloudratio) ←
    (if eq_scalar band quality_band
     then '(e, c) ← lift (qa_statistics w values activity_mask);
          mret (str_float w e, str_float w c)
     else mret (str_int 0, str_int 100));
  svc ← the_services;
  setitem "myend" (VStr (now svc));;
  setitem "efficacy" (VStr efficacy);;
  setitem "cloudratio" (VStr cloudratio);;
  put_item.

Definition merge_warped (w : world) : run unit :=
  a ← the_activity;
  key ← lift (get_str a "ARDfile");
  bucket_name ← lift (get_str a "bucket_name");
  let prefix := get_s3_prefix w bucket_name in
  svc ← the_services;
  setitem "mystart" (VStr (now svc));;
  setitem "mystatus" (VStr "DONE");;
  activity_mask ← lift (getitem a "mask");
  let force := default VNone (a !! "force") in
  try_except
    (if negb (truthy force) && s3_file_exists svc key
     then
       try_except
         (reuse_merged w prefix key activity_mask)
         (λ _, on_services (λ svc, Ok (delete_file_S3 svc key));;
               warp_and_merge w key)
     else warp_and_merge w key)
    (λ e,
       setitem "mystatus" (VStr "ERROR");;
       setitem "errors" (VDict [("step", VStr "merge");
                                ("message", VStr (exn_message e))]);;
       svc ← the_services;
       setitem "myend" (VStr (now svc));;
       put_item).

End Merge.

(** ** [maestro.py]: the BLEND worker *)

Module BlendWorker.
Import Py Services Blend BlendOrder Merge.

(** [datetime.strptime(s, '%Y-%m-%d').timetuple().tm_yday] on ISO dates. *)
Definition all_digits (s : string) : option Z :=
  let '(v, len, rest) := take_digits s 0 0 in
  match len, rest with
  | S _, EmptyString => Some v
  | _, _ => None
  end.

Definition is_leap (y : Z) : bool :=
  (y mod 4 =? 0) && (negb (y mod 100 =? 0) || (y mod 400 =? 0)).

Definition days_in_month (y m : Z) : Z :=
  if m =? 2 then (if is_leap y then 29 else 28)
  else if (m =? 4) || (m =? 6) || (m =? 9) || (m =? 11) then 30
  else 31.

Fixpoint days_before (y : Z) (m : nat) : Z :=
  match m with
  | O => 0
  | S m' => days_before y m' + days_in_month y (Z.of_nat m)
  end.

Definition tm_yday (s : string) : result Z :=
  let bad := ValueError "time data does not match format '%Y-%m-%d'" in
  match split "-" s with
  | [ys; ms; ds] =>
      y ← of_option (all_digits ys) bad;
      m ← of_option (all_digits ms) bad;
      d ← of_option (all_digits ds) bad;
      if (String.length ys =? 4)%nat && (String.length ms <=? 2)%nat
         && (String.length ds <=? 2)%nat
         && (1 <=? y) && (1 <=? m) && (m <=? 12)
         && (1 <=? d) && (d <=? days_in_month y m)
      then Ok (days_before y (Z.to_nat (m - 1)) + d)
      else Raise bad
  | _ => Raise bad
  end.

(** [numpy.isin(v, values)] *)
Definition isin (v : Z) (values : list Z) : bool := bool_decide (v ∈ values).

(** The four assignments that reclassify the quality window: not clear and
    saturated values to 0, pixels without data to 0, then clear values
    to 1. *)
Definition reclassify (clear_values not_clear_values saturated_values : list Z)
    (nodata : Z) (mask raster : list Z) : list Z :=
  let mask := (λ m, if isin m not_clear_values then 0 else m) <$> mask in
  let mask := (λ m, if isin m saturated_values then 0 else m) <$> mask in
  let mask := zip_with (λ m r, if r =? nodata then 0 else m) mask raster in
  (λ m, if isin m clear_values then 1 else m) <$> mask.

(** [mask.astype(numpy.bool_)] *)
Definition astype_bool (mask : list Z) : list bool :=
  (λ m, negb (m =? 0)) <$> mask.

(** [numpy.where(b)] on a ravelled window: the positions that hold, in
    ascending order. *)
Definition where_ (b : list bool) : list nat :=
  List.filter (λ i, nth i b false) (seq 0 (length b)).

(** [numpy.intersect1d(a, b)] on ascending positions. *)
Definition intersect1d (a b : list nat) : list nat :=
  List.filter (λ i, bool_decide (i ∈ b)) a.

(** [dst[idx] = src[idx]] and [dst[idx] = v] *)
Definition put_at (idx : list nat) (src dst : list Z) : list Z :=
  foldl (λ d i, <[i := nth i src 0]> d) dst idx.

Definition fill_at (idx : list nat) (v : Z) (dst : list Z) : list Z :=
  foldl (λ d i, <[i := v]> d) dst idx.

(** The cast to [numpy.int16], the dtype of the masked stack. *)
Definition int16 (z : Z) : Z := (z + 32768) mod 65536 - 32768.

(** What the pass builds, from the activity. *)
Record pass : Type := Pass {
  nodata_of : Z;
  clear_values : list Z;
  not_clear_values : list Z;
  saturated_values : list Z;
  build_total_observation : bool;
  build_provenance : bool
}.

(** The arrays of one block window. *)
Record window : Type := Window {
  stackMA : list (list (option Z));
  notdonemask : list bool;
  stack_raster : list Z;
  provenance_array : list Z;
  stack_total_observation : list Z
}.

(** The body of [for order in range(numscenes)] on one window: [raster] and
    [mask] are the band and quality windows of the scene, [date] its key cut
    to ten characters. *)
Definition blend_scene (p : pass) (win : window) (order : nat) (date : string)
    (raster mask : list Z) : result window :=
  let n := length (stack_raster win) in
  if negb (bool_decide (length raster = n ∧ length mask = n))
  then Raise (IndexError "boolean index did not match indexed array")
  else
    let nodata := nodata_of p in
    let mask := reclassify (clear_values p) (not_clear_values p)
                           (saturated_values p) nodata mask raster in
    let bmask := negb <$> astype_bool mask in
    let stackMA :=
      <[order := zip_with (λ (b : bool) r, if b then None else Some (int16 r))
                          bmask raster]> (stackMA win) in
    let total :=
      if build_total_observation p
      then zip_with (λ t r, (t + (if r =? nodata then 0 else 1)) mod 256)
                    (stack_total_observation win) raster
      else stack_total_observation win in
    day_of_year ← (if build_provenance p then tm_yday date else Ok 0);
    let stack_raster_nodata_pos :=
      where_ ((λ v, v =? nodata) <$> stack_raster win) in
    let raster_data_pos := where_ ((λ v, negb (v =? nodata)) <$> raster) in
    let intersect_ravel :=
      intersect1d stack_raster_nodata_pos raster_data_pos in
    let stack :=
      if (0 <? length intersect_ravel)%nat
      then put_at intersect_ravel raster (stack_raster win)
      else stack_raster win in
    let prov :=
      if (0 <? length intersect_ravel)%nat && build_provenance p
      then fill_at intersect_ravel day_of_year (provenance_array win)
      else provenance_array win in
    let todomask := zip_with andb (notdonemask win) (negb <$> bmask) in
    let clear_not_done_pixels :=
      where_ (zip_with andb todomask (astype_bool mask)) in
    let stack := put_at clear_not_done_pixels raster stack in
    let prov :=
      if build_provenance p
      then fill_at clear_not_done_pixels day_of_year prov
      else prov in
    let notdonemask := zip_with andb (notdonemask win) bmask in
    Ok (Window stackMA notdonemask stack prov total).

(** One scene of the ordered lists: its date and its two windows. *)
Fixpoint blend_scenes (p : pass) (win : window) (order : nat)
    (scenes : list (string * list Z * list Z)) : result window :=
  match scenes with
  | [] => Ok win
  | (date, raster, mask) :: rest =>
      win ← blend_scene p win order date raster mask;
      blend_scenes p win (S order) rest
  end.

(** A window before its first scene. *)
Definition fresh_window (numscenes : nat) (stack prov total : list Z)
    : window :=
  let n := length stack in
  Window (replicate numscenes (replicate n (Some 0))) (replicate n true)
         stack prov total.

(** [numpy.ma.median(stackMA, axis=0).data] at one pixel, cast back to the
    integer dtype: the middle of the sorted unmasked values, or the mean of
    the two middle ones cut towards zero. *)
Fixpoint insert_sorted (x : Z) (l : list Z) : list Z :=
  match l with
  | [] => [x]
  | y :: l' => if x <=? y then x :: l else y :: insert_sorted x l'
  end.

Definition median_pixel (values : list (option Z)) : Z :=
  let vs := foldr insert_sorted [] (omap id values) in
  let n := length vs in
  if Nat.even n
  then Z.quot (nth (n / 2 - 1) vs 0 + nth (n / 2) vs 0) 2
  else nth (n / 2) vs 0.

(** The values of all scenes at pixel [i] of a window. *)
Definition pixel_stack (stackMA : list (list (option Z))) (i : nat)
    : list (option Z) :=
  (λ row, nth i row None) <$> stackMA.

(** [median[notdonemask] = nodata] after the median along the scenes. *)
Definition median_window (nodata : Z) (win : window) : list Z :=
  imap (λ i (notdone : bool),
          if notdone then nodata else median_pixel (pixel_stack (stackMA win) i))
       (notdonemask win).

(** [numpy.ma.count(stackMA, axis=0)] as [uint8]. *)
Definition count_window (win : window) : list Z :=
  imap (λ i (_ : bool),
          Z.of_nat (length (omap id (pixel_stack (stackMA win) i))) mod 256)
       (notdonemask win).

(** [os.path.join(a, b)] *)
Definition path_join (a b : string) : string :=
  if startswith b "/" then b
  else if String.eqb a "" then b
  else if String.eqb (substring (String.length a - 1) 1 a) "/" then a +:+ b
  else a +:+ "/" +:+ b.

Fixpoint int_list (l : list pyval) : result (list Z) :=
  match l with
  | [] => Ok []
  | v :: rest => n ← as_int v; ns ← int_list rest; Ok (n :: ns)
  end.

Definition mask_values (activity_mask : pyval) (k : string)
    : result (list Z) :=
  d ← as_dict activity_mask;
  values ← dict_getitem d k ≫= as_list;
  int_list values.

(** ['STK' in activity['functions']] *)
Definition has_function (functions : list pyval) (f : string) : bool :=
  existsb (λ v, eq_str v f) functions.

(** The fill value of the pass: the cube's nodata, or the mask's for the
    quality band. *)
Definition blend_nodata (a : activity) : result Z :=
  band ← getitem a "band";
  activity_mask ← getitem a "mask";
  nodata ← int (default (VInt (-9999)) (a !! "nodata"));
  quality_band ← getitem a "quality_band";
  if eq_scalar band quality_band
  then mask_nodata activity_mask ≫= as_int
  else Ok nodata.

(** [band not in activity['scenes'][date_ref]['ARDfiles']] for some scene *)
Fixpoint band_missing (band : string) (scenes : list (string * pyval))
    : result bool :=
  match scenes with
  | [] => Ok false
  | (_, scene) :: rest =>
      d ← as_dict scene;
      ardfiles ← dict_getitem d "ARDfiles" ≫= as_dict;
      match dict_get ardfiles band with
      | None => Ok true
      | Some _ => band_missing band rest
      end
  end.

Definition scene_file (prefix dirname : string) (scene : pyval) (band : pyval)
    : result string :=
  d ← as_dict scene;
  date ← dict_getitem d "date" ≫= as_str;
  ardfiles ← dict_getitem d "ARDfiles" ≫= as_dict;
  band ← as_str band;
  file ← dict_getitem ardfiles band ≫= as_str;
  Ok (path_join (path_join (prefix +:+ dirname) date) file).

Definition store_error (message : string) : run unit :=
  setitem "mystatus" (VStr "ERROR");;
  setitem "errors" (VDict [("step", VStr "blend"); ("message", VStr message)]);;
  put_item.

(** The loop that opens the quality and band files of the scenes in
    blending order; [None] is the early [return] after a band file that
    does not open. *)
Fixpoint open_scenes (w : world) (prefix dirname : string)
    (scenes : list (string * pyval)) (quality_band band : pyval)
    (order : list (spec_float * string))
    : run (option (list (string * source * source))) :=
  match order with
  | [] => mret (Some [])
  | (_, key) :: rest =>
      scene ← lift (dict_getitem scenes key);
      filename ← lift (scene_file prefix dirname scene quality_band);
      msrc ← lift (rasterio_open w filename);
      filename ← lift (scene_file prefix dirname scene band);
      match rasterio_open w filename with
      | Raise _ =>
          store_error ("ERROR " +:+ basename filename);; mret None
      | Ok ssrc =>
          opened ← open_scenes w prefix dirname scenes quality_band band rest;
          mret ((λ l, (substring 0 10 key, ssrc, msrc) :: l) <$> opened)
      end
  end.

(** [ssrc.read(1, window=window)] and [msrc.read(1, window=window)] for
    every scene, at window [k]. *)
Fixpoint window_reads (k : nat) (opened : list (string * source * source))
    : result (list (string * list Z * list Z)) :=
  match opened with
  | [] => Ok []
  | (date, ssrc, msrc) :: rest =>
      raster ← of_option (src_windows ssrc !! k) (IOError "window");
      mask ← of_option (src_windows msrc !! k) (IOError "window");
      reads ← window_reads k rest;
      Ok ((date, raster, mask) :: reads)
  end.

(** [for _, window in tilelist]: every window starts from the fill values
    of the output arrays. *)
Fixpoint blend_windows (p : pass) (opened : list (string * source * source))
    (k : nat) (tilelist : list (list Z)) : result (list window) :=
  match tilelist with
  | [] => Ok []
  | first :: rest =>
      let n := length first in
      reads ← window_reads k opened;
      win ← blend_scenes p
               (fresh_window (length opened) (replicate n (nodata_of p))
                             (replicate n (-1)) (replicate n 0))
               0 reads;
      wins ← blend_windows p opened (S k) rest;
      Ok (win :: wins)
  end.

(** ['_'.join(activity['{}file'.format(func)].split('_')[:-1]) + suffix] *)
Definition internal_key (a : activity) (func suffix : string)
    : result string :=
  file ← get_str a (func +:+ "file");
  Ok (join "_" (but_last (split "_" file)) +:+ suffix).

(** The uploads of an internal band, one per function other than IDT. *)
Fixpoint upload_internal (a : activity) (functions : list pyval)
    (suffix dtype : string) (data : list Z) : run unit :=
  match functions with
  | [] => mret ()
  | func :: rest =>
      (if eq_str func "IDT" then mret ()
       else
         f ← lift (as_str func);
         key ← lift (internal_key a f suffix);
         on_services (λ svc, Ok (with_s3 <[key := Cog None dtype data None]>
                                          svc)));;
      upload_internal a rest suffix dtype data
  end.

(** The writing of a composite of the band: only for a function of the
    cube, and not in the pass of an internal band. *)
Definition write_composite (a : activity) (functions : list pyval)
    (internal_band : pyval) (func : string) (profile : profile)
    (raster : list Z) (nodata : Z) : run unit :=
  if has_function functions func && negb (truthy internal_band)
  then
    key ← lift (get_str a (func +:+ "file"));
    on_services (λ svc, create_cog_in_s3 svc (Some profile) key raster
                                         (Some nodata))
  else mret ().

Definition blend_body (w : world) (a : activity) (prefix : string)
    (band : pyval) (nodata : Z) : run unit :=
  let internal_band := default VNone (a !! "internal_band") in
  activity_mask ← lift (getitem a "mask");
  scenes ← lift (getitem a "scenes" ≫= as_dict);
  dirname ← lift (get_str a "dirname");
  quality_band ← lift (getitem a "quality_band");
  key0 ← lift (of_option (head (dict_keys scenes))
                 (IndexError "list index out of range"));
  scene0 ← lift (dict_getitem scenes key0);
  filename ← lift (scene_file prefix dirname scene0 band);
  src ← lift (rasterio_open w filename);
  let profile := Profile "GTiff" (src_dtype src) (src_nodata src)
                         (src_width src) (src_height src) in
  let tilelist := src_windows src in
  order ← lift (blend_order scenes);
  opened ← open_scenes w prefix dirname scenes quality_band band order;
  match opened with
  | None => mret ()
  | Some opened =>
      clear ← lift (mask_values activity_mask "clear_data");
      not_clear ← lift (mask_values activity_mask "not_clear_data");
      saturated ← lift (mask_values activity_mask "saturated_data");
      functions ← lift (getitem a "functions" ≫= as_list);
      let p := Pass nodata clear not_clear saturated
                    (eq_str internal_band "TOTALOB")
                    (eq_str internal_band "PROVENANCE") in
      wins ← lift (blend_windows p opened 0 tilelist);
      let stack := concat (stack_raster <$> wins) in
      (if eq_scalar quality_band band
       then
         '(efficacy, cloud_cover) ← lift (qa_statistics w stack activity_mask);
         setitem "efficacy" (VStr (str_float w efficacy));;
         setitem "cloudratio" (VStr (str_float w cloud_cover))
       else mret ());;
      (if eq_str internal_band "CLEAROB"
       then upload_internal a functions "_CLEAROB.tif" "uint8"
                            (concat (count_window <$> wins))
       else mret ());;
      (if eq_str internal_band "PROVENANCE" && has_function functions "STK"
       then
         key ← lift (internal_key a "STK" "_PROVENANCE.tif");
         on_services (λ svc,
           create_cog_in_s3 svc
             (Some (Profile "GTiff" "int16" None (src_width src)
                            (src_height src)))
             key (concat (provenance_array <$> wins)) None)
       else mret ());;
      (if eq_str internal_band "TOTALOB"
       then upload_internal a functions "_TOTALOB.tif" "uint8"
                            (concat (stack_total_observation <$> wins))
       else mret ());;
      write_composite a functions internal_band "STK" profile stack nodata;;
      write_composite a functions internal_band "MED" profile
                      (concat (median_window nodata <$> wins)) nodata;;
      svc ← the_services;
      setitem "myend" (VStr (now svc));;
      setitem "mystatus" (VStr "DONE");;
      put_item
  end.

Definition blend (w : world) : run unit :=
  svc ← the_services;
  setitem "mystart" (VStr (now svc));;
  a ← the_activity;
  band ← lift (getitem a "band");
  let internal_band := default VNone (a !! "internal_band") in
  setitem "sk" (if truthy internal_band then internal_band else band);;
  a ← the_activity;
  bucket_name ← lift (get_str a "bucket_name");
  let prefix := get_s3_prefix w bucket_name in
  nodata ← lift (blend_nodata a);
  scenes ← lift (getitem a "scenes" ≫= as_dict);
  band_name ← lift (as_str band);
  missing ← lift (band_missing band_name scenes);
  if missing : bool
  then (store_error ("ERROR band " +:+ band_name) : run unit)
  else
    try_except
      (blend_body w a prefix band nodata)
      (λ e,
         setitem "mystatus" (VStr "ERROR");;
         setitem "errors" (VDict [("step", VStr "blend");
                                  ("message", VStr (exn_message e))]);;
         svc ← the_services;
         setitem "myend" (VStr (now svc));;
         put_item).

End BlendWorker.

(** ** [utils/scene_parser.py]: the Sentinel-2 parser and the class *)

Module Sentinel.
Import SceneParser Py.

(** What one character of the pattern can be: a literal, one of a set
    ([[AB]], [[0-2]]), or a class; all under [re.IGNORECASE]. *)
Inductive piece : Type :=
| One (c : ascii)
| Among (chars : list ascii)
| Class (k : cls).

Definition piece_matches (x : piece) (c : ascii) : bool :=
  match x with
  | One p => lit_matches p c
  | Among chars => existsb (λ p, lit_matches p c) chars
  | Class k => cls_matches k c
  end.

(** Anchors, single characters, and named groups made of a fixed sequence
    of single characters. *)
Inductive part : Type :=
| Start
| End_
| Out (x : piece)
| Named (name : string) (body : list piece).

Fixpoint take_pieces (body : list piece) (s : string)
    : option (string * string) :=
  match body with
  | [] => Some (EmptyString, s)
  | x :: body' =>
      match s with
      | EmptyString => None
      | String c s' =>
          if piece_matches x c
          then '(g, rest) ← take_pieces body' s'; Some (String c g, rest)
          else None
      end
  end.

Fixpoint match_parts (p : list part) (start : bool) (s : string)
    (groups : gmap string string) : option (gmap string string) :=
  match p with
  | [] => Some groups
  | Start :: p' => if start then match_parts p' start s groups else None
  | End_ :: p' => if at_eol s then match_parts p' start s groups else None
  | Out x :: p' =>
      match s with
      | String c s' =>
          if piece_matches x c then match_parts p' false s' groups else None
      | EmptyString => None
      end
  | Named name body :: p' =>
      '(g, rest) ← take_pieces body s;
      match_parts p' (match body with [] => start | _ => false end) rest
                  (<[name := g]> groups)
  end.

Definition digits (n : nat) : list piece := replicate n (Class Digit).

Definition sentinel_2_pattern : list part :=
  [ Start; Out (One "S");
    Named "sensor" [Class Word];
    Named "satellite" [Among ["A"; "B"]%char];
    Out (One "_");
    Out (One "M"); Out (One "S"); Out (One "I");
    Named "processingLevel"
          [One "L"; Among ["0"; "1"; "2"]%char; Among ["A"; "B"; "C"]%char];
    Out (One "_");
    Named "acquisitionYear" (digits 4);
    Named "acquisitionMonth" (digits 2);
    Named "acquisitionDay" (digits 2);
    Out (One "T");
    Named "acquisitionHMS" (digits 6);
    Out (One "_");
    Out (One "N");
    Named "baseline_number" (digits 4);
    Out (One "_");
    Out (One "R");
    Named "relative_orbit" (digits 3);
    Out (One "_"); Out (One "T");
    Named "utm" (digits 2);
    Named "lat" [Class Word];
    Named "sq" [Class Word; Class Word];
    Out (One "_");
    Named "stopDateTime" (digits 8 ++ [One "T"] ++ digits 6);
    End_ ].

(** [int(s)] on a string of ASCII digits, which is what a group
    [[0-9]{2}] holds; the other strings [int] accepts (a sign, blanks,
    underscores) are answered as invalid here. *)
Definition int_str (s : string) : result Z :=
  let '(v, len, rest) := take_digits s 0 0 in
  match len, rest with
  | S _, EmptyString => Ok v
  | _, _ => Raise (ValueError "invalid literal for int() with base 10")
  end.

(** [dict(scene_id=scene_id, **meta, **args)] on values of mixed type.
    The code never looks at the values of [args]; they are strings here,
    as in [landsat]. *)
Definition kwargs_distinct (meta args : gmap string pyval) : Prop :=
  meta !! "scene_id" = None ∧
  (dom args : gset string) ## ({[ "scene_id" ]} ∪ dom meta).

#[global] Instance kwargs_distinct_dec meta args :
  Decision (kwargs_distinct meta args).
Proof. unfold kwargs_distinct. apply _. Defined.

Definition dict_kwargs (scene_id : string) (meta args : gmap string pyval)
    : result (gmap string pyval) :=
  if bool_decide (kwargs_distinct meta args)
  then Ok (<["scene_id" := VStr scene_id]> meta ∪ args)
  else Raise (TypeError "dict() got multiple values for keyword argument").

Definition sentinel_2 (scene_id : string) (args : gmap string string)
    : result (gmap string pyval) :=
  meta ← of_option (match_parts sentinel_2_pattern true scene_id ∅)
            (AttributeError "'NoneType' object has no attribute 'groupdict'");
  month ← of_option (meta !! "acquisitionMonth") (KeyError "acquisitionMonth")
            ≫= int_str;
  day ← of_option (meta !! "acquisitionDay") (KeyError "acquisitionDay")
          ≫= int_str;
  let meta :=
    <["acquisitionDayInteger" := VInt day]>
      (<["acquisitionMonthInteger" := VInt month]> (VStr <$> meta)) in
  dict_kwargs scene_id meta (VStr <$> args).

(** [class SceneParser]: the parser is chosen when the object is made. *)
Record scene_parser : Type := SceneParser_ {
  parser : string → gmap string string → result (gmap string pyval)
}.

Definition init (group : string) : result scene_parser :=
  if String.eqb group "sentinel_2" then Ok (SceneParser_ sentinel_2)
  else if String.eqb group "landsat"
  then Ok (SceneParser_
             (λ scene_id args,
                (λ record : gmap string string, VStr <$> record)
                  <$> landsat scene_id args))
  else Raise (KeyError group).

Definition parser_sceneid (self : scene_parser) (scene_id : string)
    (args : gmap string string) : result (gmap string pyval) :=
  parser self scene_id args.

End Sentinel.

(** ** [maestro.py]: [next_blend], from the merges of a tile and period to
       the blend activities of its bands *)

Module NextBlend.
Import Py Services Maestro Blend.

(** The keys the blend activity takes over from the merge activity. *)
Definition copied_keys : list string :=
  [ "datasets"; "satellite"; "bands"; "quicklook"; "srs"; "functions";
    "bands_ids"; "tileid"; "start"; "end"; "dirname"; "nodata";
    "bucket_name"; "quality_band"; "internal_bands"; "force"; "version";
    "datacube"; "irregular_datacube"; "mask"; "bands_expressions";
    "indexes_only_regular_cube" ].

(** [blendactivity[key] = mergeactivity.get(key, '')] for every key. *)
Definition copy_keys (mergeactivity blendactivity : activity) : activity :=
  foldl (λ b key, <[key := default (VStr "") (mergeactivity !! key)]> b)
        blendactivity copied_keys.

(** [len(v)], [a + b], [for x in v], [x in v] and [v[0]] on the values a
    list of band names can be: a list, or the string [''] that [get] gives
    for a missing key.  The names compared by [in] are scalars. *)
Definition len (v : pyval) : result Z :=
  match v with
  | VStr s => Ok (Z.of_nat (String.length s))
  | VList l => Ok (Z.of_nat (length l))
  | VDict d => Ok (Z.of_nat (length d))
  | _ => Raise (TypeError "object has no len()")
  end.

Definition add (a b : pyval) : result pyval :=
  match a, b with
  | VList l, VList l' => Ok (VList (l ++ l'))
  | VStr s, VStr s' => Ok (VStr (s +:+ s'))
  | _, _ => Raise (TypeError "unsupported operand type(s) for +")
  end.

Fixpoint characters (s : string) : list pyval :=
  match s with
  | EmptyString => []
  | String c s' => VStr (String c EmptyString) :: characters s'
  end.

Definition elements (v : pyval) : result (list pyval) :=
  match v with
  | VList l => Ok l
  | VStr s => Ok (characters s)
  | VDict d => Ok (VStr <$> dict_keys d)
  | _ => Raise (TypeError "object is not iterable")
  end.

Definition isin (x v : pyval) : result bool :=
  match v with
  | VList l => Ok (existsb (eq_scalar x) l)
  | VStr s =>
      match x with
      | VStr t => Ok (contains s t)
      | _ => Raise (TypeError "'in <string>' requires string as left operand")
      end
  | VDict d =>
      match x with
      | VStr t => Ok (bool_decide (is_Some (dict_get d t)))
      | _ => Ok false
      end
  | _ => Raise (TypeError "argument is not iterable")
  end.

Definition first (v : pyval) : result pyval :=
  match v with
  | VList (x :: _) => Ok x
  | VList [] => Raise (IndexError "list index out of range")
  | VStr (String c _) => Ok (VStr (String c EmptyString))
  | VStr EmptyString => Raise (IndexError "string index out of range")
  | VDict _ => Raise (KeyError "0")
  | _ => Raise (TypeError "object is not subscriptable")
  end.

(** The fields of an activity that has not run. *)
Definition not_run (svc : services) (blendactivity : activity) : activity :=
  <["mylaunch" := VStr (now svc)]>
  (<["cloudratio" := VStr "100"]>
  (<["efficacy" := VStr "0"]>
  (<["myend" := VStr "EEEE-EE-EE"]>
  (<["mystart" := VStr "SSSS-SS-SS"]> blendactivity)))).

(** The loop over the functions: are the composites of a finished blend
    still in object storage?  The functions are names. *)
Fixpoint files_exist (svc : services) (mergeactivity blendactivity : activity)
    (internal_band : pyval) (functions : list pyval) (exists_ : bool)
    : result bool :=
  match functions with
  | [] => Ok exists_
  | func :: rest =>
      if eq_str func "IDT"
         || (eq_str func "MED" && eq_str internal_band "PROVENANCE")
      then files_exist svc mergeactivity blendactivity internal_band rest
                       exists_
      else
        _ ← getitem mergeactivity "bucket_name";
        name ← as_str func;
        key ← get_str blendactivity (name +:+ "file");
        files_exist svc mergeactivity blendactivity internal_band rest
                    (if negb (s3_file_exists svc key) then false else exists_)
  end.

(** The last loop of an iteration: the band's files leave the scenes,
    unless the band is the quality band. *)
Fixpoint leave_room_scenes (mergeactivity : activity) (band : string)
    (date_refs : list string) (scenes : list (string * pyval))
    : result (list (string * pyval)) :=
  match date_refs with
  | [] => Ok scenes
  | date_ref :: rest =>
      scene ← dict_getitem scenes date_ref ≫= as_dict;
      ardfiles ← dict_getitem scene "ARDfiles" ≫= as_dict;
      remove ←
        (if bool_decide (is_Some (dict_get ardfiles band))
         then quality_band ← getitem mergeactivity "quality_band";
              Ok (negb (eq_str quality_band band))
         else Ok false);
      let scenes :=
        if (remove : bool)
        then dict_set scenes date_ref
               (VDict (dict_set scene "ARDfiles"
                                (VDict (dict_del ardfiles band))))
        else scenes in
      leave_room_scenes mergeactivity band rest scenes
  end.

Definition leave_room (mergeactivity blendactivity : activity) (band : string)
    : result activity :=
  scenes ← getitem blendactivity "scenes" ≫= as_dict;
  scenes ← leave_room_scenes mergeactivity band (dict_keys scenes) scenes;
  Ok (<["scenes" := VDict scenes]> blendactivity).

(** The blend activity of a band goes on the stream and on the queue. *)
Definition launch (svc : services) (mergeactivity blendactivity : activity)
    (band : string) : result (services * activity) :=
  let blendactivity :=
    not_run svc (<["mystatus" := VStr "NOTDONE"]> blendactivity) in
  svc ← put_item_kinesis svc blendactivity;
  let svc := send_to_sqs svc blendactivity in
  blendactivity ← leave_room mergeactivity blendactivity band;
  Ok (svc, blendactivity).

(** The test of one pass of the loop over the bands.  The answer [true] is
    [continue]: the blend of the band is there already and is only counted
    again, by a [next_step] that is followed up to the preparer it may
    enter. *)
Definition already_blended (svc : services)
    (mergeactivity blendactivity : activity) (internal_band : pyval)
    (dynamoKey sk : string) : result (services * bool) :=
  match get_activity_item svc dynamoKey sk with
  | Some item =>
      status ← getitem item "mystatus";
      if eq_str status "DONE"
      then
        done ← getitem item "instancesToBeDone";
        to_be_done ← getitem blendactivity "instancesToBeDone";
        if eq_scalar done to_be_done
        then
          functions ← getitem blendactivity "functions" ≫= elements;
          exists_ ← files_exist svc mergeactivity blendactivity internal_band
                                functions true;
          if negb (truthy (default VNone (blendactivity !! "force")))
             && exists_
          then svc ← next_step svc item; Ok (svc, true)
          else Ok (remove_activity_by_key svc dynamoKey sk, false)
        else Ok (svc, false)
      else Ok (svc, false)
  | None => Ok (svc, false)
  end.

Fixpoint blend_bands (svc : services) (mergeactivity blendactivity : activity)
    (bands : list pyval) : result (services * activity * activity) :=
  match bands with
  | [] => Ok (svc, mergeactivity, blendactivity)
  | band :: rest =>
      internal ← getitem blendactivity "internal_bands" ≫= isin band;
      let internal_band := if (internal : bool) then band else VBool false in
      band ← (if truthy internal_band
              then getitem blendactivity "bands" ≫= first
              else Ok band);
      let mergeactivity := <["band" := band]> mergeactivity in
      let blendactivity := <["band" := band]> blendactivity in
      '(mergeactivity, blendactivity, _) ←
        fill_blend svc mergeactivity blendactivity internal_band;
      let sk := if truthy internal_band then internal_band else band in
      let blendactivity := <["sk" := sk]> blendactivity in
      dynamoKey ← get_str blendactivity "dynamoKey";
      sk ← as_str sk;
      '(svc, counted) ←
        already_blended svc mergeactivity blendactivity internal_band
                        dynamoKey sk;
      if (counted : bool)
      then blend_bands svc mergeactivity blendactivity rest
      else
        band ← as_str band;
        '(svc, blendactivity) ← launch svc mergeactivity blendactivity band;
        blend_bands svc mergeactivity blendactivity rest
  end.

(** [next_blend] changes the merge activity in place; it answers False when
    the merges of the quality band are not all there. *)
Definition next_blend (svc : services) (mergeactivity : activity)
    : result (services * activity * bool) :=
  let blendactivity :=
    copy_keys mergeactivity (<["action" := VStr "blend"]> ∅) in
  bands ← getitem blendactivity "bands" ≫= len;
  internal_bands ← getitem blendactivity "internal_bands" ≫= len;
  let total := bands + internal_bands in
  let blendactivity :=
    <["totalInstancesToBeDone" := VInt total]> blendactivity in
  dynamoKey ← encode_key blendactivity
    ["action"; "datacube"; "tileid"; "start"; "end"];
  let blendactivity := <["dynamoKey" := VStr dynamoKey]> blendactivity in
  let blendactivity := <["scenes" := VDict []]> blendactivity in
  quality_band ← getitem mergeactivity "quality_band";
  let mergeactivity := <["band" := quality_band]> mergeactivity in
  let blendactivity := <["band" := quality_band]> blendactivity in
  '(mergeactivity, blendactivity, status) ←
    fill_blend svc mergeactivity blendactivity (VBool false);
  let date := now svc in
  let svc := put_control_table svc dynamoKey 0 total date in
  missing ←
    (if negb status then Ok true
     else to_be_done ← getitem blendactivity "instancesToBeDone";
          Ok (eq_scalar to_be_done (VInt 0)));
  if (missing : bool)
  then
    let blendactivity :=
      not_run svc
        (<["errors" :=
             VDict [("step", VStr "next_blend");
                    ("message",
                     VStr "not all merges were found for this tile/period")]]>
        (<["mystatus" := VStr "ERROR"]>
        (<["sk" := VStr "ALLBANDS"]> blendactivity))) in
    svc ← put_item_kinesis svc blendactivity;
    Ok (svc, mergeactivity, false)
  else
    bands ← getitem blendactivity "bands";
    internal_bands ← getitem blendactivity "internal_bands";
    all_bands ← add bands internal_bands ≫= elements;
    '(svc, mergeactivity, blendactivity) ←
      blend_bands svc mergeactivity blendactivity all_bands;
    Ok (svc, mergeactivity, true).

End NextBlend.

(** * Properties *)

Lemma bind_Ok {A B} (m : result A) (f : A → result B) (b : B) :
  m ≫= f = Ok b → ∃ a, m = Ok a ∧ f a = Ok b.
Proof. destruct m as [a|e]; cbn; [eauto|done]. Qed.

(** ** The scene-id parsers *)

Module SceneParserFacts.
Import SceneParser.

Fixpoint group_names (p : list item) : gset string :=
  match p with
  | [] => ∅
  | Group name _ _ :: p' => {[ name ]} ∪ group_names p'
  | _ :: p' => group_names p'
  end.

Lemma take_cls_split k n s g rest :
  take_cls k n s = Some (g, rest) →
  s = g +:+ rest ∧ String.length g = n.
Proof.
  revert s g rest. induction n as [|n IH]; intros s g rest; simpl.
  - intros [= <- <-]. done.
  - destruct s as [|c s]; [done|].
    destruct (cls_matches k c); [|done].
    destruct (take_cls k n s) as [[g' rest']|] eqn:E; simpl; [|done].
    intros [= <- <-]. destruct (IH _ _ _ E) as [-> <-]. done.
Qed.

Lemma match_items_dom p start s groups m :
  match_items p start s groups = Some m →
  dom m = dom groups ∪ group_names p.
Proof.
  revert start s groups.
  induction p as [|i p IH]; intros start s groups; simpl.
  - intros [= <-]. set_solver.
  - destruct i as [| |c|name k n].
    + destruct start; [|done]. apply IH.
    + destruct (at_eol s); [|done]. apply IH.
    + destruct s as [|d s]; [done|].
      destruct (lit_matches c d); [|done]. apply IH.
    + destruct (take_cls k n s) as [[g rest]|]; simpl; [|done].
      intros H. apply IH in H. rewrite H, dom_insert_L. set_solver.
Qed.

Lemma match_items_frame p start s groups m name :
  name ∉ group_names p →
  match_items p start s groups = Some m →
  m !! name = groups !! name.
Proof.
  revert start s groups.
  induction p as [|i p IH]; intros start s groups; simpl.
  - intros _ [= <-]. done.
  - destruct i as [| |c|name' k n]; intros Hn.
    + destruct start; [|done]. by apply IH.
    + destruct (at_eol s); [|done]. by apply IH.
    + destruct s as [|d s]; [done|].
      destruct (lit_matches c d); [|done]. by apply IH.
    + destruct (take_cls k n s) as [[g rest]|]; simpl; [|done].
      intros H. apply IH in H; [|set_solver].
      rewrite H, lookup_insert_ne; [done|set_solver].
Qed.

Lemma landsat_match_dom s meta :
  re_match landsat_pattern s = Some meta →
  dom (<["scene_id" := s]> (<["instrument" := "x"]> meta)) = landsat_keys.
Proof.
  intros H. apply match_items_dom in H.
  rewrite !dom_insert_L, H. unfold landsat_keys. simpl. set_solver.
Qed.

Lemma match_prefix_satellite rest s meta :
  "satellite" ∉ group_names rest →
  match_items (Bol :: Lit "L" :: Group "sensor" Word 1
                 :: Group "satellite" Word 2 :: rest) true s ∅ = Some meta →
  meta !! "satellite" = Some (substring 2 2 s).
Proof.
  intros Hrest. cbn [match_items].
  destruct s as [|c0 s]; [done|].
  destruct (lit_matches "L" c0); [|done].
  destruct (take_cls Word 1 s) as [[g1 r1]|] eqn:E1; [|done].
  cbn [mbind option_bind].
  destruct (take_cls Word 2 r1) as [[g2 r2]|] eqn:E2; [|done].
  cbn [mbind option_bind].
  intros H. apply match_items_frame with (name := "satellite") in H; [|done].
  rewrite H, lookup_insert_eq.
  apply take_cls_split in E1 as [-> L1], E2 as [-> L2].
  destruct g1 as [|a [|? ?]]; try done.
  destruct g2 as [|b [|b' [|? ?]]]; try done. simpl.
  destruct r2; done.
Qed.

Lemma landsat_match_satellite s meta :
  re_match landsat_pattern s = Some meta →
  meta !! "satellite" = Some (substring 2 2 s).
Proof.
  apply match_prefix_satellite. simpl. set_solver.
Qed.

Lemma instruments_known (x : string) :
  x ∈ ["05"; "07"; "08"] ↔ is_Some (instruments !! x).
Proof.
  unfold instruments. rewrite !elem_of_cons, elem_of_nil.
  destruct (decide (x = "05")) as [->|?]; [split; [eauto|by left]|].
  destruct (decide (x = "07")) as [->|?]; [split; [eauto|by right; left]|].
  destruct (decide (x = "08")) as [->|?];
    [split; [eauto|by right; right; left]|].
  rewrite !lookup_insert_ne, lookup_empty by done.
  split; [naive_solver|intros [? ?]; done].
Qed.

Lemma landsat_no_match scene_id args :
  re_match landsat_pattern scene_id = None →
  landsat scene_id args =
    Raise (AttributeError "'NoneType' object has no attribute 'groupdict'").
Proof. unfold landsat. intros ->. done. Qed.

Lemma landsat_unknown_satellite scene_id args meta :
  re_match landsat_pattern scene_id = Some meta →
  instruments !! substring 2 2 scene_id = None →
  landsat scene_id args = Raise (KeyError (substring 2 2 scene_id)).
Proof.
  unfold landsat. intros Hm Hi. rewrite Hm. cbn.
  rewrite (landsat_match_satellite _ _ Hm). cbn. rewrite Hi. done.
Qed.

Lemma landsat_known_satellite scene_id args meta instr :
  dom args ## landsat_keys →
  re_match landsat_pattern scene_id = Some meta →
  instruments !! substring 2 2 scene_id = Some instr →
  landsat scene_id args =
    Ok (<["scene_id" := scene_id]> (<["instrument" := instr]> meta) ∪ args).
Proof.
  unfold landsat. intros Hargs Hm Hi. rewrite Hm. cbn.
  rewrite (landsat_match_satellite _ _ Hm). cbn. rewrite Hi. cbn.
  unfold dict_kwargs. rewrite bool_decide_eq_true_2; [done|].
  pose proof (landsat_match_dom _ _ Hm) as Hdom.
  rewrite !dom_insert_L in *. split.
  - apply not_elem_of_dom. apply match_items_dom in Hm.
    rewrite dom_insert_L, Hm. simpl. set_solver.
  - rewrite dom_insert_L, Hdom. exact Hargs.
Qed.

Lemma landsat_repeated scene_id args meta instr :
  ¬ dom args ## landsat_keys →
  re_match landsat_pattern scene_id = Some meta →
  instruments !! substring 2 2 scene_id = Some instr →
  landsat scene_id args =
    Raise (TypeError "dict() got multiple values for keyword argument").
Proof.
  unfold landsat. intros Hargs Hm Hi. rewrite Hm. cbn.
  rewrite (landsat_match_satellite _ _ Hm). cbn. rewrite Hi. cbn.
  unfold dict_kwargs. rewrite bool_decide_eq_false_2; [done|].
  intros [_ Hd]. apply Hargs.
  pose proof (landsat_match_dom _ _ Hm) as Hdom.
  rewrite !dom_insert_L in *. by rewrite <- Hdom.
Qed.

(** C10 (amended). [landsat] returns a record exactly when the scene id
    matches the pattern, its satellite field (characters 2 and 3 of the id)
    is one of 05, 07, 08, and [args] repeats no key of the record; the
    record then carries the instrument tm, etm, oli-tirs respectively.  A
    matching id with another satellite code raises [KeyError] on that code;
    an id that does not match raises the [AttributeError] of calling
    [groupdict] on [None]; and a matching id with a known satellite whose
    [args] repeats a key of the record raises the [TypeError] of a keyword
    given twice.  No other outcome exists. *)
Theorem landsat_outcome (scene_id : string) (args : gmap string string) :
  let sat := substring 2 2 scene_id in
  ((∃ r, landsat scene_id args = Ok r) ↔
     is_Some (re_match landsat_pattern scene_id) ∧ sat ∈ ["05"; "07"; "08"] ∧
     dom args ## landsat_keys)
  ∧ (∀ r, landsat scene_id args = Ok r →
       r !! "scene_id" = Some scene_id ∧ r !! "satellite" = Some sat ∧
       r !! "instrument" = instruments !! sat ∧
       (sat = "05" → r !! "instrument" = Some "tm") ∧
       (sat = "07" → r !! "instrument" = Some "etm") ∧
       (sat = "08" → r !! "instrument" = Some "oli-tirs"))
  ∧ (is_Some (re_match landsat_pattern scene_id) →
     sat ∉ ["05"; "07"; "08"] →
     landsat scene_id args = Raise (KeyError sat))
  ∧ (re_match landsat_pattern scene_id = None →
     landsat scene_id args =
       Raise (AttributeError "'NoneType' object has no attribute 'groupdict'"))
  ∧ (is_Some (re_match landsat_pattern scene_id) →
     sat ∈ ["05"; "07"; "08"] → ¬ dom args ## landsat_keys →
     landsat scene_id args =
       Raise (TypeError "dict() got multiple values for keyword argument")).
Proof.
  intros sat.
  destruct (re_match landsat_pattern scene_id) as [meta|] eqn:Hm.
  - pose proof (landsat_match_satellite _ _ Hm) as Hsat. fold sat in Hsat.
    destruct (instruments !! sat) as [instr|] eqn:Hi.
    + assert (Hknown : sat ∈ ["05"; "07"; "08"]).
      { apply instruments_known. fold sat. rewrite Hi. eauto. }
      destruct (decide (dom args ## landsat_keys)) as [Hargs|Hargs].
      * pose proof (landsat_known_satellite _ _ _ _ Hargs Hm Hi) as Hok.
        split; [|split; [|split; [|split]]].
        -- split; [|eauto]. intros _. split; [eauto|]. done.
        -- intros r Hr. rewrite Hok in Hr. injection Hr as <-.
           assert (Hinstr : (<["scene_id" := scene_id]>
                      (<["instrument" := instr]> meta) ∪ args) !! "instrument"
                    = Some instr).
           { apply lookup_union_Some_l.
             by rewrite lookup_insert_ne, lookup_insert_eq. }
           split; [|split; [|split; [|split; [|split]]]].
           ++ apply lookup_union_Some_l. by rewrite lookup_insert_eq.
           ++ apply lookup_union_Some_l. by rewrite !lookup_insert_ne.
           ++ done.
           ++ intros E. rewrite E in Hi. vm_compute in Hi. congruence.
           ++ intros E. rewrite E in Hi. vm_compute in Hi. congruence.
           ++ intros E. rewrite E in Hi. vm_compute in Hi. congruence.
        -- intros _ Hn. done.
        -- done.
        -- intros _ _ Hn. done.
      * pose proof (landsat_repeated _ _ _ _ Hargs Hm Hi) as Herr.
        split; [|split; [|split; [|split]]].
        -- split.
           ++ intros [r Hr]. rewrite Herr in Hr. done.
           ++ intros (_ & _ & Hd). done.
        -- intros r Hr. rewrite Herr in Hr. done.
        -- intros _ Hn. done.
        -- done.
        -- done.
    + pose proof (landsat_unknown_satellite _ args _ Hm Hi) as Herr.
      fold sat in Herr.
      assert (Hunknown : sat ∉ ["05"; "07"; "08"]).
      { intros Hs. apply instruments_known in Hs.
        fold sat in Hs. rewrite Hi in Hs. by destruct Hs. }
      split; [|split; [|split; [|split]]].
      * split.
        -- intros [r Hr]. rewrite Herr in Hr. done.
        -- intros (_ & Hs & _). done.
      * intros r Hr. rewrite Herr in Hr. done.
      * done.
      * done.
      * intros _ Hs. done.
  - pose proof (landsat_no_match _ args Hm) as Herr.
    split; [|split; [|split; [|split]]].
    + split.
      * intros [r Hr]. rewrite Herr in Hr. done.
      * intros [[? ?] _]. done.
    + intros r Hr. rewrite Herr in Hr. done.
    + intros [? ?]. done.
    + done.
    + intros [? ?]. done.
Qed.

Lemma landsat_outcome_witness :
  ∃ r, landsat "LC08_L1TP_220069_20190112_20190131_01_T1" ∅ = Ok r.
Proof.
  apply (proj1 (landsat_outcome
                  "LC08_L1TP_220069_20190112_20190131_01_T1" ∅)).
  split; [|split].
  - apply is_Some_alt. vm_compute. exact I.
  - apply list_elem_of_In. right. right. left. vm_compute. reflexivity.
  - set_solver.
Defined.

(** C10 as stated leaves out an outcome: a Landsat-8 id that matches, with
    an [args] that names a field of the record again, raises [TypeError]
    where the claim says a record is returned. *)
Lemma landsat_repeated_key :
  is_Some (re_match landsat_pattern
             "LC08_L1TP_220069_20190112_20190131_01_T1") ∧
  substring 2 2 "LC08_L1TP_220069_20190112_20190131_01_T1" = "08" ∧
  landsat "LC08_L1TP_220069_20190112_20190131_01_T1" {[ "sensor" := "x" ]}
  = Raise (TypeError "dict() got multiple values for keyword argument").
Proof.
  split; [apply is_Some_alt; vm_compute; exact I|].
  split; [reflexivity|]. vm_compute. reflexivity.
Qed.

End SceneParserFacts.

(** ** The counter and the stage transitions *)

Module MaestroFacts.
Import Py Services Maestro.

(** Completers of one stage, in the order of their atomic increments. *)
Fixpoint next_steps (svc : services) (l : list activity) : result services :=
  match l with
  | [] => Ok svc
  | a :: rest => svc ← next_step svc a; next_steps svc rest
  end.

(** The preparer [next_step] calls for an activity whose counter is full. *)
Definition dispatch (a : activity) : list call :=
  match a !! "action" with
  | Some action =>
      if eq_str action "merge" then [NextBlend a]
      else if eq_str action "blend"
           then if has_bands_expressions a then [NextPosblend a]
                else [NextPublish a]
      else if eq_str action "posblend" then [NextPublish a]
      else []
  | None => []
  end.

Definition bump (row : counter) (date : string) : counter :=
  Counter (mycount row + 1) (total_to_be_done row) date (errors row).

Lemma next_step_row svc a k row T :
  get_key_to_controltable a = Ok k →
  control_table svc !! k = Some row →
  get_int a "totalInstancesToBeDone" = Ok T →
  is_Some (a !! "action") →
  next_step svc a =
    Ok (with_calls
          (λ l, l ++ (if T <=? mycount row + 1 then dispatch a else []))
          (with_control <[k := bump row (now svc)]> svc)).
Proof.
  intros Hk Hrow HT [action Hact].
  unfold next_step, update_control_table. rewrite Hk. cbn.
  rewrite Hrow. cbn. rewrite HT. cbn. fold (bump row (now svc)).
  unfold dispatch, getitem. rewrite Hact. cbn.
  destruct (T <=? mycount row + 1); cbn.
  - destruct (eq_str action "merge"); [done|].
    destruct (eq_str action "blend").
    { destruct (has_bands_expressions a); done. }
    destruct (eq_str action "posblend"); [done|].
    destruct svc; unfold with_calls; cbn. by rewrite app_nil_r.
  - destruct svc; unfold with_calls; cbn. by rewrite app_nil_r.
Qed.

Lemma next_step_no_row svc a k :
  get_key_to_controltable a = Ok k →
  control_table svc !! k = None →
  next_step svc a = Ok svc.
Proof.
  intros Hk Hrow. unfold next_step, update_control_table.
  rewrite Hk. cbn. rewrite Hrow. done.
Qed.

(** What a successful [next_step] did. *)
Lemma next_step_inv svc a svc' :
  next_step svc a = Ok svc' →
  ∃ k, get_key_to_controltable a = Ok k ∧
    match control_table svc !! k with
    | None => svc' = svc
    | Some row =>
        ∃ T, get_int a "totalInstancesToBeDone" = Ok T ∧
          svc' = with_calls
                   (λ l, l ++ (if T <=? mycount row + 1
                               then dispatch a else []))
                   (with_control <[k := bump row (now svc)]> svc)
    end.
Proof.
  intros H. unfold next_step in H.
  apply bind_Ok in H as (k & Hk & H). exists k. split; [done|].
  unfold update_control_table in H.
  destruct (control_table svc !! k) as [row|] eqn:Hrow.
  - apply bind_Ok in H as (T & HT & H). exists T. split; [done|].
    cbn [mycount] in H. fold (bump row (now svc)) in H. unfold dispatch.
    destruct (T <=? mycount row + 1).
    + apply bind_Ok in H as (action & Hact & H).
      unfold getitem in Hact. destruct (a !! "action") as [v|]; [|done].
      injection Hact as ->.
      destruct (eq_str action "merge"); [by injection H as <-|].
      destruct (eq_str action "blend").
      { destruct (has_bands_expressions a); by injection H as <-. }
      destruct (eq_str action "posblend"); [by injection H as <-|].
      injection H as <-.
      destruct svc; unfold with_calls; cbn. by rewrite app_nil_r.
    + injection H as <-.
      destruct svc; unfold with_calls; cbn. by rewrite app_nil_r.
  - by injection H as <-.
Qed.

(** A completer of the stage with counter key [k]: an activity of a stage
    that has a successor, carrying the stage's expected count [T]. *)
Definition completer (k : string) (T : Z) (a : activity) : Prop :=
  get_key_to_controltable a = Ok k ∧
  get_int a "totalInstancesToBeDone" = Ok T ∧
  ∃ action, a !! "action" = Some (VStr action) ∧
            action ∈ ["merge"; "blend"; "posblend"].

Lemma completer_dispatch k T a :
  completer k T a → length (dispatch a) = 1%nat.
Proof.
  intros (_ & _ & action & Hact & Hin). unfold dispatch. rewrite Hact.
  rewrite !elem_of_cons, elem_of_nil in Hin.
  destruct Hin as [->|[->|[->|[]]]]; cbn; [done| |done].
  by destruct (has_bands_expressions a).
Qed.

Lemma next_steps_count svc k T l :
  Forall (completer k T) l →
  ∀ row, control_table svc !! k = Some row →
  ∃ svc', next_steps svc l = Ok svc' ∧
    mycount <$> control_table svc' !! k
      = Some (mycount row + Z.of_nat (length l)) ∧
    Z.of_nat (length (calls svc')) =
      Z.of_nat (length (calls svc))
      + (Z.max 0 (mycount row + Z.of_nat (length l) - T + 1)
         - Z.max 0 (mycount row - T + 1)).
Proof.
  intros Hl. revert svc. induction Hl as [|a l Ha Hl IH]; intros svc row Hrow.
  - exists svc. cbn. rewrite Hrow. cbn.
    split; [done|]. split; [f_equal; lia|lia].
  - pose proof Ha as (Hk & HT & action & Hact & _).
    cbn [next_steps].
    rewrite (next_step_row svc a k row T Hk Hrow HT) by (rewrite Hact; eauto).
    cbn.
    set (svc1 := with_calls _ _).
    assert (Hrow1 : control_table svc1 !! k = Some (bump row (now svc))).
    { unfold svc1. destruct svc; cbn. by rewrite lookup_insert_eq. }
    destruct (IH svc1 _ Hrow1) as (svc' & Hrun & Hcount & Hcalls).
    exists svc'. split; [done|]. split.
    + rewrite Hcount. cbn. f_equal. lia.
    + rewrite Hcalls. unfold svc1. destruct svc; cbn.
      rewrite length_app. cbn [mycount bump].
      destruct (Z.leb_spec T (mycount row + 1)).
      * rewrite (completer_dispatch _ _ _ Ha). lia.
      * cbn. lia.
Qed.


(** C1 (amended). A completer of a stage fires the child-stage fan-out
    exactly when its own atomic increment yields [mycount >= T], with [T]
    the stage's [totalInstancesToBeDone]: below [T] it is silent, at [T] and
    at every count above [T] it makes one call.  Hence, from a counter put
    at 0, the first fan-out is made by the completer whose increment first
    makes [mycount = T], and [n] completers make [max 0 (n - T + 1)]
    fan-outs in all. *)
Theorem next_step_fires_from_total (svc : services) (k : string) (T : Z)
    (row : counter) :
  control_table svc !! k = Some row →
  (∀ a, completer k T a →
     ∃ svc', next_step svc a = Ok svc' ∧
       mycount <$> control_table svc' !! k = Some (mycount row + 1) ∧
       (mycount row + 1 < T → calls svc' = calls svc) ∧
       (T ≤ mycount row + 1 →
          calls svc' = calls svc ++ dispatch a ∧
          length (dispatch a) = 1%nat))
  ∧ (∀ l, mycount row = 0 → 1 ≤ T → Forall (completer k T) l →
     ∃ svc', next_steps svc l = Ok svc' ∧
       mycount <$> control_table svc' !! k = Some (Z.of_nat (length l)) ∧
       Z.of_nat (length (calls svc')) =
         Z.of_nat (length (calls svc))
         + Z.max 0 (Z.of_nat (length l) - T + 1)).
Proof.
  intros Hrow. split.
  - intros a Ha. pose proof Ha as (Hk & HT & action & Hact & _).
    eexists. split.
    { apply (next_step_row svc a k row T Hk Hrow HT). rewrite Hact. eauto. }
    destruct svc; cbn in *. rewrite lookup_insert_eq. cbn.
    split; [done|]. split.
    + intros Hlt. destruct (Z.leb_spec T (mycount row + 1)); [lia|].
      by rewrite app_nil_r.
    + intros Hge. destruct (Z.leb_spec T (mycount row + 1)); [|lia].
      split; [done|]. by apply (completer_dispatch k T).
  - intros l H0 HT Hl.
    destruct (next_steps_count svc k T l Hl row Hrow)
      as (svc' & Hrun & Hcount & Hcalls).
    exists svc'. split; [done|]. rewrite Hcount, Hcalls, H0. split.
    + f_equal.
    + lia.
Qed.

(** A tile and period whose first band has one date and whose second band
    has two: [prepare_merge] counts the dates of the first band only, so the
    stage expects 2 completions and has 3 completers. *)
Definition merge_done (band date : string) : activity :=
  <["action" := VStr "merge"]>
  (<["dynamoKey" := VStr ("mergeLC8_30_012345" +:+ date +:+ band)]>
  (<["sk" := VStr date]>
  (<["band" := VStr band]>
  (<["date" := VStr date]>
  (<["start" := VStr "2020-01-01"]>
  (<["end" := VStr "2020-01-16"]>
  (<["mystatus" := VStr "DONE"]>
  (<["totalInstancesToBeDone" := VInt 2]> ∅)))))))).

Definition merge_key : string := "mergeLC8_30_0123452020-01-012020-01-16".

Definition svc_merge : services :=
  Services "bucket" {[ merge_key := Counter 0 2 "" 0 ]} ∅ ∅ [] [] []
           "2020-02-01 00:00:00".

Lemma merge_done_completer band date :
  band ∈ ["nir"; "red"] → date ∈ ["2020-01-05"; "2020-01-13"] →
  completer merge_key 2 (merge_done band date).
Proof.
  rewrite !elem_of_cons, !elem_of_nil.
  intros [->|[->|[]]] [->|[->|[]]];
    (split; [vm_compute; reflexivity|]; split; [vm_compute; reflexivity|];
     exists "merge"; split; [vm_compute; reflexivity|];
     apply list_elem_of_In; simpl; tauto).
Qed.

Lemma next_step_fires_from_total_witness :
  control_table svc_merge !! merge_key = Some (Counter 0 2 "" 0) ∧
  ∃ svc', next_steps svc_merge
            [merge_done "nir" "2020-01-05"; merge_done "red" "2020-01-05"]
          = Ok svc' ∧
    mycount <$> control_table svc' !! merge_key = Some 2 ∧
    Z.of_nat (length (calls svc')) = 1.
Proof.
  assert (H : control_table svc_merge !! merge_key = Some (Counter 0 2 "" 0))
    by reflexivity.
  split; [exact H|].
  apply (proj2 (next_step_fires_from_total svc_merge merge_key 2 _ H)
           [merge_done "nir" "2020-01-05"; merge_done "red" "2020-01-05"]).
  - reflexivity.
  - lia.
  - repeat constructor; apply merge_done_completer;
      apply list_elem_of_In; simpl; tauto.
Defined.

(** C1 as stated fails: here the third completer's increment yields
    [mycount = 3 > 2 = totalInstancesToBeDone], and it fires a second
    [next_blend]. *)
Lemma next_step_fires_past_total :
  let first_two :=
    [merge_done "nir" "2020-01-05"; merge_done "red" "2020-01-05"] in
  let third := merge_done "red" "2020-01-13" in
  calls <$> next_steps svc_merge first_two
    = Ok [NextBlend (merge_done "red" "2020-01-05")] ∧
  (λ svc, mycount <$> control_table svc !! merge_key)
    <$> next_steps svc_merge (first_two ++ [third]) = Ok (Some 3) ∧
  Py.get_int third "totalInstancesToBeDone" = Ok 2 ∧
  calls <$> next_steps svc_merge (first_two ++ [third])
    = Ok [NextBlend (merge_done "red" "2020-01-05"); NextBlend third].
Proof.
  cbv zeta.
  split; [vm_compute; reflexivity|].
  split; [vm_compute; reflexivity|].
  split; [vm_compute; reflexivity|].
  vm_compute; reflexivity.
Qed.

(** *** One finished activity *)

Definition is_done (a : activity) : bool :=
  match a !! "mystatus" with
  | Some v => eq_str v "DONE"
  | None => false
  end.

Definition count_of (svc : services) (k : string) : Z :=
  default 0 (mycount <$> control_table svc !! k).







End MaestroFacts.

(** ** The preparation of BLEND *)

Module BlendFacts.
Import Py Services Blend.

(** The guard [func == 'IDT'] compares an object with a string. *)
Lemma func_is_not_IDT : eq_str func "IDT" = false.
Proof. reflexivity. Qed.

Lemma set_composite_file_keeps b f band ver b' k :
  set_composite_file b f band ver = Ok b' →
  is_Some (b !! k) → is_Some (b' !! k).
Proof.
  unfold set_composite_file. intros H Hk.
  repeat (apply bind_Ok in H as (? & _ & H)). injection H as <-.
  destruct (decide (f +:+ "file" = k)) as [<-|Hne].
  - rewrite lookup_insert_eq. eauto.
  - by rewrite lookup_insert_ne.
Qed.

Lemma fill_functions_keeps b band ver fs b' k :
  fill_functions b band ver fs = Ok b' →
  is_Some (b !! k) → is_Some (b' !! k).
Proof.
  revert b. induction fs as [|f fs IH]; intros b; cbn.
  - intros [= <-]. done.
  - intros H Hk. apply bind_Ok in H as (fname & _ & H).
    apply bind_Ok in H as (b1 & H1 & H).
    eapply IH; [exact H|]. by eapply set_composite_file_keeps.
Qed.

(** Every function of the list gets its key, IDT included: the loop skips
    nothing. *)
Lemma fill_functions_defines b band ver fs b' f :
  fill_functions b band ver fs = Ok b' →
  VStr f ∈ fs → is_Some (b' !! (f +:+ "file")).
Proof.
  revert b. induction fs as [|f0 fs IH]; intros b; cbn.
  - intros _ Hin. by apply elem_of_nil in Hin.
  - intros H Hin. apply bind_Ok in H as (fname & Hf & H).
    apply bind_Ok in H as (b1 & H1 & H).
    apply elem_of_cons in Hin as [<-|Hin]; [|by eapply IH].
    cbn in Hf. injection Hf as <-.
    eapply fill_functions_keeps; [exact H|].
    unfold set_composite_file in H1.
    repeat (apply bind_Ok in H1 as (? & _ & H1)). injection H1 as <-.
    rewrite lookup_insert_eq. eauto.
Qed.

(** One tile and period with a single merged date of the band [nir], for a
    cube with the functions IDT, STK and MED. *)
Definition merged_nir : activity :=
  <["dynamoKey" := VStr "mergeLC8_300123452020-01-05nir"]>
  (<["sk" := VStr "2020-01-05"]>
  (<["mystatus" := VStr "DONE"]>
  (<["efficacy" := VStr "87.5"]>
  (<["cloudratio" := VStr "12.5"]>
  (<["date" := VStr "2020-01-05"]>
  (<["dataset" := VStr "LC8_SR"]>
  (<["satellite" := VStr "LANDSAT"]>
  (<["ARDfile" :=
       VStr "LC8_30/v001/012345/2020-01-05/LC8_30_v001_012345_2020-01-05_nir.tif"]>
   ∅)))))))).

Definition svc_fill : services :=
  Services "bucket" ∅
    {[ ("mergeLC8_300123452020-01-05nir", "2020-01-05") := merged_nir ]}
    ∅ [] [] [] "2020-02-01 00:00:00".

Definition mergeactivity0 : activity :=
  <["action" := VStr "merge"]>
  (<["irregular_datacube" := VStr "LC8_30"]>
  (<["tileid" := VStr "012345"]>
  (<["band" := VStr "nir"]>
  (<["list_dates" := VList [VStr "2020-01-05"]]> ∅)))).

Definition blendactivity0 : activity :=
  <["action" := VStr "blend"]>
  (<["datacube" := VStr "LC8_30_16D_STK"]>
  (<["tileid" := VStr "012345"]>
  (<["start" := VStr "2020-01-01"]>
  (<["end" := VStr "2020-01-16"]>
  (<["version" := VStr "v001"]>
  (<["band" := VStr "nir"]>
  (<["quality_band" := VStr "quality"]>
  (<["functions" := VList [VStr "IDT"; VStr "STK"; VStr "MED"]]>
  (<["scenes" := VDict []]> ∅))))))))).

(** C3, at the failing input: for a band other than the quality band and
    the functions IDT, STK, MED, [fill_blend] defines [IDTfile] next to
    [STKfile] and [MEDfile]. *)
Theorem fill_blend_defines_IDTfile :
  let filled :=
    fill_blend svc_fill mergeactivity0 blendactivity0 (VBool false) in
  snd <$> filled = Ok true ∧
  (λ r, r.1.2 !! "IDTfile") <$> filled =
    Ok (Some (VStr "LC8_30_16D_IDT/v001/012345/2020-01-01_2020-01-16/LC8_30_16D_IDT_v001_012345_2020-01-01_2020-01-16_nir.tif")) ∧
  (λ r, r.1.2 !! "STKfile") <$> filled =
    Ok (Some (VStr "LC8_30_16D_STK/v001/012345/2020-01-01_2020-01-16/LC8_30_16D_STK_v001_012345_2020-01-01_2020-01-16_nir.tif")) ∧
  (λ r, r.1.2 !! "MEDfile") <$> filled =
    Ok (Some (VStr "LC8_30_16D_MED/v001/012345/2020-01-01_2020-01-16/LC8_30_16D_MED_v001_012345_2020-01-01_2020-01-16_nir.tif")) ∧
  (λ r, r.1.2 !! "instancesToBeDone") <$> filled = Ok (Some (VInt 1)).
Proof.
  cbv zeta.
  split; [vm_compute; reflexivity|].
  split; [vm_compute; reflexivity|].
  split; [vm_compute; reflexivity|].
  split; [vm_compute; reflexivity|].
  vm_compute; reflexivity.
Qed.

End BlendFacts.

(** ** The order of the scenes in BLEND *)

Module BlendOrderFacts.
Import Py Blend BlendOrder.





(** *** The order of the floats *)

































End BlendOrderFacts.

(** ** The MERGE worker *)

Module MergeFacts.
Import Py Services Blend Merge.

(** *** The composition of one pixel over the scenes *)





























(** *** Two scenes of one date *)

Definition scene_files (v1 v2 v3 v4 : Z) : gmap string source :=
  {[ "s3://scenes/a.tif" := Source None "int16" [v1; v2] 2 1 [[v1; v2]];
     "s3://scenes/b.tif" := Source None "int16" [v3; v4] 2 1 [[v3; v4]] ]}.

(** The printing of a float whose value is an integer below [10 ^ 16], as
    [str] gives it; any other float is printed by its mantissa and its
    binary exponent. *)
Definition print_float (x : spec_float) : string :=
  match x with
  | S754_nan => "nan"
  | S754_infinity negative => if negative then "-inf" else "inf"
  | S754_zero negative => if negative then "-0.0" else "0.0"
  | S754_finite negative m e =>
      let sign := if negative then "-" else "" in
      let d := 2 ^ (- e) in
      if (e <=? 0) && (Zpos m mod d =? 0) && (Zpos m / d <? 10 ^ 16)
      then sign +:+ str_int (Zpos m / d) +:+ ".0"
      else sign +:+ str_int (Zpos m) +:+ "p" +:+ str_int e
  end.

(** A world whose assets are already on the tile grid: warping returns
    band 1; the quality statistics are constant. *)
Definition world_of (files : gmap string source) : world :=
  World (λ url, of_option (files !! url) (IOError url))
        (λ src _ _ _ _ _, Ok (src_band src))
        (λ raster _, Ok (raster, float_of_Z 50, float_of_Z 50))
        (λ _ _, Ok (float_of_Z 50, float_of_Z 50))
        (λ _, "")
        print_float.

Definition two_links : list pyval :=
  [VStr "s3://scenes/a.tif"; VStr "s3://scenes/b.tif"].

Definition merge_activity (band satellite : string) (shape : pyval)
    (mask_nodata : Z) : activity :=
  <["ARDfile" := VStr "LC8_30/v001/012345/2020-01-05/out.tif"]>
  (<["bucket_name" := VStr "bucket"]>
  (<["dynamoKey" := VStr "mergeLC8_300123452020-01-05"]>
  (<["sk" := VStr "2020-01-05"]>
  (<["mask" := VDict [("nodata", VInt mask_nodata)]]>
  (<["force" := VBool true]>
  (<["resx" := VFloat 10]>
  (<["resy" := VFloat 10]>
  (<["xmin" := VFloat 0]>
  (<["ymax" := VFloat 0]>
  (<["dist_x" := VFloat 20]>
  (<["dist_y" := VFloat 10]>
  (<["nodata" := VInt (-9999)]>
  (<["band" := VStr band]>
  (<["quality_band" := VStr "quality"]>
  (<["satellite" := VStr satellite]>
  (<["shape" := shape]>
  (<["links" := VList two_links]> ∅))))))))))))))))).

Definition svc_empty : services :=
  Services "bucket" ∅ ∅ ∅ [] [] [] "2020-02-01 00:00:00".



(** *** The end of a merge with a shape *)

Definition merged (w : world) (a : activity)
    : result unit * (services * activity) :=
  merge_warped w (svc_empty, a).

(** C6, at the failing input: an activity with a shape takes the non-cached
    path, its COG is written to [ARDfile], and the activity is stored with
    [mystatus] ERROR, the message being the unbound [new_res_x]; no new
    resolution is stored.  The same activity without a shape ends DONE. *)
Theorem merge_warped_shape_ends_in_error :
  let w := world_of (scene_files 3 (-9999) 5 7) in
  let with_shape :=
    merged w (merge_activity "nir" "LANDSAT-8" (VList [VInt 2; VInt 1]) 255) in
  let without_shape :=
    merged w (merge_activity "nir" "LANDSAT-8" VNone 255) in
  cog_data <$> s3 with_shape.2.1 !! "LC8_30/v001/012345/2020-01-05/out.tif"
    = Some [5; 7] ∧
  with_shape.2.2 !! "mystatus" = Some (VStr "ERROR") ∧
  with_shape.2.2 !! "errors" =
    Some (VDict [("step", VStr "merge");
                 ("message",
                  VStr "local variable 'new_res_x' referenced before assignment")]) ∧
  with_shape.2.2 !! "new_resolution_x" = None ∧
  kinesis with_shape.2.1 = [with_shape.2.2] ∧
  without_shape.2.2 !! "mystatus" = Some (VStr "DONE") ∧
  without_shape.2.2 !! "new_resolution_x" = Some (VStr "10.0").
Proof.
  cbv zeta.
  split; [vm_compute; reflexivity|].
  split; [vm_compute; reflexivity|].
  split; [vm_compute; reflexivity|].
  split; [vm_compute; reflexivity|].
  split; [vm_compute; reflexivity|].
  split; vm_compute; reflexivity.
Qed.

End MergeFacts.

(** ** The BLEND worker *)

Module BlendWorkerFacts.
Import Py Services Blend BlendOrder Merge BlendWorker.

(** *** Positions *)









(** *** One pixel *)














(** *** One pixel over the scenes *)

(** Pixel [i] of a scene's windows: its value, whether it has data, and
    whether its reclassified quality is clear. *)
Definition value_obs (i : nat) (o : string * list Z * list Z) : Z :=
  nth i o.1.2 0.



Definition pixel_obs (i : nat) (doy : Z) (o : string * list Z * list Z)
    : Z * Z * Z :=
  (doy, value_obs i o, nth i o.2 0).













Lemma column_lookup_Some i doys obs j c :
  zip_with (pixel_obs i) doys obs !! j = Some c →
  ∃ d o, doys !! j = Some d ∧ obs !! j = Some o ∧ c = pixel_obs i d o.
Proof.
  intros H. apply lookup_zip_with_Some in H as (d & o & -> & ? & ?). eauto.
Qed.

Lemma column_forallb i doys obs (f : Z * Z * Z → bool)
    (g : string * list Z * list Z → bool) :
  (∀ d o, f (pixel_obs i d o) = g o) →
  (∀ o, o ∈ obs → g o = true) →
  forallb f (zip_with (pixel_obs i) doys obs) = true.
Proof.
  intros Hfg Hall. apply forallb_forall. intros c Hc.
  apply list_elem_of_In, list_elem_of_lookup in Hc as [j Hj].
  apply column_lookup_Some in Hj as (d & o & _ & Ho & ->).
  rewrite Hfg. apply Hall. by eapply list_elem_of_lookup_2.
Qed.

(** *** Which observations the pass takes as clear *)













(** *** Two dates of one tile: a clear and a cloudy pixel *)








(** *** The composite without the provenance *)







(** *** The masked stack, the observation counts and the median *)











(** *** The total observations *)







End BlendWorkerFacts.

(** ** The workers: what a run stores *)

Module WorkerFacts.
Import Py Services Blend BlendOrder Merge BlendWorker.

(** From a state in [P], an answer of the step lands in [Q] and an
    exception in [E]. *)
Definition triple {A} (P : services * activity → Prop) (m : run A)
    (Q : A → services * activity → Prop)
    (E : exn → services * activity → Prop) : Prop :=
  ∀ st, P st →
    match m st with
    | (Ok a, st') => Q a st'
    | (Raise e, st') => E e st'
    end.

Lemma triple_bind {A B} P (m : run A) (f : A → run B) Q' Q E :
  triple P m Q' E → (∀ a, triple (Q' a) (f a) Q E) →
  triple P (m ≫= f) Q E.
Proof.
  intros Hm Hf st HP. specialize (Hm st HP).
  unfold mbind, run_bind. destruct (m st) as [[a|e] st']; [by apply Hf|done].
Qed.

Lemma triple_conseq {A} (P P' : services * activity → Prop) (m : run A)
    (Q Q' : A → services * activity → Prop)
    (E E' : exn → services * activity → Prop) :
  triple P' m Q' E' →
  (∀ st, P st → P' st) → (∀ a st, Q' a st → Q a st) →
  (∀ e st, E' e st → E e st) →
  triple P m Q E.
Proof.
  intros Hm HP HQ HE st Hst. specialize (Hm st (HP st Hst)).
  destruct (m st) as [[a|e] st']; eauto.
Qed.

Lemma triple_try {A} P (body : run A) handler Q E E' :
  triple P body Q E' → (∀ e, triple (E' e) (handler e) Q E) →
  triple P (try_except body handler) Q E.
Proof.
  intros Hb Hh st HP. specialize (Hb st HP). unfold try_except.
  destruct (body st) as [[a|e] st']; [done|]. by apply Hh.
Qed.

(** Steps that keep an invariant, whatever their outcome. *)
Definition keeps {A} (I : services * activity → Prop) (m : run A) : Prop :=
  triple I m (λ _, I) (λ _, I).

Lemma keeps_ret {A} I (a : A) : keeps I (mret a).
Proof. by intros st HI. Qed.

Lemma keeps_lift {A} I (r : result A) : keeps I (lift r).
Proof. intros st HI. unfold lift. by destruct r. Qed.

Lemma keeps_the_activity I : keeps I the_activity.
Proof. by intros st HI. Qed.

Lemma keeps_the_services I : keeps I the_services.
Proof. by intros st HI. Qed.

Lemma keeps_bind {A B} I (m : run A) (f : A → run B) :
  keeps I m → (∀ a, keeps I (f a)) → keeps I (m ≫= f).
Proof. intros Hm Hf. by apply (triple_bind _ _ _ (λ _, I)). Qed.

Lemma keeps_setitem (I : services * activity → Prop) k v :
  (∀ svc a, I (svc, a) → I (svc, <[k := v]> a)) → keeps I (setitem k v).
Proof. intros H [svc a] HI. by apply H. Qed.

Lemma keeps_on_services (I : services * activity → Prop) f :
  (∀ svc svc' a, I (svc, a) → f svc = Ok svc' → I (svc', a)) →
  keeps I (on_services f).
Proof.
  intros H [svc a] HI. unfold on_services. cbn.
  destruct (f svc) as [svc'|e] eqn:Hf; [by eapply H|done].
Qed.

Lemma keeps_try {A} I (body : run A) handler :
  keeps I body → (∀ e, keeps I (handler e)) → keeps I (try_except body handler).
Proof. intros Hb Hh. by apply (triple_try _ _ _ _ _ (λ _, I)). Qed.

(** A step that keeps [I] before a continuation. *)
Lemma triple_seq {A B} I (m : run A) (f : A → run B) Q E :
  keeps I m → (∀ a, triple I (f a) Q E) →
  (∀ e st, I st → E e st) →
  triple I (m ≫= f) Q E.
Proof.
  intros Hm Hf HE. apply (triple_bind _ _ _ (λ _, I)); [|done].
  by apply (triple_conseq I I _ _ (λ _, I) E (λ _, I)).
Qed.

Create HintDb run.

Ltac quiet_weaken :=
  first [ done | by intros ? [? ?] [? ?] ].

Ltac keeps_step :=
  cbv beta;
  lazymatch goal with
  | |- keeps _ (mbind _ _) => apply keeps_bind; [|intros ?]
  | |- keeps _ (mret _) => apply keeps_ret
  | |- keeps _ (lift _) => apply keeps_lift
  | |- keeps _ the_activity => apply keeps_the_activity
  | |- keeps _ the_services => apply keeps_the_services
  | |- keeps _ (try_except _ _) => apply keeps_try; [|intros ?]
  | |- keeps _ (match ?p with _ => _ end) => destruct p
  | |- keeps _ _ => solve [eauto with run]
  end.

Ltac keeps_go := repeat keeps_step.

Ltac triple_step :=
  cbv beta;
  lazymatch goal with
  | |- triple _ (mbind _ _) _ _ =>
      apply triple_seq; [solve [keeps_go] | intros ? | solve [quiet_weaken]]
  | |- triple _ (match ?p with _ => _ end) _ _ => destruct p
  end.

(** The stream and the activity table as they were, and what is known of
    the activity. *)
Definition quiet (svc0 : services) (P : activity → Prop)
    (st : services * activity) : Prop :=
  (kinesis st.1 = kinesis svc0 ∧
   activities_table st.1 = activities_table svc0) ∧ P st.2.

(** The activity, as it is now, was put once on the stream and in the
    table. *)
Definition stored (svc0 : services) (P : activity → Prop)
    (st : services * activity) : Prop :=
  (kinesis st.1 = kinesis svc0 ++ [st.2] ∧
   ∃ id sk, st.2 !! "dynamoKey" = Some (VStr id) ∧
     st.2 !! "sk" = Some (VStr sk) ∧
     activities_table st.1 = <[(id, sk) := st.2]> (activities_table svc0))
  ∧ P st.2.

Lemma put_item_stores svc0 P :
  triple (quiet svc0 P) put_item (λ _, stored svc0 P) (λ _, quiet svc0 P).
Proof.
  intros [svc a] [[Hk Ht] HP]. cbn in *.
  unfold put_item, the_activity, on_services, mbind, run_bind. cbn.
  unfold put_item_kinesis, put_activity, get_str, getitem.
  destruct (a !! "dynamoKey") as [[]|] eqn:Hid; cbn;
    try by (split; [split|]).
  destruct (a !! "sk") as [[]|] eqn:Hsk; cbn; try by (split; [split|]).
  split; [|done]. split.
  - destruct svc; cbn in *. by rewrite Hk.
  - eexists _, _. split; [done|]. split; [done|].
    destruct svc; cbn in *. by rewrite Ht.
Qed.

Section Quiet.
Variable svc0 : services.
Variable P : activity → Prop.
Hypothesis P_setitem :
  ∀ a k v, k ≠ "mystatus" → k ≠ "errors" → P a → P (<[k := v]> a).

Lemma keeps_field k v :
  k ≠ "mystatus" → k ≠ "errors" → keeps (quiet svc0 P) (setitem k v).
Proof.
  intros Hk He. apply keeps_setitem. intros svc a [Hs HP].
  split; [done|]. by apply P_setitem.
Qed.

Lemma keeps_create_cog t key raster nd :
  keeps (quiet svc0 P)
        (on_services (λ svc, create_cog_in_s3 svc t key raster nd)).
Proof.
  apply keeps_on_services. intros svc svc' a [Hs HP] H.
  unfold create_cog_in_s3 in H. destruct t; [|done].
  injection H as <-. by destruct svc.
Qed.

Lemma keeps_delete key :
  keeps (quiet svc0 P) (on_services (λ svc, Ok (delete_file_S3 svc key))).
Proof.
  apply keeps_on_services. intros svc svc' a [Hs HP] [= <-]. by destruct svc.
Qed.

#[local] Hint Resolve keeps_create_cog keeps_delete : run.
#[local] Hint Extern 1 (keeps _ (setitem _ _)) =>
  apply keeps_field; discriminate : run.

Lemma keeps_write_merged w key is_quality activity_mask st :
  keeps (quiet svc0 P) (write_merged w key is_quality activity_mask st).
Proof. unfold write_merged. keeps_go. Qed.

#[local] Hint Resolve keeps_write_merged : run.

Lemma warp_and_merge_stores w key :
  triple (quiet svc0 P) (warp_and_merge w key)
         (λ _, stored svc0 P) (λ _, quiet svc0 P).
Proof.
  unfold warp_and_merge. repeat triple_step. apply put_item_stores.
Qed.

Lemma reuse_merged_stores w prefix key activity_mask :
  triple (quiet svc0 P) (reuse_merged w prefix key activity_mask)
         (λ _, stored svc0 P) (λ _, quiet svc0 P).
Proof.
  unfold reuse_merged. repeat triple_step. apply put_item_stores.
Qed.

End Quiet.

Definition any (a : activity) : Prop := True.

Definition is_done (a : activity) : Prop :=
  a !! "mystatus" = Some (VStr "DONE").

Definition failed (step : string) (a : activity) : Prop :=
  a !! "mystatus" = Some (VStr "ERROR") ∧
  ∃ message,
    a !! "errors" = Some (VDict [("step", VStr step);
                                 ("message", VStr message)]).

Lemma any_setitem a k v :
  k ≠ "mystatus" → k ≠ "errors" → any a → any (<[k := v]> a).
Proof. done. Qed.

Lemma is_done_setitem a k v :
  k ≠ "mystatus" → k ≠ "errors" → is_done a → is_done (<[k := v]> a).
Proof. intros Hk _ H. unfold is_done. by rewrite lookup_insert_ne. Qed.

Lemma failed_setitem step a k v :
  k ≠ "mystatus" → k ≠ "errors" → failed step a → failed step (<[k := v]> a).
Proof. intros Hk He [Hs Hm]. unfold failed. by rewrite !lookup_insert_ne. Qed.

Lemma triple_setitem svc0 (P P' : activity → Prop) k v E :
  (∀ a, P a → P' (<[k := v]> a)) →
  triple (quiet svc0 P) (setitem k v) (λ _, quiet svc0 P') E.
Proof. intros H [svc a] [Hs HP]. split; [done|]. by apply H. Qed.

(** The handler of a worker's [except Exception as e]. *)
Definition fail_with (step : string) (e : exn) : run unit :=
  setitem "mystatus" (VStr "ERROR");;
  setitem "errors" (VDict [("step", VStr step);
                           ("message", VStr (exn_message e))]);;
  svc ← the_services;
  setitem "myend" (VStr (now svc));;
  put_item.

Lemma fail_with_stores svc0 P step e :
  triple (quiet svc0 P) (fail_with step e)
         (λ _, stored svc0 (failed step)) (λ _, quiet svc0 any).
Proof.
  unfold fail_with.
  eapply triple_bind.
  { apply (triple_setitem _ _
             (λ a, a !! "mystatus" = Some (VStr "ERROR"))).
    intros b _. by rewrite lookup_insert_eq. }
  intros ?. eapply triple_bind.
  { apply (triple_setitem _ _ (failed step)).
    intros b Hs. split.
    - by rewrite lookup_insert_ne.
    - eexists. by rewrite lookup_insert_eq. }
  intros ?.
  apply (triple_conseq _ (quiet svc0 (failed step)) _ _
           (λ _, stored svc0 (failed step)) _
           (λ _, quiet svc0 (failed step))); [|done|done|by intros ? ? [? ?]].
  apply triple_seq; [apply keeps_the_services| |done].
  intros svc.
  apply triple_seq; [|intros ?; apply put_item_stores|done].
  apply (keeps_field svc0 (failed step)); [apply failed_setitem|done|done].
Qed.

Lemma merge_warped_triple w svc0 :
  triple (quiet svc0 any) (merge_warped w)
         (λ _, stored svc0 (λ a, is_done a ∨ failed "merge" a))
         (λ _, quiet svc0 any).
Proof.
  unfold merge_warped.
  assert (Hany : ∀ k v, k ≠ "mystatus" → k ≠ "errors" →
                        keeps (quiet svc0 any) (setitem k v)).
  { intros k v. apply (keeps_field svc0 any). apply any_setitem. }
  assert (Hdone : ∀ k v, k ≠ "mystatus" → k ≠ "errors" →
                         keeps (quiet svc0 is_done) (setitem k v)).
  { intros k v. apply (keeps_field svc0 is_done). apply is_done_setitem. }
  do 4 triple_step.
  apply triple_seq; [by apply Hany|intros ?|done].
  eapply triple_bind.
  { apply (triple_setitem _ _ is_done). intros b _.
    unfold is_done. by rewrite lookup_insert_eq. }
  intros ?.
  apply triple_seq; [apply keeps_lift|intros activity_mask|quiet_weaken].
  apply (triple_try _ _ _ _ _ (λ _, quiet svc0 is_done)).
  - apply (triple_conseq _ (quiet svc0 is_done) _ _
             (λ _, stored svc0 is_done) _ (λ _, quiet svc0 is_done));
      [|done| |done].
    2:{ intros _ st [Hs Hd]. split; [done|]. by left. }
    destruct (negb _ && _).
    + apply (triple_try _ _ _ _ _ (λ _, quiet svc0 is_done)).
      * apply (reuse_merged_stores svc0 is_done). apply is_done_setitem.
      * intros e. apply triple_seq; [|intros ?|done].
        -- apply (keeps_delete svc0 is_done).
        -- apply (warp_and_merge_stores svc0 is_done).
           apply is_done_setitem.
    + apply (warp_and_merge_stores svc0 is_done). apply is_done_setitem.
  - intros e.
    apply (triple_conseq _ (quiet svc0 is_done) _ _
             (λ _, stored svc0 (failed "merge")) _ (λ _, quiet svc0 any));
      [|done| |done].
    2:{ intros _ st [Hs Hd]. split; [done|]. by right. }
    apply (fail_with_stores svc0 is_done "merge" e).
Qed.

(** X5. Every run of the MERGE worker that returns has put the activity,
    as it is at the end, once on the stream and under its key in the
    activity table, with [mystatus] DONE, or ERROR and the step and message
    of the error; a run that raises has put nothing. *)
Theorem merge_warped_stores_once (w : world) (svc : services) (a : activity) :
  match merge_warped w (svc, a) with
  | (Ok _, (svc', a')) =>
      kinesis svc' = kinesis svc ++ [a'] ∧
      (∃ id sk, a' !! "dynamoKey" = Some (VStr id) ∧
         a' !! "sk" = Some (VStr sk) ∧
         activities_table svc' = <[(id, sk) := a']> (activities_table svc)) ∧
      (a' !! "mystatus" = Some (VStr "DONE") ∨
       a' !! "mystatus" = Some (VStr "ERROR") ∧
       ∃ message,
         a' !! "errors" = Some (VDict [("step", VStr "merge");
                                       ("message", VStr message)]))
  | (Raise _, (svc', _)) =>
      kinesis svc' = kinesis svc ∧
      activities_table svc' = activities_table svc
  end.
Proof.
  pose proof (merge_warped_triple w svc (svc, a)) as H.
  destruct (merge_warped w (svc, a)) as [[[]|e] [svc' a']].
  - destruct H as [[Hk Ht] Hs]; [done|]. done.
  - destruct H as [Hs _]; done.
Qed.


(** *** The BLEND worker *)

Lemma triple_ret {A} (P : services * activity → Prop) (a : A) Q E :
  (∀ st, P st → Q a st) → triple P (mret a) Q E.
Proof. intros H st HP. by apply H. Qed.

Lemma keeps_with_s3 svc0 P f :
  keeps (quiet svc0 P) (on_services (λ svc, Ok (with_s3 f svc))).
Proof.
  apply keeps_on_services. intros svc svc' a [Hs HP] [= <-]. by destruct svc.
Qed.

#[local] Hint Resolve keeps_create_cog keeps_with_s3 : run.
#[local] Hint Extern 1 (keeps (quiet _ any) (setitem _ _)) =>
  apply keeps_field; [apply any_setitem|discriminate|discriminate] : run.

Lemma keeps_upload_internal svc0 a functions suffix dtype data :
  keeps (quiet svc0 any) (upload_internal a functions suffix dtype data).
Proof.
  induction functions as [|func rest IH]; cbn [upload_internal]; keeps_go.
Qed.

Lemma keeps_write_composite svc0 a functions internal_band func profile
    raster nodata :
  keeps (quiet svc0 any)
        (write_composite a functions internal_band func profile raster nodata).
Proof. unfold write_composite. keeps_go. Qed.

#[local] Hint Resolve keeps_upload_internal keeps_write_composite : run.

Lemma store_error_stores svc0 P message :
  triple (quiet svc0 P) (store_error message)
         (λ _, stored svc0 (failed "blend")) (λ _, quiet svc0 any).
Proof.
  unfold store_error.
  eapply triple_bind.
  { apply (triple_setitem _ _
             (λ a, a !! "mystatus" = Some (VStr "ERROR"))).
    intros b _. by rewrite lookup_insert_eq. }
  intros ?. eapply triple_bind.
  { apply (triple_setitem _ _ (failed "blend")).
    intros b Hs. split.
    - by rewrite lookup_insert_ne.
    - eexists. by rewrite lookup_insert_eq. }
  intros ?.
  apply (triple_conseq _ (quiet svc0 (failed "blend")) _ _
           (λ _, stored svc0 (failed "blend")) _
           (λ _, quiet svc0 (failed "blend")));
    [|done|done|by intros ? ? [? ?]].
  apply put_item_stores.
Qed.

Lemma open_scenes_stores svc0 w prefix dirname scenes quality_band band order :
  triple (quiet svc0 any)
         (open_scenes w prefix dirname scenes quality_band band order)
         (λ opened,
            match opened with
            | Some _ => quiet svc0 any
            | None => stored svc0 (failed "blend")
            end)
         (λ _, quiet svc0 any).
Proof.
  induction order as [|[score key] rest IH]; cbn [open_scenes].
  - by apply triple_ret.
  - do 4 triple_step.
    destruct (rasterio_open w _) as [ssrc|e].
    + eapply triple_bind; [apply IH|].
      intros [opened|]; by apply triple_ret.
    + eapply triple_bind; [apply store_error_stores|].
      intros ?. by apply triple_ret.
Qed.

Lemma blend_body_stores svc0 w a prefix band nodata :
  triple (quiet svc0 any) (blend_body w a prefix band nodata)
         (λ _, stored svc0 (λ a, is_done a ∨ failed "blend" a))
         (λ _, quiet svc0 any).
Proof.
  unfold blend_body. do 9 triple_step.
  eapply triple_bind; [apply open_scenes_stores|].
  intros [opened|].
  - repeat triple_step.
    eapply triple_bind.
    { apply (triple_setitem _ _ is_done). intros b _.
      unfold is_done. by rewrite lookup_insert_eq. }
    intros ?.
    apply (triple_conseq _ (quiet svc0 is_done) _ _
             (λ _, stored svc0 is_done) _ (λ _, quiet svc0 is_done));
      [apply put_item_stores|done| |by intros ? ? [? ?]].
    intros _ st [Hs Hd]. split; [done|]. by left.
  - apply triple_ret. intros st [Hs Hf]. split; [done|]. by right.
Qed.

Lemma blend_triple w svc0 :
  triple (quiet svc0 any) (blend w)
         (λ _, stored svc0 (λ a, is_done a ∨ failed "blend" a))
         (λ _, quiet svc0 any).
Proof.
  unfold blend. do 10 triple_step.
  apply triple_seq; [apply keeps_lift|intros missing|done].
  destruct missing.
  - apply (triple_conseq _ (quiet svc0 any) _ _
             (λ _, stored svc0 (failed "blend")) _ (λ _, quiet svc0 any));
      [apply store_error_stores|done| |done].
    intros _ st [Hs Hf]. split; [done|]. by right.
  - apply (triple_try _ _ _ _ _ (λ _, quiet svc0 any)).
    + apply blend_body_stores.
    + intros e.
      apply (triple_conseq _ (quiet svc0 any) _ _
               (λ _, stored svc0 (failed "blend")) _ (λ _, quiet svc0 any));
        [apply (fail_with_stores svc0 any "blend" e)|done| |done].
      intros _ st [Hs Hf]. split; [done|]. by right.
Qed.

(** X6. Every run of the BLEND worker that returns has put the activity,
    as it is at the end, once on the stream and under its key in the
    activity table, with [mystatus] DONE, or ERROR and the step and message
    of the error; a run that raises has put nothing. *)
Theorem blend_stores_once (w : world) (svc : services) (a : activity) :
  match blend w (svc, a) with
  | (Ok _, (svc', a')) =>
      kinesis svc' = kinesis svc ++ [a'] ∧
      (∃ id sk, a' !! "dynamoKey" = Some (VStr id) ∧
         a' !! "sk" = Some (VStr sk) ∧
         activities_table svc' = <[(id, sk) := a']> (activities_table svc)) ∧
      (a' !! "mystatus" = Some (VStr "DONE") ∨
       a' !! "mystatus" = Some (VStr "ERROR") ∧
       ∃ message,
         a' !! "errors" = Some (VDict [("step", VStr "blend");
                                       ("message", VStr message)]))
  | (Raise _, (svc', _)) =>
      kinesis svc' = kinesis svc ∧
      activities_table svc' = activities_table svc
  end.
Proof.
  pose proof (blend_triple w svc (svc, a)) as H.
  destruct (blend w (svc, a)) as [[[]|e] [svc' a']].
  - destruct H as [[Hk Ht] Hs]; [done|]. done.
  - destruct H as [Hs _]; done.
Qed.


(** *** A merge with a shape *)

Lemma keeps_true {A} (m : run A) : keeps (λ _, True) m.
Proof. intros st _. by destruct (m st) as [[a|e] st']. Qed.

Lemma triple_lift_bind {A B} P (r : result A) (f : A → run B) Q E :
  (∀ x, r = Ok x → triple P (f x) Q E) →
  (∀ e st, r = Raise e → P st → E e st) →
  triple P (lift r ≫= f) Q E.
Proof.
  intros Hf HE st HP. unfold mbind, run_bind, lift.
  destruct r as [x|e]; [by apply Hf|by apply HE].
Qed.

Lemma triple_at_activity {B} st0 (f : activity → run B) Q E :
  triple (λ st, st = st0) (f st0.2) Q E →
  triple (λ st, st = st0) (the_activity ≫= f) Q E.
Proof. intros H st ->. unfold mbind, run_bind, the_activity. by apply H. Qed.

Lemma triple_at_services {B} st0 (f : services → run B) Q E :
  triple (λ st, st = st0) (f st0.1) Q E →
  triple (λ st, st = st0) (the_services ≫= f) Q E.
Proof. intros H st ->. unfold mbind, run_bind, the_services. by apply H. Qed.

Lemma triple_at_setitem {B} st0 k v (f : unit → run B) Q E :
  triple (λ st, st = (st0.1, <[k := v]> st0.2)) (f ()) Q E →
  triple (λ st, st = st0) (setitem k v ≫= f) Q E.
Proof. intros H st ->. unfold mbind, run_bind, setitem. by apply H. Qed.

Lemma target_grid_shape a x y new_res :
  truthy (default VNone (a !! "shape")) = true →
  target_grid a = Ok (x, y, new_res) → new_res = None.
Proof.
  intros Hshape H. unfold target_grid in H.
  repeat (apply bind_Ok in H as (? & _ & H)).
  rewrite Hshape in H.
  repeat (apply bind_Ok in H as (? & _ & H)).
  by injection H as _ _ <-.
Qed.

Ltac raise_step :=
  cbv beta;
  lazymatch goal with
  | |- triple _ (lift (of_option None _) ≫= _) _ _ =>
      apply triple_lift_bind; [intros ? [=]|done]
  | |- triple _ (mbind _ _) _ _ =>
      apply triple_seq; [apply keeps_true|intros ?|done]
  | |- triple _ (match ?p with _ => _ end) _ _ => destruct p
  end.

Lemma triple_activity_pure {B} (φ : activity → Prop) (f : activity → run B)
    Q E :
  (∀ a, φ a → triple (λ _, True) (f a) Q E) →
  triple (λ st, φ st.2) (the_activity ≫= f) Q E.
Proof.
  intros H st Hφ. unfold mbind, run_bind, the_activity. by apply (H st.2).
Qed.

Lemma warp_and_merge_shape_raises w key :
  triple (λ st, truthy (default VNone (st.2 !! "shape")) = true)
         (warp_and_merge w key) (λ _ _, False) (λ _ _, True).
Proof.
  unfold warp_and_merge.
  apply (triple_activity_pure
           (λ a, truthy (default VNone (a !! "shape")) = true)).
  intros a Hshape.
  apply triple_lift_bind; [|done].
  intros [[x y] new_res] Hgrid.
  apply (target_grid_shape _ _ _ _ Hshape) in Hgrid as ->.
  repeat raise_step.
Qed.

Lemma fail_with_fails step e :
  triple (λ _, True) (fail_with step e)
         (λ _ st, failed step st.2) (λ _ _, True).
Proof.
  intros st _.
  pose proof (fail_with_stores st.1 any step e st) as H.
  destruct (fail_with step e st) as [[[]|e'] st']; [|done].
  by destruct H as [_ Hf].
Qed.

(** X7. A merge with a shape that does not reuse a merged file never ends
    DONE: the new resolutions are bound only without a shape, so when the
    worker returns the activity is stored with [mystatus] ERROR. *)
Theorem merge_warped_shape_never_done (w : world) (svc : services)
    (a : activity) :
  truthy (default VNone (a !! "shape")) = true →
  (truthy (default VNone (a !! "force")) = true ∨
   ∀ key, a !! "ARDfile" = Some (VStr key) → s3 svc !! key = None) →
  match merge_warped w (svc, a) with
  | (Ok _, (svc', a')) =>
      a' !! "mystatus" = Some (VStr "ERROR") ∧
      (∃ message,
         a' !! "errors" = Some (VDict [("step", VStr "merge");
                                       ("message", VStr message)])) ∧
      kinesis svc' = kinesis svc ++ [a']
  | (Raise _, _) => True
  end.
Proof.
  intros Hshape Hfresh.
  assert (H : triple (λ st, st = (svc, a)) (merge_warped w)
                (λ _ st, failed "merge" st.2) (λ _ _, True)).
  { unfold merge_warped.
    apply triple_at_activity. cbn [fst snd].
    apply triple_lift_bind; [intros key Hkey|done].
    apply triple_lift_bind; [intros bucket _|done].
    apply triple_at_services. cbn [fst snd].
    apply triple_at_setitem. cbn [fst snd].
    apply triple_at_setitem. cbn [fst snd].
    apply triple_lift_bind; [intros activity_mask _|done].
    apply (triple_try _ _ _ _ _ (λ _ _, True));
      [|intros e; apply fail_with_fails].
    assert (Hpath : negb (truthy (default VNone (a !! "force")))
                    && s3_file_exists svc key = false).
    { destruct Hfresh as [->|Hnone]; [done|].
      unfold s3_file_exists. rewrite Hnone.
      - rewrite bool_decide_eq_false_2; [apply andb_false_r|].
        by intros [? ?].
      - unfold get_str, getitem in Hkey.
        destruct (a !! "ARDfile") as [[]|]; try done. by injection Hkey as ->. }
    rewrite Hpath.
    apply (triple_conseq _ _ _ _ _ _ _ (warp_and_merge_shape_raises w key));
      [|done|done].
    intros st ->. cbn. by rewrite !lookup_insert_ne. }
  pose proof (merge_warped_triple w svc (svc, a)) as Hstore.
  specialize (H (svc, a) eq_refl).
  destruct (merge_warped w (svc, a)) as [[[]|e] [svc' a']]; [|done].
  destruct H as [Hs He]. destruct Hstore as [[Hk _] _]; done.
Qed.

Lemma merge_warped_shape_never_done_witness :
  let w := MergeFacts.world_of (MergeFacts.scene_files 3 (-9999) 5 7) in
  let a := MergeFacts.merge_activity "nir" "LANDSAT-8"
             (VList [VInt 2; VInt 1]) 255 in
  truthy (default VNone (a !! "shape")) = true ∧
  (merge_warped w (MergeFacts.svc_empty, a)).1 = Ok () ∧
  match merge_warped w (MergeFacts.svc_empty, a) with
  | (Ok _, (svc', a')) =>
      a' !! "mystatus" = Some (VStr "ERROR") ∧
      (∃ message,
         a' !! "errors" = Some (VDict [("step", VStr "merge");
                                       ("message", VStr message)])) ∧
      kinesis svc' = kinesis MergeFacts.svc_empty ++ [a']
  | (Raise _, _) => True
  end.
Proof.
  intros w a.
  split; [vm_compute; reflexivity|].
  split; [vm_compute; reflexivity|].
  apply merge_warped_shape_never_done; [vm_compute; reflexivity|].
  left. vm_compute. reflexivity.
Defined.

(** *** A band that a scene lacks *)

Ltac at_raise :=
  let H := fresh in intros ? ? _ H; cbv beta in H; by subst.

Lemma store_error_at st0 message :
  triple (λ st, st = st0) (store_error message)
    (λ _ st',
       s3 st'.1 = s3 st0.1 ∧ kinesis st'.1 = kinesis st0.1 ++ [st'.2] ∧
       st'.2 = <["errors" := VDict [("step", VStr "blend");
                                    ("message", VStr message)]]>
                 (<["mystatus" := VStr "ERROR"]> st0.2))
    (λ _ st', s3 st'.1 = s3 st0.1).
Proof.
  intros st ->. destruct st0 as [svc a].
  unfold store_error, setitem, put_item, the_activity, on_services,
    mbind, run_bind. cbn.
  unfold put_item_kinesis, put_activity.
  destruct (get_str _ "dynamoKey") as [id|e]; cbn; [|done].
  destruct (get_str _ "sk") as [sk|e]; cbn; [|done].
  by destruct svc.
Qed.

(** X8. When a scene of the activity has no file for the band, the BLEND
    worker computes and writes nothing: it stores the activity with
    [mystatus] ERROR and the message [ERROR band <band>], and object
    storage is as it was. *)
Theorem blend_band_missing (w : world) (svc : services) (a : activity)
    (band : string) (scenes : list (string * pyval)) :
  a !! "band" = Some (VStr band) →
  a !! "scenes" = Some (VDict scenes) →
  band_missing band scenes = Ok true →
  match blend w (svc, a) with
  | (Ok _, (svc', a')) =>
      s3 svc' = s3 svc ∧ kinesis svc' = kinesis svc ++ [a'] ∧
      a' !! "mystatus" = Some (VStr "ERROR") ∧
      a' !! "errors" =
        Some (VDict [("step", VStr "blend");
                     ("message", VStr ("ERROR band " +:+ band))])
  | (Raise _, (svc', _)) => s3 svc' = s3 svc
  end.
Proof.
  intros Hband Hscenes Hmissing.
  assert (H : triple (λ st, st = (svc, a)) (blend w)
                (λ _ st',
                   s3 st'.1 = s3 svc ∧ kinesis st'.1 = kinesis svc ++ [st'.2] ∧
                   st'.2 !! "mystatus" = Some (VStr "ERROR") ∧
                   st'.2 !! "errors" =
                     Some (VDict [("step", VStr "blend");
                                  ("message", VStr ("ERROR band " +:+ band))]))
                (λ _ st', s3 st'.1 = s3 svc)).
  { unfold blend.
    apply triple_at_services. cbn [fst snd].
    apply triple_at_setitem. cbn [fst snd].
    apply triple_at_activity. cbn [fst snd].
    apply triple_lift_bind; [intros b Hb|at_raise].
    unfold getitem in Hb. rewrite lookup_insert_ne, Hband in Hb by done.
    injection Hb as <-.
    apply triple_at_setitem. cbn [fst snd].
    apply triple_at_activity. cbn [fst snd].
    apply triple_lift_bind; [intros bucket _|at_raise].
    apply triple_lift_bind; [intros nodata _|at_raise].
    apply triple_lift_bind; [intros scenes' Hs|at_raise].
    unfold getitem in Hs.
    rewrite !lookup_insert_ne, Hscenes in Hs by done.
    injection Hs as <-.
    apply triple_lift_bind; [intros band_name [= <-]|at_raise].
    apply triple_lift_bind; [intros missing Hm|at_raise].
    rewrite Hmissing in Hm. injection Hm as <-.
    eapply triple_conseq;
      [apply store_error_at|intros ? Hst; exact Hst|
       |intros ? ? Hs3; exact Hs3].
    intros _ [svc' a'] (Hs3 & Hk & Ha'). cbn [fst snd] in *.
    split; [done|]. split; [done|]. subst a'.
    by rewrite lookup_insert_ne, !lookup_insert_eq. }
  specialize (H (svc, a) eq_refl).
  by destruct (blend w (svc, a)) as [[[]|e] [svc' a']].
Qed.


Definition blend_activity_no_band : activity :=
  <["band" := VStr "nir"]>
  (<["quality_band" := VStr "quality"]>
  (<["bucket_name" := VStr "bucket"]>
  (<["dynamoKey" := VStr "blendLC8_30_16D_STK0123452020-01-012020-01-16"]>
  (<["mask" := VDict [("nodata", VInt 255)]]>
  (<["scenes" :=
       VDict [("2020-01-05",
               VDict [("date", VStr "2020-01-05");
                      ("ARDfiles", VDict [("quality", VStr "q.tif")])])]]>
   ∅))))).

Lemma blend_band_missing_witness :
  let w := MergeFacts.world_of ∅ in
  let a := blend_activity_no_band in
  let scenes :=
    [("2020-01-05",
      VDict [("date", VStr "2020-01-05");
             ("ARDfiles", VDict [("quality", VStr "q.tif")])])] in
  band_missing "nir" scenes = Ok true ∧
  (blend w (MergeFacts.svc_empty, a)).1 = Ok () ∧
  match blend w (MergeFacts.svc_empty, a) with
  | (Ok _, (svc', a')) =>
      s3 svc' = s3 MergeFacts.svc_empty ∧
      kinesis svc' = kinesis MergeFacts.svc_empty ++ [a'] ∧
      a' !! "mystatus" = Some (VStr "ERROR") ∧
      a' !! "errors" =
        Some (VDict [("step", VStr "blend");
                     ("message", VStr ("ERROR band " +:+ "nir"))])
  | (Raise _, (svc', _)) => s3 svc' = s3 MergeFacts.svc_empty
  end.
Proof.
  intros w a scenes.
  split; [reflexivity|].
  split; [vm_compute; reflexivity|].
  apply (blend_band_missing w MergeFacts.svc_empty a "nir" scenes);
    [vm_compute; reflexivity|vm_compute; reflexivity|reflexivity].
Defined.

(** *** The fill of the merged raster *)




End WorkerFacts.

(** ** The fixed-width scene ids *)

Module ParserFacts.
Import SceneParser Py Sentinel.

(** *** Strings *)

Lemma length_append (a b : string) :
  String.length (a +:+ b) = (String.length a + String.length b)%nat.
Proof. induction a as [|c a IH]; simpl; [done|]. by f_equal. Qed.

Lemma append_assoc (a b c : string) : a +:+ (b +:+ c) = (a +:+ b) +:+ c.
Proof.
  induction a as [|x a IH]; [done|].
  change (String x (a +:+ (b +:+ c)) = String x ((a +:+ b) +:+ c)).
  by f_equal.
Qed.

Lemma substring_prefix (g rest : string) :
  substring 0 (String.length g) (g +:+ rest) = g.
Proof. induction g as [|c g IH]; simpl; [by destruct rest|]. by f_equal. Qed.

Lemma substring_skip (g rest : string) (off n : nat) :
  substring (String.length g + off) n (g +:+ rest) = substring off n rest.
Proof. induction g as [|c g IH]; simpl; done. Qed.

(** *** The pieces *)

Fixpoint names (p : list part) : list string :=
  match p with
  | [] => []
  | Named name _ :: p' => name :: names p'
  | _ :: p' => names p'
  end.

(** The groups of a pattern: name, offset and width. *)
Fixpoint fields (p : list part) (off : nat) : list (string * (nat * nat)) :=
  match p with
  | [] => []
  | Start :: p' | End_ :: p' => fields p' off
  | Out _ :: p' => fields p' (S off)
  | Named name body :: p' =>
      (name, (off, length body)) :: fields p' (off + length body)
  end.

Fixpoint width (p : list part) : nat :=
  match p with
  | [] => 0
  | Start :: p' | End_ :: p' => width p'
  | Out _ :: p' => S (width p')
  | Named _ body :: p' => length body + width p'
  end.

Lemma take_pieces_split body s g rest :
  take_pieces body s = Some (g, rest) →
  s = g +:+ rest ∧ String.length g = length body.
Proof.
  revert s g rest. induction body as [|x body IH]; intros s g rest; cbn.
  - intros [= <- <-]. done.
  - destruct s as [|c s]; [done|].
    destruct (piece_matches x c); [|done].
    destruct (take_pieces body s) as [[g' rest']|] eqn:E; cbn; [|done].
    intros [= <- <-]. destruct (IH _ _ _ E) as [-> <-]. done.
Qed.

Lemma match_parts_frame p start s groups m name :
  name ∉ names p →
  match_parts p start s groups = Some m →
  m !! name = groups !! name.
Proof.
  revert start s groups.
  induction p as [|i p IH]; intros start s groups; cbn.
  - intros _ [= <-]. done.
  - destruct i as [| |x|name' body]; intros Hn.
    + destruct start; [|done]. by apply IH.
    + destruct (at_eol s); [|done]. by apply IH.
    + destruct s as [|d s]; [done|].
      destruct (piece_matches x d); [|done]. by apply IH.
    + destruct (take_pieces body s) as [[g rest]|]; cbn; [|done].
      apply not_elem_of_cons in Hn as [Hne Hn].
      intros H. apply IH in H; [|done].
      by rewrite H, lookup_insert_ne.
Qed.

Lemma fields_shift p k off :
  fields p (k + off)
  = (λ f : string * (nat * nat), (f.1, (k + f.2.1, f.2.2))%nat)
      <$> fields p off.
Proof.
  revert off. induction p as [|i p IH]; intros off; cbn; [done|].
  destruct i as [| |x|name body]; cbn.
  - apply IH.
  - apply IH.
  - rewrite <- IH. f_equal. lia.
  - f_equal. rewrite <- IH. f_equal. lia.
Qed.

(** Every group of a match is the substring at its offset. *)
Lemma match_parts_fields p :
  ∀ start s groups m,
  match_parts p start s groups = Some m →
  NoDup (names p) →
  ∀ name off n, (name, (off, n)) ∈ fields p 0 →
    m !! name = Some (substring off n s).
Proof.
  induction p as [|i p IH]; intros start s groups m H Hnd name off n Hin.
  { by apply elem_of_nil in Hin. }
  destruct i as [| |x|name' body]; cbn in H, Hin, Hnd.
  - destruct start; [|done]. by eapply IH.
  - destruct (at_eol s); [|done]. by eapply IH.
  - destruct s as [|d s]; [done|].
    destruct (piece_matches x d); [|done].
    change 1%nat with (1 + 0)%nat in Hin. rewrite fields_shift in Hin.
    apply list_elem_of_fmap in Hin as ([name0 [off0 n0]] & [= -> -> ->] & Hin).
    cbn. by eapply IH.
  - destruct (take_pieces body s) as [[g rest]|] eqn:Hg; cbn in H; [|done].
    apply take_pieces_split in Hg as [-> Hlen].
    apply NoDup_cons in Hnd as [Hfresh Hnd].
    apply elem_of_cons in Hin as [[= -> -> ->]|Hin].
    + rewrite (match_parts_frame _ _ _ _ _ _ Hfresh H), lookup_insert_eq.
      by rewrite <- Hlen, substring_prefix.
    + rewrite <- (Nat.add_0_r (length body)), fields_shift in Hin.
      apply list_elem_of_fmap in Hin
        as ([name0 [off0 n0]] & [= -> -> ->] & Hin).
      cbn. rewrite <- Hlen, substring_skip. by eapply IH.
Qed.

(** A match up to [$] covers the whole string but for a last newline. *)
Lemma match_parts_body q :
  ∀ start s groups m,
  match_parts (q ++ [End_]) start s groups = Some m →
  ∃ body, String.length body = width q ∧
          (s = body ∨ s = body +:+ String newline EmptyString).
Proof.
  induction q as [|i q IH]; intros start s groups m H; cbn in H.
  - exists EmptyString. split; [done|].
    destruct s as [|c [|d s]]; cbn in H; [by left| |done].
    case_bool_decide as Hc; [|done]. subst c. by right.
  - destruct i as [| |x|name body]; cbn [width].
    + destruct start; [|done]. by eapply IH.
    + destruct (at_eol s); [|done]. by eapply IH.
    + destruct s as [|d s]; [done|].
      destruct (piece_matches x d); [|done].
      destruct (IH _ _ _ _ H) as (b & Hb & Hs).
      exists (String d b). split; [cbn; by rewrite Hb|].
      destruct Hs as [->| ->]; [by left|by right].
    + destruct (take_pieces body s) as [[g rest]|] eqn:Hg; cbn in H; [|done].
      apply take_pieces_split in Hg as [-> Hlen].
      destruct (IH _ _ _ _ H) as (b & Hb & Hs).
      exists (g +:+ b). split; [rewrite length_append; lia|].
      destruct Hs as [->| ->]; [by left|right].
      apply append_assoc.
Qed.

(** *** Landsat through the same pieces *)

Definition pieces_of (i : item) : part :=
  match i with
  | Bol => Start
  | Eol => End_
  | Lit c => Out (One c)
  | Group name k n => Named name (replicate n (Class k))
  end.

Lemma take_cls_pieces k n s :
  take_cls k n s = take_pieces (replicate n (Class k)) s.
Proof.
  revert s. induction n as [|n IH]; intros s; cbn; [done|].
  destruct s as [|c s]; [done|]. cbn. by rewrite IH.
Qed.

Lemma match_items_parts p :
  ∀ start s groups,
  match_items p start s groups = match_parts (pieces_of <$> p) start s groups.
Proof.
  induction p as [|i p IH]; intros start s groups; cbn; [done|].
  destruct i as [| |c|name k n]; cbn.
  - by rewrite IH.
  - by rewrite IH.
  - destruct s as [|d s]; [done|]. cbn. by rewrite IH.
  - rewrite take_cls_pieces.
    destruct (take_pieces _ s) as [[g rest]|]; cbn; [|done].
    rewrite IH. by destruct n.
Qed.

Definition landsat_fields : list (string * (nat * nat)) :=
  [ ("sensor", (1, 1)); ("satellite", (2, 2));
    ("processingCorrectionLevel", (5, 4));
    ("path", (10, 3)); ("row", (13, 3));
    ("acquisitionYear", (17, 4)); ("acquisitionMonth", (21, 2));
    ("acquisitionDay", (23, 2));
    ("processingYear", (26, 4)); ("processingMonth", (30, 2));
    ("processingDay", (32, 2));
    ("collectionNumber", (35, 2)); ("collectionCategory", (38, 2)) ]%nat.

Lemma names_distinct (l : list string) :
  bool_decide (NoDup l) = true → NoDup l.
Proof. apply bool_decide_eq_true_1. Qed.

(** X10. The Landsat scene id is a fixed-width record: an id the parser
    accepts has exactly 40 characters, or 41 of which the last is a
    newline, and every field of the answer is the substring of the id at
    its own offset. *)
Theorem landsat_fixed_width (scene_id : string)
    (args record : gmap string string) :
  landsat scene_id args = Ok record →
  (∃ body, String.length body = 40%nat ∧
     (scene_id = body ∨ scene_id = body +:+ String newline EmptyString)) ∧
  record !! "scene_id" = Some scene_id ∧
  ∀ name off n, (name, (off, n)) ∈ landsat_fields →
    record !! name = Some (substring off n scene_id).
Proof.
  unfold landsat. intros H.
  apply bind_Ok in H as (meta & Hmeta & H).
  apply bind_Ok in H as (satellite & _ & H).
  apply bind_Ok in H as (instrument & _ & H).
  unfold SceneParser.dict_kwargs in H. case_bool_decide as Hd; [|done].
  injection H as <-.
  destruct (re_match landsat_pattern scene_id) as [m|] eqn:Hm; [|done].
  injection Hmeta as ->.
  unfold re_match in Hm. rewrite match_items_parts in Hm.
  split; [|split].
  - pose proof Hm as Hb.
    change (pieces_of <$> landsat_pattern)
      with (removelast (pieces_of <$> landsat_pattern) ++ [End_]) in Hb.
    destruct (match_parts_body _ _ _ _ _ Hb) as (body & Hlen & Hs).
    exists body. split; [exact Hlen|exact Hs].
  - apply lookup_union_Some_l. by rewrite lookup_insert_eq.
  - intros name off n Hin.
    assert (Hnd : NoDup (names (pieces_of <$> landsat_pattern)))
      by (apply names_distinct; vm_compute; reflexivity).
    pose proof (match_parts_fields _ _ _ _ _ Hm Hnd name off n Hin) as Hf.
    apply lookup_union_Some_l.
    rewrite lookup_insert_ne, lookup_insert_ne; [done| |].
    + intros Heq. subst name. unfold landsat_fields in Hin.
      repeat (apply elem_of_cons in Hin as [[=]|Hin]).
      by apply elem_of_nil in Hin.
    + intros Heq. subst name. unfold landsat_fields in Hin.
      repeat (apply elem_of_cons in Hin as [[=]|Hin]).
      by apply elem_of_nil in Hin.
Qed.

Definition lc08_record : gmap string string :=
  Eval vm_compute in
    match landsat "LC08_L1TP_220069_20190112_20190131_01_T1" ∅ with
    | Ok record => record
    | Raise _ => ∅
    end.

Lemma landsat_fixed_width_witness :
  landsat "LC08_L1TP_220069_20190112_20190131_01_T1" ∅ = Ok lc08_record ∧
  lc08_record !! "path" = Some "220" ∧ lc08_record !! "row" = Some "069".
Proof.
  assert (Hrun : landsat "LC08_L1TP_220069_20190112_20190131_01_T1" ∅
                 = Ok lc08_record)
    by reflexivity.
  split; [exact Hrun|].
  destruct (landsat_fixed_width _ _ _ Hrun) as (_ & _ & Hf).
  split.
  - apply (Hf "path" 10%nat 3%nat). apply list_elem_of_In. cbn. tauto.
  - apply (Hf "row" 13%nat 3%nat). apply list_elem_of_In. cbn. tauto.
Defined.

(** *** Sentinel-2 *)

Fixpoint bodies (p : list part) : list (string * list piece) :=
  match p with
  | [] => []
  | Named name body :: p' => (name, body) :: bodies p'
  | _ :: p' => bodies p'
  end.

Lemma take_pieces_self body s g rest :
  take_pieces body s = Some (g, rest) →
  take_pieces body g = Some (g, EmptyString).
Proof.
  revert s g rest. induction body as [|x body IH]; intros s g rest; cbn.
  - intros [= <- <-]. done.
  - destruct s as [|c s]; [done|].
    destruct (piece_matches x c) eqn:Hx; [|done].
    destruct (take_pieces body s) as [[g' rest']|] eqn:E; cbn; [|done].
    intros [= <- <-]. cbn. rewrite Hx. by rewrite (IH _ _ _ E).
Qed.

(** Every group of a match is made of the pieces of its body. *)
Lemma match_parts_bodies p :
  ∀ start s groups m,
  match_parts p start s groups = Some m →
  NoDup (names p) →
  ∀ name body, (name, body) ∈ bodies p →
    ∃ g, m !! name = Some g ∧ take_pieces body g = Some (g, EmptyString).
Proof.
  induction p as [|i p IH]; intros start s groups m H Hnd name body Hin.
  { by apply elem_of_nil in Hin. }
  destruct i as [| |x|name' body']; cbn in H, Hin, Hnd.
  - destruct start; [|done]. by eapply IH.
  - destruct (at_eol s); [|done]. by eapply IH.
  - destruct s as [|d s]; [done|].
    destruct (piece_matches x d); [|done]. by eapply IH.
  - destruct (take_pieces body' s) as [[g rest]|] eqn:Hg; cbn in H; [|done].
    apply NoDup_cons in Hnd as [Hfresh Hnd].
    apply elem_of_cons in Hin as [[= -> ->]|Hin]; [|by eapply IH].
    exists g. split; [|by eapply take_pieces_self].
    by rewrite (match_parts_frame _ _ _ _ _ _ Hfresh H), lookup_insert_eq.
Qed.

Lemma match_parts_dom p :
  ∀ start s groups m,
  match_parts p start s groups = Some m →
  dom m = dom groups ∪ list_to_set (names p).
Proof.
  induction p as [|i p IH]; intros start s groups m; cbn.
  - intros [= <-]. set_solver.
  - destruct i as [| |x|name body].
    + destruct start; [|done]. apply IH.
    + destruct (at_eol s); [|done]. apply IH.
    + destruct s as [|d s]; [done|].
      destruct (piece_matches x d); [|done]. apply IH.
    + destruct (take_pieces body s) as [[g rest]|]; cbn; [|done].
      intros H. apply IH in H. rewrite H, dom_insert_L. set_solver.
Qed.

Lemma digit_val_digit (c : ascii) :
  is_digit c = true → ∃ d, digit_val c = Some d ∧ 0 ≤ d ≤ 9.
Proof.
  unfold is_digit, in_range, digit_val. intros H. rewrite H.
  eexists. split; [done|].
  apply andb_true_iff in H as [H1 H2].
  apply Nat.leb_le in H1, H2. lia.
Qed.

(** [int] of a group [[0-9]{2}] is its two-digit number. *)
Lemma int_str_two_digits (g : string) :
  take_pieces (digits 2) g = Some (g, EmptyString) →
  ∃ v, int_str g = Ok v ∧ 0 ≤ v ≤ 99.
Proof.
  destruct g as [|a [|b [|c g]]]; cbn; try done.
  - by destruct (is_digit a).
  - destruct (is_digit a) eqn:Ha; [|done].
    destruct (is_digit b) eqn:Hb; [|done]. intros _.
    destruct (digit_val_digit _ Ha) as (da & Hda & ?).
    destruct (digit_val_digit _ Hb) as (db & Hdb & ?).
    unfold int_str. cbn. rewrite Hda, Hdb.
    eexists. split; [done|]. lia.
  - destruct (is_digit a); [|done]. by destruct (is_digit b).
Qed.

Definition sentinel_2_fields : list (string * (nat * nat)) :=
  [ ("sensor", (1, 1)); ("satellite", (2, 1)); ("processingLevel", (7, 3));
    ("acquisitionYear", (11, 4)); ("acquisitionMonth", (15, 2));
    ("acquisitionDay", (17, 2)); ("acquisitionHMS", (20, 6));
    ("baseline_number", (28, 4)); ("relative_orbit", (34, 3));
    ("utm", (39, 2)); ("lat", (41, 1)); ("sq", (42, 2));
    ("stopDateTime", (45, 15)) ]%nat.

(** The keys of the record [sentinel_2] builds before [args] is merged
    in. *)
Definition sentinel_2_keys : gset string :=
  list_to_set
    ("scene_id" :: "acquisitionMonthInteger" :: "acquisitionDayInteger"
       :: sentinel_2_fields.*1).

Definition with_integers (meta : gmap string string) (month day : Z)
    : gmap string pyval :=
  <["acquisitionDayInteger" := VInt day]>
    (<["acquisitionMonthInteger" := VInt month]> (VStr <$> meta)).

Lemma sentinel_2_names : NoDup (names sentinel_2_pattern).
Proof. apply names_distinct. vm_compute. reflexivity. Qed.

(** On an id that matches, neither lookup nor [int] can fail. *)
Lemma sentinel_2_matched scene_id args meta :
  match_parts sentinel_2_pattern true scene_id ∅ = Some meta →
  ∃ month day,
    int_str (substring 15 2 scene_id) = Ok month ∧
    int_str (substring 17 2 scene_id) = Ok day ∧
    0 ≤ month ≤ 99 ∧ 0 ≤ day ≤ 99 ∧
    sentinel_2 scene_id args
    = Sentinel.dict_kwargs scene_id (with_integers meta month day)
                           (VStr <$> args).
Proof.
  intros Hm.
  destruct (match_parts_bodies _ _ _ _ _ Hm sentinel_2_names
              "acquisitionMonth" (digits 2)) as (gm & Hgm & Hbm).
  { apply list_elem_of_In. cbn. tauto. }
  destruct (match_parts_bodies _ _ _ _ _ Hm sentinel_2_names
              "acquisitionDay" (digits 2)) as (gd & Hgd & Hbd).
  { apply list_elem_of_In. cbn. tauto. }
  destruct (int_str_two_digits _ Hbm) as (month & Hmonth & ?).
  destruct (int_str_two_digits _ Hbd) as (day & Hday & ?).
  assert (Hsm : meta !! "acquisitionMonth" = Some (substring 15 2 scene_id)).
  { apply (match_parts_fields _ _ _ _ _ Hm sentinel_2_names).
    apply list_elem_of_In. cbn. tauto. }
  assert (Hsd : meta !! "acquisitionDay" = Some (substring 17 2 scene_id)).
  { apply (match_parts_fields _ _ _ _ _ Hm sentinel_2_names).
    apply list_elem_of_In. cbn. tauto. }
  exists month, day.
  rewrite Hgm in Hsm. injection Hsm as <-.
  rewrite Hgd in Hsd. injection Hsd as <-.
  do 4 (split; [done|]).
  unfold sentinel_2. rewrite Hm. cbn. rewrite Hgm, Hgd. cbn.
  rewrite Hmonth, Hday. done.
Qed.

Lemma with_integers_dom scene_id meta month day :
  match_parts sentinel_2_pattern true scene_id ∅ = Some meta →
  {[ "scene_id" ]} ∪ dom (with_integers meta month day) = sentinel_2_keys.
Proof.
  intros Hm. apply match_parts_dom in Hm.
  unfold with_integers. rewrite !dom_insert_L, dom_fmap_L, Hm.
  unfold sentinel_2_keys. cbn. set_solver.
Qed.

(** X11. [sentinel_2] fails in two ways only: with the [AttributeError] of
    [groupdict] on [None] when the id does not match the pattern, and with
    the [TypeError] of a keyword given twice when [args] repeats a key of
    the record.  On an id that matches, no lookup and no [int] can fail,
    and the record has the keys of the pattern, the two integers, the id
    and those of [args]. *)
Theorem sentinel_2_outcome (scene_id : string) (args : gmap string string) :
  match sentinel_2 scene_id args with
  | Ok record =>
      is_Some (match_parts sentinel_2_pattern true scene_id ∅) ∧
      dom args ## sentinel_2_keys ∧
      dom record = sentinel_2_keys ∪ dom args
  | Raise (AttributeError _) =>
      match_parts sentinel_2_pattern true scene_id ∅ = None
  | Raise (TypeError _) =>
      is_Some (match_parts sentinel_2_pattern true scene_id ∅) ∧
      ¬ dom args ## sentinel_2_keys
  | Raise _ => False
  end.
Proof.
  destruct (match_parts sentinel_2_pattern true scene_id ∅) as [meta|] eqn:Hm.
  - destruct (sentinel_2_matched scene_id args meta Hm)
      as (month & day & _ & _ & _ & _ & ->).
    pose proof (with_integers_dom scene_id meta month day Hm) as Hdom.
    unfold Sentinel.dict_kwargs. case_bool_decide as Hd.
    + destruct Hd as [Hid Hd]. rewrite dom_fmap_L, Hdom in Hd.
      split; [eauto|]. split; [done|].
      by rewrite dom_union_L, dom_insert_L, dom_fmap_L, Hdom.
    + split; [eauto|]. intros Hargs. apply Hd. split.
      * apply not_elem_of_dom. apply match_parts_dom in Hm.
        unfold with_integers. rewrite !dom_insert_L, dom_fmap_L, Hm.
        cbn. set_solver.
      * by rewrite dom_fmap_L, Hdom.
  - unfold sentinel_2. rewrite Hm. done.
Qed.

(** X12. The Sentinel-2 scene id is a fixed-width record: an id the parser
    accepts has exactly 60 characters, or 61 of which the last is a
    newline; every field of the answer is the substring of the id at its
    own offset, and the two integers are the month and the day as they are
    written, any number from 0 to 99. *)
Theorem sentinel_2_fixed_width (scene_id : string) (args : gmap string string)
    (record : gmap string pyval) :
  sentinel_2 scene_id args = Ok record →
  (∃ body, String.length body = 60%nat ∧
     (scene_id = body ∨ scene_id = body +:+ String newline EmptyString)) ∧
  record !! "scene_id" = Some (VStr scene_id) ∧
  (∀ name off n, (name, (off, n)) ∈ sentinel_2_fields →
     record !! name = Some (VStr (substring off n scene_id))) ∧
  ∃ month day,
    int_str (substring 15 2 scene_id) = Ok month ∧
    int_str (substring 17 2 scene_id) = Ok day ∧
    0 ≤ month ≤ 99 ∧ 0 ≤ day ≤ 99 ∧
    record !! "acquisitionMonthInteger" = Some (VInt month) ∧
    record !! "acquisitionDayInteger" = Some (VInt day).
Proof.
  intros H.
  destruct (match_parts sentinel_2_pattern true scene_id ∅) as [meta|] eqn:Hm;
    [|unfold sentinel_2 in H; by rewrite Hm in H].
  destruct (sentinel_2_matched scene_id args meta Hm)
    as (month & day & Hmonth & Hday & Hbm & Hbd & Hrun).
  rewrite Hrun in H. unfold Sentinel.dict_kwargs in H.
  case_bool_decide as Hd; [|done]. injection H as <-.
  split; [|split; [|split]].
  - pose proof Hm as Hb.
    change sentinel_2_pattern
      with (removelast sentinel_2_pattern ++ [End_]) in Hb.
    destruct (match_parts_body _ _ _ _ _ Hb) as (body & Hlen & Hs).
    exists body. split; [exact Hlen|exact Hs].
  - apply lookup_union_Some_l. by rewrite lookup_insert_eq.
  - intros name off n Hin.
    pose proof (match_parts_fields _ _ _ _ _ Hm sentinel_2_names
                  name off n Hin) as Hf.
    apply lookup_union_Some_l. unfold with_integers.
    rewrite !lookup_insert_ne, lookup_fmap, Hf; [done| | |];
      intros Heq; subst name; unfold sentinel_2_fields in Hin;
      repeat (apply elem_of_cons in Hin as [[=]|Hin]);
      by apply elem_of_nil in Hin.
  - exists month, day. do 4 (split; [done|]). split.
    + apply lookup_union_Some_l. unfold with_integers.
      by rewrite lookup_insert_ne, lookup_insert_ne, lookup_insert_eq.
    + apply lookup_union_Some_l. unfold with_integers.
      by rewrite lookup_insert_ne, lookup_insert_eq.
Qed.

Definition s2a_record : gmap string pyval :=
  Eval vm_compute in
    match sentinel_2
            "S2A_MSIL1C_20200105T132241_N0208_R038_T23LLF_20200105T145621" ∅
    with
    | Ok record => record
    | Raise _ => ∅
    end.

Lemma sentinel_2_fixed_width_witness :
  sentinel_2 "S2A_MSIL1C_20200105T132241_N0208_R038_T23LLF_20200105T145621" ∅
  = Ok s2a_record ∧
  s2a_record !! "utm" = Some (VStr "23") ∧
  s2a_record !! "acquisitionDayInteger" = Some (VInt 5).
Proof.
  assert (Hrun :
    sentinel_2 "S2A_MSIL1C_20200105T132241_N0208_R038_T23LLF_20200105T145621" ∅
    = Ok s2a_record) by reflexivity.
  split; [exact Hrun|].
  destruct (sentinel_2_fixed_width _ _ _ Hrun)
    as (_ & _ & Hf & month & day & _ & Hday & _ & _ & _ & Hd).
  split.
  - apply (Hf "utm" 39%nat 2%nat). apply list_elem_of_In. cbn. tauto.
  - vm_compute in Hday. injection Hday as <-. exact Hd.
Defined.

(** *** The class *)

Lemma first_letter (c : ascii) p s m :
  match_parts (Start :: Out (One c) :: p) true s ∅ = Some m →
  ∃ d s', s = String d s' ∧ lit_matches c d = true.
Proof.
  cbn. destruct s as [|d s']; [done|].
  destruct (lit_matches c d) eqn:Hc; [|done]. eauto.
Qed.

Lemma other_letter (c c' d : ascii) p s :
  ascii_lower c ≠ ascii_lower c' →
  lit_matches c d = true →
  match_parts (Start :: Out (One c') :: p) true (String d s) ∅ = None.
Proof.
  intros Hne Hc. cbn. unfold lit_matches in *.
  apply bool_decide_eq_true_1 in Hc.
  rewrite bool_decide_eq_false_2; [done|]. congruence.
Qed.

Definition no_match : exn :=
  AttributeError "'NoneType' object has no attribute 'groupdict'".

Lemma sentinel_2_not_landsat scene_id args args' record :
  sentinel_2 scene_id args = Ok record →
  landsat scene_id args' = Raise no_match.
Proof.
  unfold sentinel_2. intros H.
  destruct (match_parts sentinel_2_pattern true scene_id ∅) as [m|] eqn:Hm;
    [|done].
  apply first_letter in Hm as (d & s' & -> & Hd).
  unfold landsat, re_match. rewrite match_items_parts.
  change (pieces_of <$> landsat_pattern)
    with (Start :: Out (One "L") :: (pieces_of <$> drop 2 landsat_pattern)).
  by rewrite (other_letter "S" "L" d _ s').
Qed.

Lemma landsat_not_sentinel_2 scene_id args args' record :
  landsat scene_id args = Ok record →
  sentinel_2 scene_id args' = Raise no_match.
Proof.
  unfold landsat, re_match. rewrite match_items_parts. intros H.
  destruct (match_parts (pieces_of <$> landsat_pattern) true scene_id ∅)
    as [m|] eqn:Hm; [|done].
  change (pieces_of <$> landsat_pattern)
    with (Start :: Out (One "L") :: (pieces_of <$> drop 2 landsat_pattern))
    in Hm.
  apply first_letter in Hm as (d & s' & -> & Hd).
  unfold sentinel_2.
  change sentinel_2_pattern
    with (Start :: Out (One "S") :: drop 2 sentinel_2_pattern).
  by rewrite (other_letter "L" "S" d _ s').
Qed.

(** X13. A [SceneParser] can be made for the groups sentinel_2 and landsat
    and for no other, a [KeyError] on the group otherwise.  The two parsers
    never read the same id: on an id the parser of one group returns a
    record for, the parser of the other group raises the [AttributeError]
    of an id that does not match. *)
Theorem scene_parser_groups (group scene_id : string)
    (args : gmap string string) :
  match init group with
  | Ok self =>
      ∃ other_group other,
        (group = "sentinel_2" ∧ other_group = "landsat" ∨
         group = "landsat" ∧ other_group = "sentinel_2") ∧
        init other_group = Ok other ∧
        match parser_sceneid self scene_id args with
        | Ok _ => ∀ args', parser_sceneid other scene_id args' = Raise no_match
        | Raise _ => True
        end
  | Raise e => e = KeyError group ∧ group ≠ "sentinel_2" ∧ group ≠ "landsat"
  end.
Proof.
  unfold init.
  destruct (String.eqb_spec group "sentinel_2") as [->|Hs].
  - eexists "landsat", _. split; [by left|]. split; [done|].
    unfold parser_sceneid. cbn.
    destruct (sentinel_2 scene_id args) as [record|e] eqn:Hrun; [|done].
    intros args'. by rewrite (sentinel_2_not_landsat _ _ args' _ Hrun).
  - destruct (String.eqb_spec group "landsat") as [->|Hl]; [|done].
    eexists "sentinel_2", _. split; [by right|]. split; [done|].
    unfold parser_sceneid. cbn.
    destruct (landsat scene_id args) as [record|e] eqn:Hrun; [|done].
    intros args'. cbn. by apply (landsat_not_sentinel_2 _ _ args' _ Hrun).
Qed.

End ParserFacts.

(** ** The counter table under [solo] and [next_step] *)

Module CounterFacts.
Import Py Services Maestro.

Definition errors_of (svc : services) (k : string) : Z :=
  default 0 (errors <$> control_table svc !! k).

Lemma get_str_Some (a : activity) k s :
  get_str a k = Ok s → a !! k = Some (VStr s).
Proof.
  unfold get_str, getitem. destruct (a !! k) as [[]|]; cbn; try done.
  by intros [= ->].
Qed.

(** X14. [solo] on an activity that is not DONE stores it and calls no
    preparer; no counter moves, and the error count of the activity's stage
    grows by one exactly when its status is ERROR. *)
Theorem solo_not_done_is_silent (svc svc' : services) (a : activity) :
  solo_one svc a = Ok svc' →
  MaestroFacts.is_done a = false →
  calls svc' = calls svc ∧ sqs svc' = sqs svc ∧ kinesis svc' = kinesis svc ∧
  s3 svc' = s3 svc ∧
  (∀ k, MaestroFacts.count_of svc' k = MaestroFacts.count_of svc k) ∧
  ∃ id sk ka status,
    a !! "dynamoKey" = Some (VStr id) ∧ a !! "sk" = Some (VStr sk) ∧
    a !! "mystatus" = Some status ∧
    get_key_to_controltable a = Ok ka ∧
    activities_table svc' = <[(id, sk) := a]> (activities_table svc) ∧
    ∀ k, errors_of svc' k
         = errors_of svc k
           + (if eq_str status "ERROR" && bool_decide (k = ka) then 1 else 0).
Proof.
  unfold solo_one. intros H Hnd.
  apply bind_Ok in H as (svc1 & Hput & H).
  unfold put_activity in Hput.
  apply bind_Ok in Hput as (id & Hid & Hput).
  apply bind_Ok in Hput as (sk & Hsk & Hput). injection Hput as <-.
  apply bind_Ok in H as (ka & Hka & H).
  apply bind_Ok in H as (status & Hst & H).
  unfold getitem in Hst. unfold MaestroFacts.is_done in Hnd.
  destruct (a !! "mystatus") as [v|] eqn:Hv; [|done]. injection Hst as ->.
  rewrite Hnd in H.
  assert (Hframe :
    calls svc' = calls svc ∧ sqs svc' = sqs svc ∧ kinesis svc' = kinesis svc ∧
    s3 svc' = s3 svc ∧
    activities_table svc' = <[(id, sk) := a]> (activities_table svc) ∧
    control_table svc' =
      if eq_str status "ERROR"
      then <[ka := Counter
                     (mycount (default (Counter 0 0 "" 0)
                                       (control_table svc !! ka)))
                     (total_to_be_done (default (Counter 0 0 "" 0)
                                                (control_table svc !! ka)))
                     (end_date (default (Counter 0 0 "" 0)
                                        (control_table svc !! ka)))
                     (errors (default (Counter 0 0 "" 0)
                                      (control_table svc !! ka)) + 1)]>
             (control_table svc)
      else control_table svc).
  { destruct (eq_str status "ERROR"); injection H as <-; by destruct svc. }
  destruct Hframe as (Hc & Hq & Hk & Hs3 & Ha & Hct).
  do 4 (split; [done|]). split.
  - intros k. unfold MaestroFacts.count_of. rewrite Hct.
    destruct (eq_str status "ERROR"); [|done].
    destruct (decide (ka = k)) as [<-|Hne].
    + rewrite lookup_insert_eq. cbn. by destruct (control_table svc !! ka).
    + by rewrite lookup_insert_ne.
  - exists id, sk, ka, status.
    split; [by apply get_str_Some|]. split; [by apply get_str_Some|].
    split; [done|]. split; [done|]. split; [done|].
    intros k. unfold errors_of. rewrite Hct.
    destruct (eq_str status "ERROR"); cbn [andb]; [|lia].
    case_bool_decide as Hk'.
    + subst k. rewrite lookup_insert_eq. cbn.
      by destruct (control_table svc !! ka).
    + rewrite lookup_insert_ne by done. lia.
Qed.

Definition merge_failed : activity :=
  <["mystatus" := VStr "ERROR"]> (MaestroFacts.merge_done "nir" "2020-01-05").

Lemma solo_not_done_is_silent_witness :
  ∃ svc',
    solo_one MaestroFacts.svc_merge merge_failed = Ok svc' ∧
    MaestroFacts.is_done merge_failed = false ∧
    calls svc' = [] ∧
    MaestroFacts.count_of svc' MaestroFacts.merge_key = 0.
Proof.
  destruct (solo_one MaestroFacts.svc_merge merge_failed) as [svc'|e] eqn:Hrun;
    [|vm_compute in Hrun; discriminate].
  assert (Hnd : MaestroFacts.is_done merge_failed = false)
    by (vm_compute; reflexivity).
  exists svc'. split; [reflexivity|]. split; [exact Hnd|].
  destruct (solo_not_done_is_silent _ _ _ Hrun Hnd)
    as (Hc & _ & _ & _ & Hcount & _).
  split; [exact Hc|]. exact (Hcount MaestroFacts.merge_key).
Defined.

(** X15. A [next_step] that enters no preparer touches the counter of the
    activity's stage and nothing else.  No preparer is entered when the row
    of the stage is missing (then nothing changes at all) and when the
    count after the increment is below the activity's
    [totalInstancesToBeDone].  In such a call the row gets [mycount + 1]
    and the date of the call, its total and its error count stay, and every
    other row, the activity table, object storage, the stream and the
    queue are as they were. *)
Theorem next_step_only_bumps (svc svc' : services) (a : activity) :
  next_step svc a = Ok svc' →
  ∃ k, get_key_to_controltable a = Ok k ∧
    (control_table svc !! k = None → svc' = svc) ∧
    (∀ row, control_table svc !! k = Some row →
       ∃ T, get_int a "totalInstancesToBeDone" = Ok T ∧
            (mycount row + 1 < T → calls svc' = calls svc)) ∧
    (calls svc' = calls svc →
       (∀ k', k' ≠ k → control_table svc' !! k' = control_table svc !! k') ∧
       control_table svc' !! k
         = (λ row, Counter (mycount row + 1) (total_to_be_done row) (now svc)
                           (errors row)) <$> control_table svc !! k ∧
       activities_table svc' = activities_table svc ∧ s3 svc' = s3 svc ∧
       kinesis svc' = kinesis svc ∧ sqs svc' = sqs svc).
Proof.
  intros H. apply MaestroFacts.next_step_inv in H as (k & Hk & H).
  exists k. split; [done|].
  destruct (control_table svc !! k) as [row|] eqn:Hrow.
  - destruct H as (T & HT & ->). split; [done|]. split.
    + intros row' [= <-]. exists T. split; [done|]. intros Hlt.
      destruct (Z.leb_spec T (mycount row + 1)); [lia|].
      destruct svc; cbn. by rewrite app_nil_r.
    + intros _. destruct svc; cbn in *.
      split; [intros k' Hne; by rewrite lookup_insert_ne|].
      split; [by rewrite lookup_insert_eq|]. done.
  - subst svc'. split; [done|]. split; [done|]. intros _.
    split; [done|]. by rewrite Hrow.
Qed.

Lemma next_step_only_bumps_witness :
  ∃ svc',
    next_step MaestroFacts.svc_merge (MaestroFacts.merge_done "nir" "2020-01-05")
      = Ok svc' ∧
    calls svc' = [] ∧
    control_table svc' !! MaestroFacts.merge_key
      = Some (Counter 1 2 "2020-02-01 00:00:00" 0).
Proof.
  destruct (next_step MaestroFacts.svc_merge
              (MaestroFacts.merge_done "nir" "2020-01-05"))
    as [svc'|e] eqn:Hrun; [|vm_compute in Hrun; discriminate].
  exists svc'. split; [reflexivity|].
  destruct (next_step_only_bumps _ _ _ Hrun) as (k & Hk & _ & Hlow & Hrow).
  vm_compute in Hk. injection Hk as <-.
  destruct (Hlow (Counter 0 2 "" 0) eq_refl) as (T & HT & Hsilent).
  vm_compute in HT. injection HT as <-.
  assert (Hcalls : calls svc' = calls MaestroFacts.svc_merge)
    by (apply Hsilent; reflexivity).
  split; [exact Hcalls|].
  destruct (Hrow Hcalls) as (_ & Hbump & _). exact Hbump.
Defined.

(** X16. The publish stage is the last one: the counter key of a publish
    activity is its [dynamoKey] as it is, and completing it moves that
    counter and calls no preparer, whatever the count. *)
Theorem publish_is_terminal (svc svc' : services) (a : activity)
    (key : string) :
  a !! "action" = Some (VStr "publish") →
  a !! "dynamoKey" = Some (VStr key) →
  next_step svc a = Ok svc' →
  get_key_to_controltable a = Ok key ∧
  calls svc' = calls svc ∧
  control_table svc' !! key
    = (λ row, Counter (mycount row + 1) (total_to_be_done row) (now svc)
                      (errors row)) <$> control_table svc !! key.
Proof.
  intros Hact Hkey H.
  assert (Hk : get_key_to_controltable a = Ok key).
  { unfold get_key_to_controltable, get_str, getitem.
    by rewrite Hkey, Hact. }
  split; [done|].
  apply MaestroFacts.next_step_inv in H as (k & Hk' & H).
  rewrite Hk in Hk'. injection Hk' as <-.
  destruct (control_table svc !! key) as [row|] eqn:Hrow.
  - destruct H as (T & HT & ->). destruct svc; cbn in *.
    rewrite lookup_insert_eq. split; [|done].
    unfold MaestroFacts.dispatch. rewrite Hact. cbn.
    destruct (T <=? mycount row + 1); by rewrite app_nil_r.
  - subst svc'. by rewrite Hrow.
Qed.

Definition publish_done : activity :=
  <["action" := VStr "publish"]>
  (<["dynamoKey" := VStr "publishLC8_30_16D_STK0123452020-01-012020-01-16"]>
  (<["sk" := VStr "ALLBANDS"]>
  (<["mystatus" := VStr "DONE"]>
  (<["totalInstancesToBeDone" := VInt 1]> ∅)))).

Definition svc_publish : services :=
  Services "bucket"
    {[ "publishLC8_30_16D_STK0123452020-01-012020-01-16" := Counter 0 1 "" 0 ]}
    ∅ ∅ [] [] [] "2020-02-01 00:00:00".

Lemma publish_is_terminal_witness :
  ∃ svc',
    next_step svc_publish publish_done = Ok svc' ∧
    calls svc' = [] ∧
    control_table svc' !! "publishLC8_30_16D_STK0123452020-01-012020-01-16"
      = Some (Counter 1 1 "2020-02-01 00:00:00" 0).
Proof.
  destruct (next_step svc_publish publish_done) as [svc'|e] eqn:Hrun;
    [|vm_compute in Hrun; discriminate].
  exists svc'. split; [reflexivity|].
  destruct (publish_is_terminal svc_publish svc' publish_done
              "publishLC8_30_16D_STK0123452020-01-012020-01-16"
              eq_refl eq_refl Hrun) as (_ & Hc & Hrow).
  split; [exact Hc|exact Hrow].
Defined.

End CounterFacts.

(** ** What [fill_blend] leaves in the blend activity *)

Module FillBlendFacts.
Import Py Services Blend.

(** The merge records of one date, as [fill_blend] queries them. *)
Definition merges_of (svc : services) (mergeactivity : activity) (date : pyval)
    : result (list activity) :=
  dynamoKey ← encode_key (<["date_formated" := date]> mergeactivity)
    ["action"; "irregular_datacube"; "tileid"; "date_formated"; "band"];
  Ok (get_activities_by_key svc dynamoKey).

(** A key [<function>file] ends in file. *)
Lemma file_key (function k : string) :
  function +:+ "file" = k →
  substring (String.length k - 4) 4 k = "file".
Proof.
  intros <-. rewrite ParserFacts.length_append.
  replace (String.length function + String.length "file" - 4)%nat
    with (String.length function + 0)%nat
    by (change (String.length "file") with 4%nat;
        generalize (String.length function); lia).
  by rewrite ParserFacts.substring_skip.
Qed.

Lemma file_key_inj (f g : string) : f +:+ "file" = g +:+ "file" → f = g.
Proof.
  revert g. induction f as [|c f IH]; intros g H.
  - destruct g as [|d g]; [done|]. exfalso.
    apply (f_equal String.length) in H.
    rewrite !ParserFacts.length_append in H.
    change (String.length (String d g)) with (S (String.length g)) in H.
    change (String.length "") with 0%nat in H. lia.
  - destruct g as [|d g].
    + exfalso. apply (f_equal String.length) in H.
      rewrite !ParserFacts.length_append in H.
      change (String.length (String c f)) with (S (String.length f)) in H.
      change (String.length "") with 0%nat in H. lia.
    + injection H as -> H. f_equal. by apply IH.
Qed.

Lemma query_merges_spec svc ib dates :
  ∀ m b items m' b' r,
  query_merges svc m b ib dates items = Ok (m', b', r) →
  (∀ k, k ≠ "date_formated" → m' !! k = m !! k) ∧
  (∀ k, k ≠ "internal_band" → b' !! k = b !! k) ∧
  match r with
  | Some items' =>
      ∃ groups,
        Forall2 (λ date group, merges_of svc m date = Ok group ∧ group ≠ [])
                dates groups ∧
        items' = items ++ concat groups
  | None => True
  end.
Proof.
  induction dates as [|date dates IH]; intros m b items m' b' r; cbn.
  - intros [= <- <- <-]. do 2 (split; [done|]).
    exists []. split; [constructor|]. by rewrite app_nil_r.
  - intros H. apply bind_Ok in H as (key & Hkey & H).
    destruct (get_activities_by_key svc key) as [|item group] eqn:Hgroup.
    { injection H as <- <- <-. split.
      - intros k Hk. by rewrite lookup_insert_ne.
      - split; [|done]. intros k Hk.
        destruct (truthy ib); [by rewrite lookup_insert_ne|done]. }
    apply IH in H as (Hm & Hb & Hr). split; [|split].
    + intros k Hk. by rewrite Hm, lookup_insert_ne.
    + intros k Hk. rewrite Hb by done.
      destruct (truthy ib); [by rewrite lookup_insert_ne|done].
    + destruct r as [items'|]; [|done].
      destruct Hr as (groups & Hgroups & ->).
      exists ((item :: group) :: groups). split.
      * constructor.
        -- unfold merges_of. rewrite Hkey. cbn. by rewrite Hgroup.
        -- eapply Forall2_impl; [exact Hgroups|].
           intros d g [Hd Hg]. split; [|done].
           unfold merges_of in *. by rewrite insert_insert_eq in Hd.
      * cbn. by rewrite <- app_assoc.
Qed.

Lemma add_scene_scenes b band item b' :
  add_scene b band item = Ok b' → ∃ scenes, b' = <["scenes" := scenes]> b.
Proof.
  unfold add_scene. intros H.
  repeat (apply bind_Ok in H as (? & _ & H)). injection H as <-. eauto.
Qed.

Lemma add_scenes_spec band items :
  ∀ b b' found,
  add_scenes b band items = Ok (b', found) →
  (∀ k, k ≠ "scenes" → b' !! k = b !! k) ∧
  (found = true → Forall (λ item, MaestroFacts.is_done item = true) items).
Proof.
  induction items as [|item items IH]; intros b b' found; cbn.
  - intros [= <- <-]. done.
  - intros H. apply bind_Ok in H as (status & Hstatus & H).
    unfold getitem in Hstatus.
    destruct (item !! "mystatus") as [v|] eqn:Hv; [|done].
    injection Hstatus as ->.
    destruct (eq_str status "DONE") eqn:Hdone; cbn in H.
    + apply bind_Ok in H as (b1 & H1 & H).
      apply add_scene_scenes in H1 as (scenes & ->).
      apply IH in H as (Hk & Hall). split.
      * intros k Hne. by rewrite Hk, lookup_insert_ne.
      * intros Hf. constructor; [|by apply Hall].
        unfold MaestroFacts.is_done. by rewrite Hv.
    + injection H as <- <-. done.
Qed.

Lemma set_composite_file_spec b f band ver b' :
  set_composite_file b f band ver = Ok b' →
  ∃ datacube tileid start end_,
    b !! "datacube" = Some (VStr datacube) ∧
    b !! "tileid" = Some (VStr tileid) ∧
    b !! "start" = Some (VStr start) ∧ b !! "end" = Some (VStr end_) ∧
    b' = <[f +:+ "file" :=
             VStr (composite_file (cube_id_of datacube f) tileid start end_
                                  band ver)]> b.
Proof.
  unfold set_composite_file. intros H.
  apply bind_Ok in H as (datacube & H1 & H).
  apply bind_Ok in H as (tileid & H2 & H).
  apply bind_Ok in H as (start & H3 & H).
  apply bind_Ok in H as (end_ & H4 & H). injection H as <-.
  exists datacube, tileid, start, end_.
  by repeat (split; [by apply CounterFacts.get_str_Some|]).
Qed.

(** The name [set_composite_file] gives the composite of one function. *)
Definition file_of (b : activity) (function band cube_version : string)
    : result string :=
  datacube ← get_str b "datacube";
  tileid ← get_str b "tileid";
  start ← get_str b "start";
  end_ ← get_str b "end";
  Ok (composite_file (cube_id_of datacube function) tileid start end_
                     band cube_version).

Definition ends_in_file (k : string) : bool :=
  String.eqb (substring (String.length k - 4) 4 k) "file".

Lemma file_key_ends (function : string) :
  ends_in_file (function +:+ "file") = true.
Proof.
  unfold ends_in_file. by rewrite (file_key function _ eq_refl).
Qed.

Lemma set_composite_file_of b f band ver b' :
  set_composite_file b f band ver = Ok b' →
  ∃ path, file_of b f band ver = Ok path ∧
          b' = <[f +:+ "file" := VStr path]> b.
Proof.
  unfold set_composite_file, file_of. intros H.
  apply bind_Ok in H as (datacube & -> & H).
  apply bind_Ok in H as (tileid & -> & H).
  apply bind_Ok in H as (start & -> & H).
  apply bind_Ok in H as (end_ & -> & H). injection H as <-.
  cbn. eauto.
Qed.

(** [file_of] reads four keys, none of which ends in file. *)
Definition cube_keys : list string := ["datacube"; "tileid"; "start"; "end"].

Lemma cube_keys_not_file (k : string) :
  k ∈ cube_keys → ends_in_file k = false.
Proof.
  unfold cube_keys. intros Hk.
  repeat (apply elem_of_cons in Hk as [->|Hk]; [reflexivity|]).
  by apply elem_of_nil in Hk.
Qed.

Lemma file_of_frame b b' f band ver :
  (∀ k, k ∈ cube_keys → b' !! k = b !! k) →
  file_of b' f band ver = file_of b f band ver.
Proof.
  intros Hk. unfold file_of, get_str, getitem.
  rewrite !Hk; [done|..]; apply list_elem_of_In; cbn; tauto.
Qed.

Lemma file_of_insert b f band ver g v :
  file_of (<[g +:+ "file" := v]> b) f band ver = file_of b f band ver.
Proof.
  apply file_of_frame. intros k Hk. rewrite lookup_insert_ne; [done|].
  intros <-. apply cube_keys_not_file in Hk.
  by rewrite file_key_ends in Hk.
Qed.

Lemma fill_functions_frame band ver fs :
  ∀ b b', fill_functions b band ver fs = Ok b' →
  ∀ k, ends_in_file k = false → b' !! k = b !! k.
Proof.
  induction fs as [|f0 fs IH]; intros b b'; cbn.
  - intros [= <-]. done.
  - intros H k Hk. apply bind_Ok in H as (fname & _ & H).
    apply bind_Ok in H as (b1 & H1 & H).
    apply set_composite_file_of in H1 as (path & _ & ->).
    rewrite (IH _ _ H k Hk), lookup_insert_ne; [done|].
    intros <-. by rewrite file_key_ends in Hk.
Qed.

Lemma fill_functions_stable band ver fs f path :
  ∀ b b', fill_functions b band ver fs = Ok b' →
  file_of b f band ver = Ok path →
  b !! (f +:+ "file") = Some (VStr path) →
  b' !! (f +:+ "file") = Some (VStr path).
Proof.
  induction fs as [|f0 fs IH]; intros b b'; cbn.
  - intros [= <-]. done.
  - intros H Hpath Hb. apply bind_Ok in H as (fname & _ & H).
    apply bind_Ok in H as (b1 & H1 & H).
    apply set_composite_file_of in H1 as (path' & Hpath' & ->).
    apply (IH _ _ H).
    + by rewrite file_of_insert.
    + destruct (decide (fname +:+ "file" = f +:+ "file")) as [Heq|Hne].
      * apply file_key_inj in Heq as ->.
        rewrite lookup_insert_eq. congruence.
      * by rewrite lookup_insert_ne.
Qed.

Lemma fill_functions_files band ver fs f :
  ∀ b b', fill_functions b band ver fs = Ok b' →
  VStr f ∈ fs →
  ∃ path, file_of b f band ver = Ok path ∧
          b' !! (f +:+ "file") = Some (VStr path).
Proof.
  induction fs as [|f0 fs IH]; intros b b'; cbn.
  - intros _ Hin. by apply elem_of_nil in Hin.
  - intros H Hin. apply bind_Ok in H as (fname & Hf & H).
    apply bind_Ok in H as (b1 & H1 & H).
    apply set_composite_file_of in H1 as (path & Hpath & ->).
    assert (Hframe : ∀ g, file_of (<[fname +:+ "file" := VStr path]> b)
                                  g band ver = file_of b g band ver).
    { intros g. apply file_of_insert. }
    apply elem_of_cons in Hin as [<-|Hin].
    + cbn in Hf. injection Hf as <-. exists path. split; [done|].
      apply (fill_functions_stable _ _ _ _ _ _ _ H).
      * by rewrite Hframe.
      * by rewrite lookup_insert_eq.
    + destruct (IH _ _ H Hin) as (path' & Hpath' & Hb').
      exists path'. split; [|done]. by rewrite <- Hframe.
Qed.

(** The state of the blend activity when the two loops over the merge
    records are over. *)
Lemma fill_blend_inv svc m b ib m' b' status :
  fill_blend svc m b ib = Ok (m', b', status) →
  ∃ band version dates b1,
    b !! "band" = Some (VStr band) ∧
    b !! "version" = Some (VStr version) ∧
    m !! "list_dates" = Some (VList dates) ∧
    (∀ k, k ≠ "instancesToBeDone" → k ≠ "internal_band" → k ≠ "scenes" →
          b1 !! k = b !! k) ∧
    b1 !! "instancesToBeDone" = Some (VInt 0) ∧
    if status then
      ∃ groups quality_band,
        Forall2 (λ date group, merges_of svc m date = Ok group ∧ group ≠ [])
                dates groups ∧
        Forall (λ item, MaestroFacts.is_done item = true) (concat groups) ∧
        b !! "quality_band" = Some quality_band ∧
        let b2 := <["instancesToBeDone" :=
                      VInt (Z.of_nat (length (concat groups)))]> b1 in
        if eq_str quality_band band
        then set_composite_file b2 "STK" band version = Ok b'
        else ∃ functions,
               b !! "functions" = Some (VList functions) ∧
               fill_functions b2 band version functions = Ok b'
    else b' = b1.
Proof.
  unfold fill_blend. intros H.
  apply bind_Ok in H as (band & Hband & H).
  apply bind_Ok in H as (version & Hversion & H).
  apply bind_Ok in H as (dates & Hdates & H).
  apply bind_Ok in H as ([[m1 b1] r] & Hq & H).
  apply CounterFacts.get_str_Some in Hband, Hversion.
  rewrite lookup_insert_ne in Hversion by done.
  apply bind_Ok in Hdates as (v & Hv & Hdates).
  unfold getitem in Hv. destruct (m !! "list_dates") as [v'|] eqn:Hl; [|done].
  injection Hv as ->. destruct v; try done. injection Hdates as ->.
  apply query_merges_spec in Hq as (_ & Hb1 & Hr).
  assert (Hcount : b1 !! "instancesToBeDone" = Some (VInt 0)).
  { by rewrite Hb1, lookup_insert_eq. }
  assert (Hkeep : ∀ k, k ≠ "instancesToBeDone" → k ≠ "internal_band" →
                       b1 !! k = b !! k).
  { intros k H1 H2. by rewrite Hb1, lookup_insert_ne. }
  destruct r as [items|].
  2:{ injection H as <- <- <-. exists band, version, dates, b1.
      do 3 (split; [done|]). split; [|done].
      intros k H1 H2 _. by apply Hkeep. }
  destruct Hr as (groups & Hgroups & ->). cbn [app] in H.
  apply bind_Ok in H as ([b2 found] & Hadd & H).
  apply add_scenes_spec in Hadd as (Hb2 & Hdone).
  exists band, version, dates, b2.
  do 3 (split; [done|]).
  split; [intros k H1 H2 H3; by rewrite Hb2, Hkeep|].
  split; [by rewrite Hb2|].
  destruct found; cbn in H.
  2:{ by injection H as <- <- <-. }
  apply bind_Ok in H as (n & Hn & H).
  unfold get_int, getitem in Hn. rewrite Hb2, Hcount in Hn by done.
  injection Hn as <-. rewrite Z.add_0_l in H.
  apply bind_Ok in H as (quality_band & Hqb & H).
  unfold getitem in Hqb. rewrite lookup_insert_ne, Hb2, Hkeep in Hqb by done.
  destruct (b !! "quality_band") as [qb|] eqn:Hqb'; [|done].
  injection Hqb as ->.
  destruct (eq_str quality_band band) eqn:Hq; cbn in H.
  - apply bind_Ok in H as (b3 & H3 & H). injection H as <- <- <-.
    exists groups, quality_band. rewrite Hq.
    split; [done|]. split; [by apply Hdone|]. done.
  - apply bind_Ok in H as (functions & Hfs & H).
    apply bind_Ok in H as (b3 & H3 & H). injection H as <- <- <-.
    exists groups, quality_band. rewrite Hq.
    split; [done|]. split; [by apply Hdone|]. split; [done|].
    apply bind_Ok in Hfs as (v & Hv & Hfs).
    unfold getitem in Hv.
    rewrite lookup_insert_ne, Hb2, Hkeep in Hv by done.
    destruct (b !! "functions") as [fv|] eqn:Hfv; [|done].
    injection Hv as ->. destruct v; try done. injection Hfs as ->.
    eauto.
Qed.

(** X17. [fill_blend] counts the merge records it used.  When it answers
    True every date of [list_dates] has at least one merge record, every
    record is DONE, and [instancesToBeDone] is their number; when it
    answers False [instancesToBeDone] is 0. *)
Theorem fill_blend_count (svc : services) (m b m' b' : activity)
    (internal_band : pyval) (status : bool) :
  fill_blend svc m b internal_band = Ok (m', b', status) →
  if status then
    ∃ dates groups,
      m !! "list_dates" = Some (VList dates) ∧
      Forall2 (λ date group, merges_of svc m date = Ok group ∧ group ≠ [])
              dates groups ∧
      Forall (λ item, MaestroFacts.is_done item = true) (concat groups) ∧
      b' !! "instancesToBeDone"
      = Some (VInt (Z.of_nat (length (concat groups))))
  else b' !! "instancesToBeDone" = Some (VInt 0).
Proof.
  intros H.
  apply fill_blend_inv in H
    as (band & version & dates & b1 & _ & _ & Hdates & _ & Hcount & H).
  destruct status; [|by subst b'].
  destruct H as (groups & quality_band & Hgroups & Hdone & _ & H).
  exists dates, groups. do 3 (split; [done|]).
  cbv zeta in H. destruct (eq_str quality_band band).
  - apply set_composite_file_of in H as (path & _ & ->).
    by rewrite lookup_insert_ne, lookup_insert_eq.
  - destruct H as (functions & _ & H).
    rewrite (fill_functions_frame _ _ _ _ _ H) by reflexivity.
    by rewrite lookup_insert_eq.
Qed.

(** [fill_blend] on the band nir of one tile and period with a single
    merged date. *)
Definition filled_nir : activity * activity * bool :=
  Eval vm_compute in
    match fill_blend BlendFacts.svc_fill BlendFacts.mergeactivity0
                     BlendFacts.blendactivity0 (VBool false) with
    | Ok r => r
    | Raise _ => (∅, ∅, false)
    end.

Lemma fill_blend_nir :
  fill_blend BlendFacts.svc_fill BlendFacts.mergeactivity0
             BlendFacts.blendactivity0 (VBool false)
  = Ok (filled_nir.1.1, filled_nir.1.2, true).
Proof. reflexivity. Qed.

Lemma fill_blend_count_witness :
  fill_blend BlendFacts.svc_fill BlendFacts.mergeactivity0
             BlendFacts.blendactivity0 (VBool false)
  = Ok (filled_nir.1.1, filled_nir.1.2, true) ∧
  ∃ dates groups,
    BlendFacts.mergeactivity0 !! "list_dates" = Some (VList dates) ∧
    Forall2 (λ date group,
               merges_of BlendFacts.svc_fill BlendFacts.mergeactivity0 date
               = Ok group ∧ group ≠ [])
            dates groups ∧
    Forall (λ item, MaestroFacts.is_done item = true) (concat groups) ∧
    filled_nir.1.2 !! "instancesToBeDone"
    = Some (VInt (Z.of_nat (length (concat groups)))).
Proof.
  split; [exact fill_blend_nir|].
  exact (fill_blend_count _ _ _ _ _ _ true fill_blend_nir).
Defined.

(** X18. The composite files [fill_blend] names.  For the quality band it
    names the STK composite and touches no other file key; for any other
    band it names one composite for every function of the list, IDT
    included, each on the path made of the cube of that function, the
    version, the tile, the period and the band. *)
Theorem fill_blend_files (svc : services) (m b m' b' : activity)
    (internal_band : pyval) :
  fill_blend svc m b internal_band = Ok (m', b', true) →
  ∃ band version quality_band,
    b !! "band" = Some (VStr band) ∧
    b !! "version" = Some (VStr version) ∧
    b !! "quality_band" = Some quality_band ∧
    if eq_str quality_band band
    then (∃ path, file_of b "STK" band version = Ok path ∧
                  b' !! "STKfile" = Some (VStr path)) ∧
         ∀ k, ends_in_file k = true → k ≠ "STKfile" → b' !! k = b !! k
    else ∃ functions,
           b !! "functions" = Some (VList functions) ∧
           ∀ f, VStr f ∈ functions →
             ∃ path, file_of b f band version = Ok path ∧
                     b' !! (f +:+ "file") = Some (VStr path).
Proof.
  intros H.
  apply fill_blend_inv in H
    as (band & version & dates & b1 & Hband & Hversion & _ & Hkeep & _ & H).
  destruct H as (groups & quality_band & _ & _ & Hqb & H).
  exists band, version, quality_band. do 3 (split; [done|]).
  cbv zeta in H.
  assert (Hframe : ∀ n k, k ∈ cube_keys →
            <["instancesToBeDone" := n]> b1 !! k = b !! k).
  { intros n k Hk. unfold cube_keys in Hk.
    repeat (apply elem_of_cons in Hk as [->|Hk];
            [by rewrite lookup_insert_ne, Hkeep|]).
    by apply elem_of_nil in Hk. }
  destruct (eq_str quality_band band).
  - apply set_composite_file_of in H as (path & Hpath & ->). split.
    + exists path. split; [|by rewrite lookup_insert_eq].
      rewrite <- Hpath. symmetry. apply file_of_frame, Hframe.
    + intros k Hk Hne.
      rewrite lookup_insert_ne, lookup_insert_ne, Hkeep; try done.
      all: intros Heq; subst k; first [by apply Hne|discriminate].
  - destruct H as (functions & Hfs & H). exists functions. split; [done|].
    intros f Hin.
    destruct (fill_functions_files _ _ _ _ _ _ H Hin) as (path & Hpath & Hb').
    exists path. split; [|done].
    rewrite <- Hpath. symmetry. apply file_of_frame, Hframe.
Qed.

Lemma fill_blend_files_witness :
  fill_blend BlendFacts.svc_fill BlendFacts.mergeactivity0
             BlendFacts.blendactivity0 (VBool false)
  = Ok (filled_nir.1.1, filled_nir.1.2, true) ∧
  ∃ path,
    file_of BlendFacts.blendactivity0 "IDT" "nir" "v001" = Ok path ∧
    filled_nir.1.2 !! "IDTfile" = Some (VStr path).
Proof.
  split; [exact fill_blend_nir|].
  destruct (fill_blend_files _ _ _ _ _ _ fill_blend_nir)
    as (band & version & quality_band & Hband & Hversion & Hqb & H).
  vm_compute in Hband, Hversion, Hqb.
  injection Hband as <-. injection Hversion as <-. injection Hqb as <-.
  destruct H as (functions & Hfs & H).
  vm_compute in Hfs. injection Hfs as <-.
  apply (H "IDT"). apply list_elem_of_In. cbn. tauto.
Defined.

End FillBlendFacts.

(** ** The key of the counter *)

Module ControlKeyFacts.
Import Py Services Maestro.

(** [s.find(old)]: the place of the first occurrence. *)
Fixpoint find (s old : string) : option nat :=
  if startswith s old then Some 0%nat
  else match s with
       | EmptyString => None
       | String _ s' => S <$> find s' old
       end.

Lemma append_empty (s : string) : s +:+ "" = s.
Proof.
  induction s as [|c s IH]; [done|].
  change (String c (s +:+ "") = String c s). by f_equal.
Qed.

Lemma append_inj_length (p p' r r' : string) :
  p +:+ r = p' +:+ r' → String.length p = String.length p' →
  p = p' ∧ r = r'.
Proof.
  revert p'. induction p as [|c p IH]; intros [|c' p'] H Hl; try done.
  simpl in H, Hl. injection H as -> H. injection Hl as Hl.
  destruct (IH _ H Hl) as [-> ->]. done.
Qed.

Lemma startswith_split (old : string) :
  ∀ s, startswith s old = true → ∃ q, s = old +:+ q.
Proof.
  induction old as [|a old IH]; intros s H; [by exists s|].
  destruct s as [|b s]; [done|]. simpl in H.
  apply andb_true_iff in H as [Hab H].
  apply Ascii.eqb_eq in Hab as ->.
  destruct (IH _ H) as (q & ->). by exists q.
Qed.

Lemma replace_from_skip (old new t q : string) :
  replace_from old new (t +:+ q) (String.length t) = replace_from old new q 0.
Proof. induction t as [|c t IH]; [done|]. simpl. exact IH. Qed.

(** The first occurrence is replaced and the search goes on behind it. *)
Lemma replace_from_find (old new : string) :
  old ≠ "" →
  ∀ s i, find s old = Some i →
    ∃ p q, s = p +:+ (old +:+ q) ∧ String.length p = i ∧
           replace_from old new s 0 = p +:+ (new +:+ replace_from old new q 0).
Proof.
  intros Hold. induction s as [|c s IH]; intros i Hfind.
  - destruct old; done.
  - cbn [find] in Hfind.
    destruct (startswith (String c s) old) eqn:Hstart.
    + injection Hfind as <-.
      destruct (startswith_split _ _ Hstart) as (q & Hs).
      exists "", q. split; [done|]. split; [done|].
      cbn [replace_from]. rewrite Hstart.
      destruct old as [|a old]; [done|]. simpl in Hs. injection Hs as -> ->.
      cbn [String.length]. rewrite Nat.sub_succ, Nat.sub_0_r.
      by rewrite replace_from_skip.
    + destruct (find s old) as [j|] eqn:Hj; [|done].
      injection Hfind as <-.
      destruct (IH _ eq_refl) as (p & q & -> & <- & Hrep).
      exists (String c p), q. split; [done|]. split; [done|].
      cbn [replace_from]. rewrite Hstart, Hrep. done.
Qed.

Lemma replace_from_none (old new : string) :
  ∀ s, find s old = None → replace_from old new s 0 = s.
Proof.
  induction s as [|c s IH]; intros Hfind; [done|].
  cbn [find] in Hfind.
  destruct (startswith (String c s) old) eqn:Hstart; [done|].
  destruct (find s old) eqn:Hj; [done|].
  cbn [replace_from]. rewrite Hstart. by rewrite IH.
Qed.

Lemma replace_from_length (old : string) :
  ∀ s k, (String.length (replace_from old "" s k) ≤ String.length s)%nat.
Proof.
  induction s as [|c s IH]; intros k; [done|].
  cbn [replace_from]. destruct k as [|k].
  - destruct (startswith (String c s) old).
    + change ("" +:+ ?x) with x. specialize (IH (String.length old - 1)%nat).
      cbn [String.length]. lia.
    + specialize (IH 0%nat). cbn [String.length]. lia.
  - specialize (IH k). cbn [String.length]. lia.
Qed.

Lemma intersperse_empty (s : string) : intersperse "" s = s.
Proof.
  induction s as [|c s IH]; [done|].
  change (String c (intersperse "" s) = String c s). by f_equal.
Qed.

(** [s.replace(old, '')] gives [s] back exactly when [old] is empty or does
    not occur. *)
Lemma replace_same (s old : string) :
  replace s old "" = s ↔ old = "" ∨ find s old = None.
Proof.
  destruct old as [|a old].
  { split; [by left|]. intros _. apply intersperse_empty. }
  change (replace s (String a old) "")
    with (replace_from (String a old) "" s 0).
  split.
  - intros Hrep. right.
    destruct (find s (String a old)) as [i|] eqn:Hfind; [|done]. exfalso.
    assert (Hold : String a old ≠ "") by done.
    destruct (replace_from_find _ "" Hold _ _ Hfind)
      as (p & q & -> & _ & Hrep').
    rewrite Hrep' in Hrep. apply (f_equal String.length) in Hrep.
    rewrite !ParserFacts.length_append in Hrep.
    pose proof (replace_from_length (String a old) q 0).
    cbn [String.length append] in Hrep. lia.
  - intros [|Hfind]; [done|]. by apply replace_from_none.
Qed.

(** [s.replace(old, new)] when the only occurrence of [old] ends [s]. *)
Lemma replace_last (p old new : string) :
  old ≠ "" →
  find (p +:+ old) old = Some (String.length p) →
  replace (p +:+ old) old new = p +:+ new.
Proof.
  intros Hold Hfind.
  destruct (replace_from_find _ new Hold _ _ Hfind)
    as (p' & q & Hs & Hlen & Hrep).
  apply append_inj_length in Hs as [<- Hq]; [|done].
  assert (q = "") as ->.
  { apply (f_equal String.length) in Hq. rewrite ParserFacts.length_append in Hq.
    destruct q; [done|]. cbn [String.length] in Hq. lia. }
  destruct old as [|a old]; [done|].
  change (replace (p +:+ String a old) (String a old) new)
    with (replace_from (String a old) new (p +:+ String a old) 0).
  rewrite Hrep. cbn [replace_from]. by rewrite append_empty.
Qed.

(** X19. All merge activities of one tile and period share one counter.
    For a merge activity whose [dynamoKey] is a prefix followed by its date
    and its band, where neither occurs earlier in the key, the key of its
    counter is the prefix followed by the start and the end of the period,
    whatever the date and the band. *)
Theorem merge_stage_key (a : activity) (prefix date band start end_ : string) :
  a !! "action" = Some (VStr "merge") →
  a !! "dynamoKey" = Some (VStr (prefix +:+ date +:+ band)) →
  a !! "band" = Some (VStr band) →
  a !! "date" = Some (VStr date) →
  a !! "start" = Some (VStr start) →
  a !! "end" = Some (VStr end_) →
  band ≠ "" → date ≠ "" →
  find (prefix +:+ date +:+ band) band
  = Some (String.length (prefix +:+ date)) →
  find (prefix +:+ date) date = Some (String.length prefix) →
  get_key_to_controltable a = Ok (prefix +:+ start +:+ end_).
Proof.
  intros Haction Hkey Hband Hdate Hstart Hend Hb Hd Hfb Hfd.
  unfold get_key_to_controltable, get_str, getitem.
  rewrite Hkey, Haction, Hband, Hdate, Hstart, Hend. cbn.
  assert (Hassoc : prefix +:+ date +:+ band = (prefix +:+ date) +:+ band).
  { clear. induction prefix as [|c p IH]; [done|].
    change (String c (p +:+ date +:+ band)
            = String c ((p +:+ date) +:+ band)). by f_equal. }
  rewrite Hassoc in Hfb |- *.
  rewrite (replace_last _ _ "" Hb Hfb), append_empty.
  by rewrite (replace_last _ _ (start +:+ end_) Hd Hfd).
Qed.

Lemma merge_stage_key_witness :
  get_key_to_controltable (MaestroFacts.merge_done "nir" "2020-01-05")
  = Ok MaestroFacts.merge_key ∧
  get_key_to_controltable (MaestroFacts.merge_done "red" "2020-01-13")
  = Ok MaestroFacts.merge_key.
Proof.
  split.
  - apply (merge_stage_key _ "mergeLC8_30_012345" "2020-01-05" "nir"
                           "2020-01-01" "2020-01-16");
      first [reflexivity|discriminate].
  - apply (merge_stage_key _ "mergeLC8_30_012345" "2020-01-13" "red"
                           "2020-01-01" "2020-01-16");
      first [reflexivity|discriminate].
Defined.

(** X20. The counter of a blend or posblend stage is looked up under the
    activity's [dynamoKey] with every occurrence of the band's name taken
    out ([key.replace(band, '')]); that is the [dynamoKey] itself exactly
    when the band is empty or its name does not occur in the
    [dynamoKey]. *)
Theorem stage_key_is_dynamoKey (a : activity) (key band : string)
    (action : pyval) :
  a !! "dynamoKey" = Some (VStr key) →
  a !! "action" = Some action →
  eq_str action "publish" = false →
  eq_str action "merge" = false →
  a !! "band" = Some (VStr band) →
  get_key_to_controltable a = Ok (replace key band "") ∧
  (replace key band "" = key ↔ band = "" ∨ find key band = None).
Proof.
  intros Hkey Haction Hp Hm Hband.
  split; [|apply replace_same].
  unfold get_key_to_controltable, get_str, getitem.
  rewrite Hkey, Haction, Hband. cbn. rewrite Hp, Hm. cbn. done.
Qed.

Definition blend_nir : activity :=
  <["action" := VStr "blend"]>
  (<["dynamoKey" := VStr "blendLC8_30_16D_STK0123452020-01-012020-01-16"]>
  (<["band" := VStr "nir"]> ∅)).

Lemma stage_key_is_dynamoKey_witness :
  get_key_to_controltable blend_nir
  = Ok "blendLC8_30_16D_STK0123452020-01-012020-01-16".
Proof.
  destruct (stage_key_is_dynamoKey blend_nir
              "blendLC8_30_16D_STK0123452020-01-012020-01-16" "nir"
              (VStr "blend") eq_refl eq_refl eq_refl eq_refl eq_refl)
    as (Hk & Hiff).
  rewrite Hk. apply (f_equal Ok). apply Hiff. right. reflexivity.
Defined.

End ControlKeyFacts.

(** ** What [next_blend] puts on the queue *)

Module NextBlendFacts.
Import Py Services Maestro Blend NextBlend.

(** The keys of the blend activity that no pass of the loop changes. *)
Definition fixed_keys : list string :=
  ["action"; "dynamoKey"; "totalInstancesToBeDone"; "force"].

Definition agree (b b' : activity) : Prop :=
  ∀ k, k ∈ fixed_keys → b' !! k = b !! k.

Ltac fixed_key Hk :=
  unfold fixed_keys in Hk;
  repeat (apply elem_of_cons in Hk as [->|Hk]);
  [..|by apply elem_of_nil in Hk].

Lemma agree_refl b : agree b b.
Proof. by intros k _. Qed.

Lemma agree_trans b1 b2 b3 : agree b1 b2 → agree b2 b3 → agree b1 b3.
Proof. intros H1 H2 k Hk. by rewrite H2, H1. Qed.

Lemma fill_blend_frame svc m b ib m' b' st :
  fill_blend svc m b ib = Ok (m', b', st) →
  ∀ k, k ≠ "instancesToBeDone" → k ≠ "internal_band" → k ≠ "scenes" →
       FillBlendFacts.ends_in_file k = false → b' !! k = b !! k.
Proof.
  intros H k H1 H2 H3 Hfile.
  apply FillBlendFacts.fill_blend_inv in H
    as (band & version & dates & b1 & _ & _ & _ & Hkeep & _ & H).
  destruct st; [|subst b'; by apply Hkeep].
  destruct H as (groups & quality_band & _ & _ & _ & H). cbv zeta in H.
  destruct (eq_str quality_band band).
  - apply FillBlendFacts.set_composite_file_of in H as (path & _ & ->).
    rewrite lookup_insert_ne, lookup_insert_ne, Hkeep; try done.
    intros <-. by rewrite FillBlendFacts.file_key_ends in Hfile.
  - destruct H as (functions & _ & H).
    rewrite (FillBlendFacts.fill_functions_frame _ _ _ _ _ H) by done.
    by rewrite lookup_insert_ne, Hkeep.
Qed.

Lemma fill_blend_counted svc m b ib m' b' st :
  fill_blend svc m b ib = Ok (m', b', st) →
  ∃ n, b' !! "instancesToBeDone" = Some (VInt n) ∧ (st = false → n = 0).
Proof.
  intros H.
  apply FillBlendFacts.fill_blend_inv in H
    as (band & version & dates & b1 & _ & _ & _ & _ & Hcount & H).
  destruct st; [|subst b'; by exists 0].
  destruct H as (groups & quality_band & _ & _ & _ & H). cbv zeta in H.
  exists (Z.of_nat (length (concat groups))). split; [|done].
  destruct (eq_str quality_band band).
  - apply FillBlendFacts.set_composite_file_of in H as (path & _ & ->).
    by rewrite lookup_insert_ne, lookup_insert_eq.
  - destruct H as (functions & _ & H).
    rewrite (FillBlendFacts.fill_functions_frame _ _ _ _ _ H) by reflexivity.
    by rewrite lookup_insert_eq.
Qed.

Lemma fill_blend_agree svc m b ib m' b' st :
  fill_blend svc m b ib = Ok (m', b', st) → agree b b'.
Proof.
  intros H k Hk.
  fixed_key Hk; by apply (fill_blend_frame _ _ _ _ _ _ _ H).
Qed.

Lemma put_item_kinesis_spec svc a svc' :
  put_item_kinesis svc a = Ok svc' →
  ∃ id sk, a !! "dynamoKey" = Some (VStr id) ∧ a !! "sk" = Some (VStr sk) ∧
    svc' = with_kinesis (λ log, log ++ [a])
             (with_activities <[(id, sk) := a]> svc).
Proof.
  unfold put_item_kinesis, put_activity. intros H.
  apply bind_Ok in H as (svc1 & H1 & H). injection H as <-.
  apply bind_Ok in H1 as (id & Hid & H1).
  apply bind_Ok in H1 as (sk & Hsk & H1). injection H1 as <-.
  exists id, sk.
  split; [by apply CounterFacts.get_str_Some|].
  split; [by apply CounterFacts.get_str_Some|]. done.
Qed.

(** A record the loop has queued: it has not run, and it carries the fixed
    keys of the blend activity. *)
Definition queued (b q : activity) : Prop :=
  q !! "mystatus" = Some (VStr "NOTDONE") ∧ agree b q.

Lemma launch_spec svc m b band svc' b' :
  launch svc m b band = Ok (svc', b') →
  ∃ q, queued b q ∧ agree b b' ∧
    sqs svc' = sqs svc ++ [q] ∧ kinesis svc' = kinesis svc ++ [q] ∧
    s3 svc' = s3 svc ∧ now svc' = now svc ∧ calls svc' = calls svc ∧
    control_table svc' = control_table svc.
Proof.
  unfold launch. intros H.
  apply bind_Ok in H as (svc1 & Hput & H).
  apply bind_Ok in H as (b1 & Hroom & H). injection H as <- <-.
  apply put_item_kinesis_spec in Hput as (id & sk & _ & _ & ->).
  unfold leave_room in Hroom.
  apply bind_Ok in Hroom as (scenes & _ & Hroom).
  apply bind_Ok in Hroom as (scenes' & _ & Hroom). injection Hroom as <-.
  exists (not_run svc (<["mystatus" := VStr "NOTDONE"]> b)).
  split; [|split; [|by destruct svc]].
  - split.
    { unfold not_run. rewrite !lookup_insert_ne by done.
      by rewrite lookup_insert_eq. }
    intros k Hk. unfold not_run. fixed_key Hk; by rewrite !lookup_insert_ne.
  - intros k Hk. unfold not_run. fixed_key Hk; by rewrite !lookup_insert_ne.
Qed.

Lemma next_step_frame svc a svc' :
  next_step svc a = Ok svc' →
  sqs svc' = sqs svc ∧ kinesis svc' = kinesis svc ∧ s3 svc' = s3 svc ∧
  now svc' = now svc.
Proof.
  intros H. apply MaestroFacts.next_step_inv in H as (k & _ & H).
  destruct (control_table svc !! k); [|by subst].
  destruct H as (T & _ & ->). by destruct svc.
Qed.

Lemma already_blended_spec svc m b ib key sk svc' counted :
  already_blended svc m b ib key sk = Ok (svc', counted) →
  sqs svc' = sqs svc ∧ kinesis svc' = kinesis svc ∧ s3 svc' = s3 svc ∧
  now svc' = now svc ∧
  (truthy (default VNone (b !! "force")) = true →
   counted = false ∧ calls svc' = calls svc ∧
   control_table svc' = control_table svc).
Proof.
  unfold already_blended. intros H.
  destruct (get_activity_item svc key sk) as [item|];
    [|by injection H as <- <-].
  apply bind_Ok in H as (status & _ & H).
  destruct (eq_str status "DONE"); [|by injection H as <- <-].
  apply bind_Ok in H as (n & _ & H). apply bind_Ok in H as (n' & _ & H).
  destruct (eq_scalar n n'); [|by injection H as <- <-].
  apply bind_Ok in H as (functions & _ & H).
  apply bind_Ok in H as (exists_ & _ & H).
  destruct (truthy (default VNone (b !! "force"))) eqn:Hforce; cbn in H.
  - injection H as <- <-. by destruct svc.
  - destruct exists_; cbn in H.
    + apply bind_Ok in H as (svc1 & Hstep & H). injection H as <- <-.
      apply next_step_frame in Hstep as (? & ? & ? & ?). done.
    + injection H as <- <-. by destruct svc.
Qed.

Lemma blend_bands_spec bands :
  ∀ svc m b svc' m' b',
  blend_bands svc m b bands = Ok (svc', m', b') →
  ∃ l, sqs svc' = sqs svc ++ l ∧ kinesis svc' = kinesis svc ++ l ∧
    s3 svc' = s3 svc ∧ now svc' = now svc ∧
    (length l ≤ length bands)%nat ∧ Forall (queued b) l ∧
    (truthy (default VNone (b !! "force")) = true →
     length l = length bands ∧ calls svc' = calls svc ∧
     control_table svc' = control_table svc).
Proof.
  induction bands as [|band0 bands IH]; intros svc m b svc' m' b' H.
  { injection H as <- <- <-. exists [].
    rewrite !app_nil_r. by repeat split. }
  cbn [blend_bands] in H.
  apply bind_Ok in H as (internal & _ & H).
  apply bind_Ok in H as (band & _ & H).
  apply bind_Ok in H as ([[m1 b1] st] & Hfill & H).
  apply bind_Ok in H as (key & _ & H).
  apply bind_Ok in H as (sk & _ & H).
  apply bind_Ok in H as ([svc1 counted] & Hthere & H).
  apply fill_blend_agree in Hfill.
  set (ib := if internal then band0 else VBool false) in *.
  set (b2 := <["sk" := if truthy ib then ib else band]> b1) in *.
  assert (Hb2 : agree b b2).
  { intros k Hk. pose proof (Hfill k Hk) as Hk1. unfold b2.
    fixed_key Hk; rewrite lookup_insert_ne by done; rewrite Hk1;
      by rewrite lookup_insert_ne. }
  assert (Hforce : default VNone (b2 !! "force")
                   = default VNone (b !! "force")).
  { rewrite (Hb2 "force"); [done|]. apply list_elem_of_In. cbn. tauto. }
  apply already_blended_spec in Hthere
    as (Hsqs & Hkin & Hs3 & Hnow & Hforced). rewrite Hforce in Hforced.
  destruct counted.
  - apply IH in H as (l & Hq & Hk & Hs & Hn & Hlen & Hall & Hf).
    exists l. rewrite Hq, Hk, Hs, Hn, Hsqs, Hkin, Hs3, Hnow.
    do 4 (split; [done|]). split; [cbn; lia|]. split.
    + eapply Forall_impl; [exact Hall|]. intros q [Hq1 Hq2].
      split; [done|]. by eapply agree_trans.
    + intros Hf'. by destruct (Hforced Hf').
  - apply bind_Ok in H as (band_name & _ & H).
    apply bind_Ok in H as ([svc2 b3] & Hlaunch & H).
    apply launch_spec in Hlaunch
      as (q & Hqueued & Hb3 & Hq & Hk & Hs & Hn & Hc & Hct).
    apply IH in H as (l & Hq' & Hk' & Hs' & Hn' & Hlen & Hall & Hf).
    exists (q :: l).
    rewrite Hq', Hk', Hs', Hn', Hq, Hk, Hs, Hn, Hsqs, Hkin, Hs3, Hnow.
    rewrite <- !app_assoc. do 4 (split; [done|]).
    split; [cbn; lia|]. split.
    + constructor.
      * destruct Hqueued as [Hq1 Hq2]. split; [done|].
        by eapply agree_trans.
      * eapply Forall_impl; [exact Hall|]. intros q' [Hq1 Hq2].
        split; [done|]. eapply agree_trans; [|exact Hq2].
        by eapply agree_trans.
    + intros Hf'. destruct (Hforced Hf') as (_ & Hc1 & Hct1).
      destruct Hf as (Hl & Hc2 & Hct2).
      { rewrite (Hb3 "force"), (Hb2 "force"); [done|..];
          apply list_elem_of_In; cbn; tauto. }
      split; [cbn; by rewrite Hl|].
      by rewrite Hc2, Hct2, Hc, Hct, Hc1, Hct1.
Qed.

(** *** The blend activity before the loop *)

Ltac look :=
  repeat (rewrite lookup_insert_ne by done); rewrite ?lookup_insert_eq.

Lemma copy_keys_copied m b k :
  k ∈ copied_keys →
  copy_keys m b !! k = Some (default (VStr "") (m !! k)).
Proof.
  unfold copy_keys, copied_keys. intros Hk. cbn [foldl].
  repeat (apply elem_of_cons in Hk as [->|Hk]; [by look|]).
  by apply elem_of_nil in Hk.
Qed.

Lemma copy_keys_other m b k :
  k ∉ copied_keys → copy_keys m b !! k = b !! k.
Proof.
  unfold copy_keys, copied_keys. intros Hk. cbn [foldl].
  rewrite !not_elem_of_cons in Hk.
  repeat (destruct Hk as [? Hk]). by look.
Qed.

Lemma length_characters (s : string) :
  length (characters s) = String.length s.
Proof. induction s as [|c s IH]; [done|]. cbn. by rewrite IH. Qed.

Lemma len_elements a b v l na nb :
  add a b = Ok v → elements v = Ok l → len a = Ok na → len b = Ok nb →
  Z.of_nat (length l) = na + nb.
Proof.
  destruct a, b; try done; cbn; intros [= <-] [= <-] [= <-] [= <-].
  - rewrite length_characters, ParserFacts.length_append. lia.
  - rewrite length_app. lia.
Qed.

(** The blend activity [next_blend] hands to its first [fill_blend]. *)
Definition blend_of (m : activity) (key : string) (total : Z)
    (quality_band : pyval) : activity :=
  <["band" := quality_band]>
  (<["scenes" := VDict []]>
  (<["dynamoKey" := VStr key]>
  (<["totalInstancesToBeDone" := VInt total]>
  (copy_keys m (<["action" := VStr "blend"]> ∅))))).

Lemma blend_of_fixed m key total quality_band :
  blend_of m key total quality_band !! "action" = Some (VStr "blend") ∧
  blend_of m key total quality_band !! "dynamoKey" = Some (VStr key) ∧
  blend_of m key total quality_band !! "totalInstancesToBeDone"
  = Some (VInt total) ∧
  blend_of m key total quality_band !! "force"
  = Some (default (VStr "") (m !! "force")).
Proof.
  unfold blend_of. split; [|split; [|split]]; look; done.
Qed.

(** The key of the blend stage: the action and the names of the cube, the
    tile and the period, as the merge activity has them. *)
Definition blend_key (m : activity) (key : string) : Prop :=
  ∃ datacube tileid start end_,
    default (VStr "") (m !! "datacube") = VStr datacube ∧
    default (VStr "") (m !! "tileid") = VStr tileid ∧
    default (VStr "") (m !! "start") = VStr start ∧
    default (VStr "") (m !! "end") = VStr end_ ∧
    key = "blend" +:+ datacube +:+ tileid +:+ start +:+ end_.

Lemma encode_blend_key m total key :
  encode_key (<["totalInstancesToBeDone" := VInt total]>
              (copy_keys m (<["action" := VStr "blend"]> ∅)))
             ["action"; "datacube"; "tileid"; "start"; "end"] = Ok key →
  blend_key m key.
Proof.
  cbn [encode_key]. intros H.
  apply bind_Ok in H as (action & Ha & H).
  apply bind_Ok in H as (rest & H & [= <-]).
  apply bind_Ok in H as (datacube & Hd & H).
  apply bind_Ok in H as (rest1 & H & [= <-]).
  apply bind_Ok in H as (tileid & Ht & H).
  apply bind_Ok in H as (rest2 & H & [= <-]).
  apply bind_Ok in H as (start & Hs & H).
  apply bind_Ok in H as (rest3 & H & [= <-]).
  apply bind_Ok in H as (end_ & He & H). injection H as <-.
  apply CounterFacts.get_str_Some in Ha, Hd, Ht, Hs, He.
  rewrite lookup_insert_ne in Ha, Hd, Ht, Hs, He by done.
  rewrite copy_keys_other in Ha.
  2:{ unfold copied_keys. intros Hin.
      repeat (apply elem_of_cons in Hin as [?|Hin]; [done|]).
      by apply elem_of_nil in Hin. }
  rewrite lookup_insert_eq in Ha. injection Ha as <-.
  rewrite copy_keys_copied in Hd, Ht, Hs, He
    by (apply list_elem_of_In; cbn; tauto).
  injection Hd as Hd. injection Ht as Ht. injection Hs as Hs.
  injection He as He.
  exists datacube, tileid, start, end_. rewrite ControlKeyFacts.append_empty. done.
Qed.

(** The parts of a run of [next_blend] up to the test of the quality
    band. *)
Lemma next_blend_inv svc m svc' m' status :
  next_blend svc m = Ok (svc', m', status) →
  ∃ key nb ni quality_band m1 b1 found,
    len (default (VStr "") (m !! "bands")) = Ok nb ∧
    len (default (VStr "") (m !! "internal_bands")) = Ok ni ∧
    blend_key m key ∧
    m !! "quality_band" = Some quality_band ∧
    fill_blend svc (<["band" := quality_band]> m)
               (blend_of m key (nb + ni) quality_band) (VBool false)
    = Ok (m1, b1, found) ∧
    let svc1 := put_control_table svc key 0 (nb + ni) (now svc) in
    if status
    then
      found = true ∧
      ∃ bands internal_bands v all_bands m2 b2,
        b1 !! "bands" = Some bands ∧
        b1 !! "internal_bands" = Some internal_bands ∧
        add bands internal_bands = Ok v ∧ elements v = Ok all_bands ∧
        blend_bands svc1 m1 b1 all_bands = Ok (svc', m2, b2)
    else
      b1 !! "instancesToBeDone" = Some (VInt 0) ∧
      put_item_kinesis svc1
        (not_run svc1
           (<["errors" :=
                VDict [("step", VStr "next_blend");
                       ("message",
                        VStr "not all merges were found for this tile/period")]]>
           (<["mystatus" := VStr "ERROR"]>
           (<["sk" := VStr "ALLBANDS"]> b1))))
      = Ok svc'.
Proof.
  unfold next_blend. intros H.
  apply bind_Ok in H as (nb & Hnb & H).
  apply bind_Ok in H as (ni & Hni & H).
  apply bind_Ok in H as (key & Hkey & H).
  apply bind_Ok in H as (quality_band & Hqb & H).
  apply bind_Ok in H as ([[m1 b1] found] & Hfill & H).
  apply bind_Ok in H as (missing & Hmissing & H).
  fold (blend_of m key (nb + ni) quality_band) in Hfill.
  exists key, nb, ni, quality_band, m1, b1, found.
  unfold getitem in Hnb, Hni, Hqb.
  rewrite copy_keys_copied in Hnb, Hni
    by (apply list_elem_of_In; cbn; tauto).
  cbn in Hnb, Hni.
  destruct (m !! "quality_band") as [qb|] eqn:Hq; [|done].
  injection Hqb as ->.
  do 2 (split; [done|]). split; [by eapply encode_blend_key|].
  do 2 (split; [done|]). cbv zeta.
  destruct missing.
  - apply bind_Ok in H as (svc2 & Hput & H). injection H as <- <- <-.
    split; [|done].
    destruct (fill_blend_counted _ _ _ _ _ _ _ Hfill) as (n & Hn & Hzero).
    rewrite Hn.
    destruct found; cbn in Hmissing; [|by rewrite Hzero].
    unfold getitem in Hmissing. rewrite Hn in Hmissing. cbn in Hmissing.
    injection Hmissing as Hz. apply Z.eqb_eq in Hz as ->. done.
  - apply bind_Ok in H as (bands & Hbands & H).
    apply bind_Ok in H as (internal_bands & Hinternal & H).
    apply bind_Ok in H as (all_bands & Hall & H).
    apply bind_Ok in H as ([[svc2 m2] b2] & Hloop & H).
    injection H as <- <- <-.
    apply bind_Ok in Hall as (v & Hv & Hall).
    unfold getitem in Hbands, Hinternal.
    destruct (b1 !! "bands") as [bv|]; [|done]. injection Hbands as ->.
    destruct (b1 !! "internal_bands") as [iv|]; [|done].
    injection Hinternal as ->.
    split; [by destruct found|].
    exists bands, internal_bands, v, all_bands, m2, b2. done.
Qed.

(** X21. When [next_blend] answers False (the merges of the quality band
    are not all found DONE, or there are none), it has queued nothing.  With
    [key] the key of the blend stage, ['blend'] followed by the names of
    the cube, the tile, the start and the end of the period, and [total]
    the number of bands plus the number of internal bands: the counter of
    the stage is put at 0 of [total], and a single record with [mystatus]
    ERROR, step [next_blend], the key ALLBANDS and [total] as its
    [totalInstancesToBeDone] goes on the stream and into the activity
    table; no preparer is called and object storage is as it was. *)
Theorem next_blend_incomplete (svc svc' : services) (m m' : activity) :
  next_blend svc m = Ok (svc', m', false) →
  ∃ datacube tileid start end_ nb ni q,
    default (VStr "") (m !! "datacube") = VStr datacube ∧
    default (VStr "") (m !! "tileid") = VStr tileid ∧
    default (VStr "") (m !! "start") = VStr start ∧
    default (VStr "") (m !! "end") = VStr end_ ∧
    len (default (VStr "") (m !! "bands")) = Ok nb ∧
    len (default (VStr "") (m !! "internal_bands")) = Ok ni ∧
    let key := "blend" +:+ datacube +:+ tileid +:+ start +:+ end_ in
    let total := nb + ni in
    control_table svc'
    = <[key := Counter 0 total (now svc) 0]> (control_table svc) ∧
    activities_table svc'
    = <[(key, "ALLBANDS") := q]> (activities_table svc) ∧
    kinesis svc' = kinesis svc ++ [q] ∧ sqs svc' = sqs svc ∧
    calls svc' = calls svc ∧ s3 svc' = s3 svc ∧
    q !! "action" = Some (VStr "blend") ∧
    q !! "dynamoKey" = Some (VStr key) ∧
    q !! "sk" = Some (VStr "ALLBANDS") ∧
    q !! "mystatus" = Some (VStr "ERROR") ∧
    q !! "errors"
    = Some (VDict [("step", VStr "next_blend");
                   ("message",
                    VStr "not all merges were found for this tile/period")]) ∧
    q !! "instancesToBeDone" = Some (VInt 0) ∧
    q !! "totalInstancesToBeDone" = Some (VInt total).
Proof.
  intros H.
  apply next_blend_inv in H
    as (key & nb & ni & quality_band & m1 & b1 & found & Hnb & Hni & Hblend
        & _ & Hfill & H).
  cbv zeta in H. destruct H as (Hzero & Hput).
  pose proof (fill_blend_agree _ _ _ _ _ _ _ Hfill) as Hb1.
  destruct (blend_of_fixed m key (nb + ni) quality_band)
    as (Haction & Hkey & Htotal & _).
  rewrite <- Hb1 in Haction, Hkey, Htotal
    by (apply list_elem_of_In; cbn; tauto).
  match type of Hput with put_item_kinesis _ ?x = _ => set (q := x) in * end.
  assert (Hq : q !! "action" = Some (VStr "blend") ∧
               q !! "dynamoKey" = Some (VStr key) ∧
               q !! "sk" = Some (VStr "ALLBANDS") ∧
               q !! "mystatus" = Some (VStr "ERROR") ∧
               q !! "errors"
               = Some (VDict [("step", VStr "next_blend");
                              ("message",
                               VStr "not all merges were found for this tile/period")]) ∧
               q !! "instancesToBeDone" = Some (VInt 0) ∧
               q !! "totalInstancesToBeDone" = Some (VInt (nb + ni))).
  { unfold q, not_run. repeat split; look; done. }
  apply put_item_kinesis_spec in Hput as (id & sk & Hid & Hsk & ->).
  destruct Hq as (Ha & Hk & Hs & Hrest).
  rewrite Hk in Hid. rewrite Hs in Hsk.
  injection Hid as <-. injection Hsk as <-.
  destruct Hblend as (datacube & tileid & start & end_ & Hd & Ht & Hst & He
                      & ->).
  exists datacube, tileid, start, end_, nb, ni, q. clearbody q.
  do 6 (split; [done|]). cbv zeta.
  do 6 (split; [by destruct svc|]). done.
Qed.

(** A tile and period of a cube with the bands nir and quality and the
    internal band CLEAROB, and one merged date. *)
Definition merge_last : activity :=
  <["quality_band" := VStr "quality"]>
  (<["bands" := VList [VStr "nir"; VStr "quality"]]>
  (<["internal_bands" := VList [VStr "CLEAROB"]]>
  (<["functions" := VList [VStr "STK"; VStr "MED"]]>
  (<["datacube" := VStr "LC8_30_16D_STK"]>
  (<["start" := VStr "2020-01-01"]>
  (<["end" := VStr "2020-01-16"]>
  (<["version" := VStr "v001"]>
  (<["bucket_name" := VStr "bucket"]> BlendFacts.mergeactivity0)))))))).

Definition svc_none : services :=
  Services "bucket" ∅ ∅ ∅ [] [] [] "2020-02-01 00:00:00".

Definition not_merged : services * activity * bool :=
  Eval vm_compute in
    match next_blend svc_none merge_last with
    | Ok r => r
    | Raise _ => (svc_none, ∅, true)
    end.

Lemma next_blend_incomplete_witness :
  next_blend svc_none merge_last
  = Ok (not_merged.1.1, not_merged.1.2, false) ∧
  sqs not_merged.1.1 = [] ∧ calls not_merged.1.1 = [] ∧
  length (kinesis not_merged.1.1) = 1%nat.
Proof.
  assert (Hrun : next_blend svc_none merge_last
                 = Ok (not_merged.1.1, not_merged.1.2, false))
    by reflexivity.
  split; [exact Hrun|].
  destruct (next_blend_incomplete _ _ _ _ Hrun)
    as (datacube & tileid & start & end_ & nb & ni & q & _ & _ & _ & _ & _
        & _ & H).
  cbv zeta in H. destruct H as (_ & _ & Hkin & Hsqs & Hcalls & _).
  split; [exact Hsqs|]. split; [exact Hcalls|]. by rewrite Hkin.
Defined.

(** X22. When the quality band is complete, [next_blend] answers True.  With
    [force] set it calls no [next_step] and leaves the counter of the blend
    stage at 0 of the number of bands and internal bands.  In a run in
    which no [next_step] enters a preparer (so with [force], and when no
    blend found DONE fills its counter), what [next_blend] queued is what
    it put on the stream: at most one blend activity per band and internal
    band, and with [force] exactly one, each with [mystatus] NOTDONE, the
    key of the blend stage and the number of bands as its total; object
    storage is as it was. *)
Theorem next_blend_queues (svc svc' : services) (m m' : activity) :
  next_blend svc m = Ok (svc', m', true) →
  ∃ key nb ni,
    blend_key m key ∧
    len (default (VStr "") (m !! "bands")) = Ok nb ∧
    len (default (VStr "") (m !! "internal_bands")) = Ok ni ∧
    (truthy (default (VStr "") (m !! "force")) = true →
     calls svc' = calls svc ∧
     control_table svc'
     = <[key := Counter 0 (nb + ni) (now svc) 0]> (control_table svc)) ∧
    (calls svc' = calls svc →
     ∃ l,
       sqs svc' = sqs svc ++ l ∧ kinesis svc' = kinesis svc ++ l ∧
       s3 svc' = s3 svc ∧
       Z.of_nat (length l) ≤ nb + ni ∧
       (truthy (default (VStr "") (m !! "force")) = true →
        Z.of_nat (length l) = nb + ni) ∧
       Forall (λ q, q !! "action" = Some (VStr "blend") ∧
                    q !! "dynamoKey" = Some (VStr key) ∧
                    q !! "mystatus" = Some (VStr "NOTDONE") ∧
                    q !! "totalInstancesToBeDone" = Some (VInt (nb + ni))) l).
Proof.
  intros H.
  apply next_blend_inv in H
    as (key & nb & ni & quality_band & m1 & b1 & found & Hnb & Hni & Hblend
        & _ & Hfill & H).
  cbv zeta in H.
  destruct H as (_ & bands & internal_bands & v & all_bands & m2 & b2
                 & Hbands & Hinternal & Hadd & Hall & Hloop).
  pose proof (fill_blend_agree _ _ _ _ _ _ _ Hfill) as Hb1.
  destruct (blend_of_fixed m key (nb + ni) quality_band)
    as (Haction & Hkey & Htotal & Hforce).
  rewrite <- Hb1 in Haction, Hkey, Htotal, Hforce
    by (apply list_elem_of_In; cbn; tauto).
  assert (Hlen : Z.of_nat (length all_bands) = nb + ni).
  { apply (len_elements bands internal_bands v); try done.
    - rewrite (fill_blend_frame _ _ _ _ _ _ _ Hfill) in Hbands by done.
      unfold blend_of in Hbands.
      rewrite !lookup_insert_ne, copy_keys_copied in Hbands;
        [|apply list_elem_of_In; cbn; tauto|done..].
      by injection Hbands as <-.
    - rewrite (fill_blend_frame _ _ _ _ _ _ _ Hfill) in Hinternal by done.
      unfold blend_of in Hinternal.
      rewrite !lookup_insert_ne, copy_keys_copied in Hinternal;
        [|apply list_elem_of_In; cbn; tauto|done..].
      by injection Hinternal as <-. }
  apply blend_bands_spec in Hloop
    as (l & Hsqs & Hkin & Hs3 & _ & Hle & Hqueued & Hforced).
  rewrite Hforce in Hforced. cbn in Hforced.
  exists key, nb, ni. do 3 (split; [done|]). split.
  - intros Hf. destruct (Hforced Hf) as (_ & Hc & Hct).
    split; [by destruct svc|]. by destruct svc.
  - intros _. exists l.
    split; [by destruct svc|]. split; [by destruct svc|].
    split; [by destruct svc|]. split; [lia|]. split.
    + intros Hf. destruct (Hforced Hf) as (Hl & _). lia.
    + eapply Forall_impl; [exact Hqueued|]. intros q [Hq Hagree].
      rewrite (Hagree "action"), (Hagree "dynamoKey"),
        (Hagree "totalInstancesToBeDone")
        by (apply list_elem_of_In; cbn; tauto).
      done.
Qed.

Definition merged_quality : activity :=
  <["dynamoKey" := VStr "mergeLC8_300123452020-01-05quality"]>
  (<["ARDfile" :=
       VStr "LC8_30/v001/012345/2020-01-05/LC8_30_v001_012345_2020-01-05_quality.tif"]>
   BlendFacts.merged_nir).

Definition svc_merged : services :=
  Services "bucket" ∅
    {[ ("mergeLC8_300123452020-01-05nir", "2020-01-05")
         := BlendFacts.merged_nir;
       ("mergeLC8_300123452020-01-05quality", "2020-01-05")
         := merged_quality ]}
    ∅ [] [] [] "2020-02-01 00:00:00".

Definition all_merged : services * activity * bool :=
  Eval vm_compute in
    match next_blend svc_merged merge_last with
    | Ok r => r
    | Raise _ => (svc_merged, ∅, false)
    end.

Lemma next_blend_queues_witness :
  next_blend svc_merged merge_last
  = Ok (all_merged.1.1, all_merged.1.2, true) ∧
  calls all_merged.1.1 = calls svc_merged ∧
  ∃ l, sqs all_merged.1.1 = l ∧ kinesis all_merged.1.1 = l ∧
       Z.of_nat (length l) ≤ 3.
Proof.
  assert (Hrun : next_blend svc_merged merge_last
                 = Ok (all_merged.1.1, all_merged.1.2, true))
    by reflexivity.
  assert (Hcalls : calls all_merged.1.1 = calls svc_merged) by reflexivity.
  split; [exact Hrun|]. split; [exact Hcalls|].
  destruct (next_blend_queues _ _ _ _ Hrun)
    as (key & nb & ni & _ & Hnb & Hni & _ & Hquiet).
  injection Hnb as <-. injection Hni as <-.
  destruct (Hquiet Hcalls) as (l & Hsqs & Hkin & _ & Hle & _).
  exists l. split; [exact Hsqs|]. split; [exact Hkin|]. exact Hle.
Defined.

End NextBlendFacts.

(** ** The order of the stages *)

Module StageFacts.
Import Py Services Maestro Blend NextBlend.












End StageFacts.
